(** * opkg: the package record of libopkg/pkg.c

    A shallow embedding of the functions of [libopkg/pkg.c] that the
    specification speaks about: the Debian version comparison
    ([order], [verrevcmp], [pkg_compare_versions]), the constraint test
    ([pkg_version_satisfied]), the record merge ([pkg_merge]), the
    [Status:] line ([pkg_state_flag_to_str], [pkg_formatted_field]), the
    maintainer-script runner ([pkg_run_script]) and the download gate
    ([pkg_verify]).

    C data is modelled as the code has it: [int] results are integers in [Z]
    with the conversion to 32 bits written out where a subtraction can leave
    the range, [char *] is an [option string] ([None] is the null pointer),
    and a string is read the way C reads it, one character at a time up to
    the terminating NUL.  Calls that leave the process (stat, unlink, the
    checksum and signature back ends, the shell) are recorded in a trace of
    events, their answers being taken from an environment record. *)

From Stdlib Require Import ZArith NArith List String Ascii Bool Lia.
Import ListNotations.

Local Open Scope string_scope.
Local Open Scope Z_scope.

(** ** C integers and characters *)

Definition INT_MIN : Z := - 2 ^ 31.
Definition INT_MAX : Z := 2 ^ 31 - 1.

(** Conversion of an integer value to a 32-bit [int] (two's complement). *)
Definition to_int (z : Z) : Z := (z + 2 ^ 31) mod 2 ^ 32 - 2 ^ 31.

Definition int_range (z : Z) : Prop := INT_MIN <= z <= INT_MAX.

(** Whether plain [char] is signed is left to the platform by C (signed on
    x86, unsigned on ARM); it only matters for bytes above 127. *)
Class CharAbi := { char_is_signed : bool }.

(** The byte stored in a [char], 0..255. *)
Definition char_code (c : ascii) : Z := Z.of_N (N_of_ascii c).

(** [(int)x] for [char x]. *)
Definition char_to_int `{CharAbi} (c : ascii) : Z :=
  if (128 <=? char_code c) && char_is_signed then char_code c - 256
  else char_code c.

(** <ctype.h> in the C locale. *)
Definition isdigit (c : ascii) : bool :=
  (48 <=? char_code c) && (char_code c <=? 57).

Definition isalpha (c : ascii) : bool :=
  ((65 <=? char_code c) && (char_code c <=? 90))
  || ((97 <=? char_code c) && (char_code c <=? 122)).

(** [c != '\0'], the truth value of a character. *)
Definition nonzero (c : ascii) : bool := negb (char_code c =? 0).

(** Dereferencing a pointer into a NUL-terminated string: the characters
    of the Rocq string are followed by the terminator. *)
Definition deref (p : string) : ascii :=
  match p with
  | EmptyString => Ascii.zero
  | String c _ => c
  end.

(** [p + 1]. *)
Definition next (p : string) : string :=
  match p with
  | EmptyString => EmptyString
  | String _ p' => p'
  end.

(** ** Version comparison (libdpkg's vercmp.c as copied into pkg.c) *)

Definition order `{CharAbi} (x : ascii) : Z :=
  if Ascii.eqb x "~"%char then -1
  else if isdigit x then 0
  else if negb (nonzero x) then 0
  else if isalpha x then char_to_int x
  else 256 + char_to_int x.

(** The result of an inner loop of [verrevcmp]: either the function has
    returned, or control falls out of the loop with the two pointers. *)
Inductive loop_exit : Type :=
| Return (r : Z)
| Fallthrough (val ref : string).

(** The condition of the loop over a non-digit run: either pointer stands
    on a character that is neither the terminator nor a digit. *)
Definition in_nondigit_run (val ref : string) : bool :=
  (nonzero (deref val) && negb (isdigit (deref val)))
  || (nonzero (deref ref) && negb (isdigit (deref ref))).

(** The loop over a non-digit run.  Both pointers move together; the branch
    for a [val] that stands on its terminator is never taken
    ([nondigit_run_in_bounds] below), the loop has returned before. *)
Fixpoint verrevcmp_nondigit `{CharAbi} (val ref : string) {struct val}
  : loop_exit :=
  if in_nondigit_run val ref then
    let vc := order (deref val) in
    let rc := order (deref ref) in
    if negb (vc =? rc) then Return (vc - rc)
    else
      match val with
      | EmptyString => Fallthrough val ref
      | String _ val' => verrevcmp_nondigit val' (next ref)
      end
  else Fallthrough val ref.

(** The loop that moves a pointer over leading zeros. *)
Fixpoint skip_zeros (val : string) : string :=
  match val with
  | String c val' => if Ascii.eqb c "0"%char then skip_zeros val' else val
  | EmptyString => val
  end.

(** The loop over two digit runs side by side, which keeps the first
    difference met in [first_diff]. *)
Fixpoint verrevcmp_digits `{CharAbi} (first_diff : Z) (val ref : string)
  {struct val} : Z * string * string :=
  match val with
  | String v val' =>
      if isdigit v && isdigit (deref ref) then
        let first_diff :=
          if first_diff =? 0 then char_to_int v - char_to_int (deref ref)
          else first_diff in
        verrevcmp_digits first_diff val' (next ref)
      else (first_diff, val, ref)
  | EmptyString => (first_diff, val, ref)
  end.

(** The outer loop, entered while either string has characters left.
    Every round that does not return moves a pointer, so the loop is
    unrolled at most [fuel] times; [None] stands for fuel that ran out
    ([verrevcmp_loop_total]: it does not). *)
Fixpoint verrevcmp_loop `{CharAbi} (fuel : nat) (val ref : string)
  : option Z :=
  if nonzero (deref val) || nonzero (deref ref) then
    match fuel with
    | O => None
    | S fuel =>
        match verrevcmp_nondigit val ref with
        | Return r => Some r
        | Fallthrough val ref =>
            let val := skip_zeros val in
            let ref := skip_zeros ref in
            let '(first_diff, val, ref) := verrevcmp_digits 0 val ref in
            if isdigit (deref val) then Some 1
            else if isdigit (deref ref) then Some (-1)
            else if negb (first_diff =? 0) then Some first_diff
            else verrevcmp_loop fuel val ref
        end
    end
  else Some 0.

Definition or_empty (s : option string) : string :=
  match s with
  | Some s => s
  | None => ""
  end.

Definition verrevcmp `{CharAbi} (val ref : option string) : Z :=
  let val := or_empty val in
  let ref := or_empty ref in
  match verrevcmp_loop (S (String.length val + String.length ref)) val ref with
  | Some r => r
  | None => 0
  end.

(** ** The package record (pkg.h)

    The fields that pkg.c reads or writes in the functions below.  A
    [char *] is an [option string]; counts are unsigned; [epoch] and the
    integer flags are kept in [Z], the arithmetic on them being done in
    [int]; an array is a pointer ([option]) to a list, its length being kept
    apart in a count, as in C. *)

Inductive pkg_state_want_t : Set :=
| SW_UNKNOWN | SW_INSTALL | SW_DEINSTALL | SW_PURGE.

Inductive pkg_state_status_t : Set :=
| SS_NOT_INSTALLED | SS_UNPACKED | SS_HALF_CONFIGURED | SS_INSTALLED
| SS_HALF_INSTALLED | SS_CONFIG_FILES | SS_POST_INST_FAILED
| SS_REMOVAL_FAILED.

Inductive version_constraint : Set :=
| NONE | EARLIER | EARLIER_EQUAL | EQUAL | LATER_EQUAL | LATER.

Inductive depend_type : Set :=
| PREDEPEND | DEPEND | CONFLICTS | GREEDY_DEPEND | RECOMMEND | SUGGEST
| REPLACES.

Record depend_t : Set := mk_depend {
  constraint : version_constraint;
  dep_version : option string;
  dep_pkg : string
}.

Record compound_depend_t : Set := mk_compound_depend {
  type : depend_type;
  possibilities : list depend_t
}.

Record pkg_src_t : Set := mk_pkg_src {
  src_name : string
}.

Record pkg_dest_t : Set := mk_pkg_dest {
  dest_name : string;
  root_dir : string;
  info_dir : string
}.

Definition nv_pair_list : Set := list (string * string).

Record pkg_t : Set := mk_pkg {
  name : option string;
  epoch : Z;
  version : option string;
  revision : option string;
  force_reinstall : Z;
  src : option pkg_src_t;
  dest : option pkg_dest_t;
  architecture : option string;
  maintainer : option string;
  section : option string;
  description : option string;
  tags : option string;
  state_want : pkg_state_want_t;
  state_flag : Z;
  state_status : pkg_state_status_t;
  depends_count : N;
  depends : option (list compound_depend_t);
  suggests_count : N;
  recommends_count : N;
  conflicts : option (list compound_depend_t);
  conflicts_count : N;
  replaces : option (list compound_depend_t);
  replaces_count : N;
  pre_depends_count : N;
  provides_count : N;
  provides : option (list string);
  filename : option string;
  local_filename : option string;
  tmp_unpack_dir : option string;
  md5sum : option string;
  sha256sum : option string;
  size : Z;
  installed_size : Z;
  priority : option string;
  source : option string;
  conffiles : nv_pair_list;
  installed_files : option (list string);
  installed_files_ref_cnt : Z;
  installed_time : Z;
  essential : Z;
  auto_installed : Z;
  arch_priority : N;
  provided_by_hand : Z;
  userfields : nv_pair_list
}.

(** The part of the global [opkg_config] that pkg.c consults. *)
Record opkg_conf : Set := mk_opkg_conf {
  noaction : bool;
  offline_root : option string;
  force_postinstall : bool;
  force_checksum : bool;
  check_pkg_signature : bool;
  verbose_status_file : bool;
  default_dest : pkg_dest_t
}.

(** ** Comparing the versions of two packages *)

Definition pkg_compare_versions_no_reinstall `{CharAbi}
  (pkg ref_pkg : pkg_t) : Z :=
  let r := to_int (epoch pkg - epoch ref_pkg) in
  if negb (r =? 0) then r
  else
    let r := verrevcmp (version pkg) (version ref_pkg) in
    if negb (r =? 0) then r
    else verrevcmp (revision pkg) (revision ref_pkg).

Definition pkg_compare_versions `{CharAbi} (pkg ref_pkg : pkg_t) : Z :=
  let r := pkg_compare_versions_no_reinstall pkg ref_pkg in
  if negb (r =? 0) then r
  else to_int (force_reinstall pkg - force_reinstall ref_pkg).

(** ** Effects

    What a function does outside the process, in the order it does it. *)

Inductive message_level : Set := ERROR | NOTICE | INFO | DEBUG.

Inductive event : Set :=
| EvMsg (level : message_level) (text : string)
| EvSetenv (var value : string)
| EvSystem (argv : list string)
| EvStat (path : option string)
| EvFileExists (path : string)
| EvUnlink (path : option string)
| EvVerifySha256 (path : option string) (sum : string)
| EvVerifyMd5 (path : option string) (sum : string)
| EvDownloadSignature
| EvVerifySignature (path : option string) (sig : string).

(** ** Version constraints *)

Fixpoint skip_spaces (s : string) : string :=
  match s with
  | String c s' =>
      if Ascii.eqb c " "%char || Ascii.eqb c "009"%char then skip_spaces s'
      else s
  | EmptyString => s
  end.

(** Modelled from the spec: [str_to_constraint] lives in pkg_depends.c, which
    is not among the sources.  The operators are the five of the version
    algebra, [<] and [>] being accepted as aliases of [<=] and [>=]; the
    operator is consumed together with the white space after it, and any
    other string is the operator kind [NONE].  The result carries the
    advanced pointer. *)
Definition str_to_constraint (str : string) : version_constraint * string :=
  match str with
  | String "<" (String "<" rest) => (EARLIER, skip_spaces rest)
  | String "<" (String "=" rest) => (EARLIER_EQUAL, skip_spaces rest)
  | String ">" (String "=" rest) => (LATER_EQUAL, skip_spaces rest)
  | String ">" (String ">" rest) => (LATER, skip_spaces rest)
  | String "=" rest => (EQUAL, skip_spaces rest)
  | String "<" rest => (EARLIER_EQUAL, skip_spaces rest)
  | String ">" rest => (LATER_EQUAL, skip_spaces rest)
  | _ => (NONE, str)
  end.


(** The value of a C comparison, 1 or 0. *)
Definition c_bool (b : bool) : Z := if b then 1 else 0.

Definition pkg_version_satisfied `{CharAbi} (it ref : pkg_t) (op : string)
  : Z * list event :=
  let r := pkg_compare_versions it ref in
  let '(constraint, op) := str_to_constraint op in
  match constraint with
  | EARLIER_EQUAL => (c_bool (r <=? 0), [])
  | LATER_EQUAL => (c_bool (r >=? 0), [])
  | EARLIER => (c_bool (r <? 0), [])
  | LATER => (c_bool (r >? 0), [])
  | EQUAL => (c_bool (r =? 0), [])
  | NONE => (0, [EvMsg ERROR ("Unknown operator: " ++ op ++ ".")])
  end.

(** ** Merging two records of one package *)

(** [if (!old) old = new;] for a pointer and for an integer. *)
Definition keep_ptr {A : Type} (old new : option A) : option A :=
  match old with
  | Some _ => old
  | None => new
  end.

Definition keep_int (old new : Z) : Z := if old =? 0 then new else old.

Definition keep_uint (old new : N) : N := if (old =? 0)%N then new else old.

(** [nv_pair_list_empty] followed by [list_splice_init]: the entries of [new]
    are moved to the front of an empty [old]. *)
Definition splice_if_empty (old new : nv_pair_list)
  : nv_pair_list * nv_pair_list :=
  match old with
  | [] => ((new ++ old)%list, [])
  | _ :: _ => (old, new)
  end.

(** Whether the block that takes over the dependency arrays runs. *)
Definition no_depends (p : pkg_t) : bool :=
  (depends_count p =? 0)%N && (pre_depends_count p =? 0)%N
  && (recommends_count p =? 0)%N && (suggests_count p =? 0)%N.

(** The body of [pkg_merge] for two distinct records: the pair of
    [oldpkg] and [newpkg] as the function leaves them. *)
Definition pkg_merge_records (conf : opkg_conf) (oldpkg newpkg : pkg_t)
  : pkg_t * pkg_t :=
  let take_depends := no_depends oldpkg in
  let take_provides := (provides_count oldpkg <=? 1)%N in
  let take_conflicts := (conflicts_count oldpkg =? 0)%N in
  let take_replaces := (replaces_count oldpkg =? 0)%N in
  let take_files :=
    match installed_files oldpkg with None => true | Some _ => false end in
  let user :=
    if verbose_status_file conf
    then splice_if_empty (userfields oldpkg) (userfields newpkg)
    else (userfields oldpkg, userfields newpkg) in
  let conf_files := splice_if_empty (conffiles oldpkg) (conffiles newpkg) in
  ({| name := name oldpkg;
      epoch := epoch oldpkg;
      version := version oldpkg;
      revision := revision oldpkg;
      force_reinstall := force_reinstall oldpkg;
      src := keep_ptr (src oldpkg) (src newpkg);
      dest := keep_ptr (dest oldpkg) (dest newpkg);
      architecture := keep_ptr (architecture oldpkg) (architecture newpkg);
      maintainer := keep_ptr (maintainer oldpkg) (maintainer newpkg);
      section := keep_ptr (section oldpkg) (section newpkg);
      description := keep_ptr (description oldpkg) (description newpkg);
      tags := tags oldpkg;
      state_want := state_want oldpkg;
      state_flag := state_flag oldpkg;
      state_status := state_status oldpkg;
      depends_count :=
        if take_depends then depends_count newpkg else depends_count oldpkg;
      depends := if take_depends then depends newpkg else depends oldpkg;
      suggests_count :=
        if take_depends then suggests_count newpkg
        else suggests_count oldpkg;
      recommends_count :=
        if take_depends then recommends_count newpkg
        else recommends_count oldpkg;
      conflicts :=
        if take_conflicts then conflicts newpkg else conflicts oldpkg;
      conflicts_count :=
        if take_conflicts then conflicts_count newpkg
        else conflicts_count oldpkg;
      replaces := if take_replaces then replaces newpkg else replaces oldpkg;
      replaces_count :=
        if take_replaces then replaces_count newpkg
        else replaces_count oldpkg;
      pre_depends_count :=
        if take_depends then pre_depends_count newpkg
        else pre_depends_count oldpkg;
      provides_count :=
        if take_provides then provides_count newpkg
        else provides_count oldpkg;
      provides := if take_provides then provides newpkg else provides oldpkg;
      filename := keep_ptr (filename oldpkg) (filename newpkg);
      local_filename :=
        keep_ptr (local_filename oldpkg) (local_filename newpkg);
      tmp_unpack_dir :=
        keep_ptr (tmp_unpack_dir oldpkg) (tmp_unpack_dir newpkg);
      md5sum := keep_ptr (md5sum oldpkg) (md5sum newpkg);
      sha256sum := keep_ptr (sha256sum oldpkg) (sha256sum newpkg);
      size := keep_int (size oldpkg) (size newpkg);
      installed_size :=
        keep_int (installed_size oldpkg) (installed_size newpkg);
      priority := keep_ptr (priority oldpkg) (priority newpkg);
      source := keep_ptr (source oldpkg) (source newpkg);
      conffiles := fst conf_files;
      installed_files :=
        if take_files then installed_files newpkg
        else installed_files oldpkg;
      installed_files_ref_cnt :=
        if take_files then installed_files_ref_cnt newpkg
        else installed_files_ref_cnt oldpkg;
      installed_time := installed_time oldpkg;
      essential := keep_int (essential oldpkg) (essential newpkg);
      auto_installed :=
        keep_int (auto_installed oldpkg) (auto_installed newpkg);
      arch_priority :=
        keep_uint (arch_priority oldpkg) (arch_priority newpkg);
      provided_by_hand := provided_by_hand oldpkg;
      userfields := fst user |},
   {| name := name newpkg;
      epoch := epoch newpkg;
      version := version newpkg;
      revision := revision newpkg;
      force_reinstall := force_reinstall newpkg;
      src := src newpkg;
      dest := dest newpkg;
      architecture := architecture newpkg;
      maintainer := maintainer newpkg;
      section := section newpkg;
      description := description newpkg;
      tags := tags newpkg;
      state_want := state_want newpkg;
      state_flag := state_flag newpkg;
      state_status := state_status newpkg;
      depends_count := if take_depends then 0%N else depends_count newpkg;
      depends := if take_depends then None else depends newpkg;
      suggests_count := if take_depends then 0%N else suggests_count newpkg;
      recommends_count :=
        if take_depends then 0%N else recommends_count newpkg;
      conflicts := if take_conflicts then None else conflicts newpkg;
      conflicts_count :=
        if take_conflicts then 0%N else conflicts_count newpkg;
      replaces := if take_replaces then None else replaces newpkg;
      replaces_count := if take_replaces then 0%N else replaces_count newpkg;
      pre_depends_count :=
        if take_depends then 0%N else pre_depends_count newpkg;
      provides_count := if take_provides then 0%N else provides_count newpkg;
      provides := if take_provides then None else provides newpkg;
      filename := filename newpkg;
      local_filename := local_filename newpkg;
      tmp_unpack_dir := tmp_unpack_dir newpkg;
      md5sum := md5sum newpkg;
      sha256sum := sha256sum newpkg;
      size := size newpkg;
      installed_size := installed_size newpkg;
      priority := priority newpkg;
      source := source newpkg;
      conffiles := snd conf_files;
      installed_files :=
        if take_files then None else installed_files newpkg;
      installed_files_ref_cnt := installed_files_ref_cnt newpkg;
      installed_time := installed_time newpkg;
      essential := essential newpkg;
      auto_installed := auto_installed newpkg;
      arch_priority := arch_priority newpkg;
      provided_by_hand := provided_by_hand newpkg;
      userfields := snd user |}).

(** Package records live in memory and are passed by address; two arguments
    may be the same record. *)
Definition pkg_ptr : Set := nat.
Definition pkg_heap : Set := pkg_ptr -> pkg_t.

Definition store (h : pkg_heap) (p : pkg_ptr) (v : pkg_t) : pkg_heap :=
  fun q => if Nat.eqb q p then v else h q.

Definition pkg_merge (conf : opkg_conf) (h : pkg_heap)
  (oldpkg newpkg : pkg_ptr) : pkg_heap * Z :=
  if Nat.eqb oldpkg newpkg then (h, 0)
  else
    let '(o, n) := pkg_merge_records conf (h oldpkg) (h newpkg) in
    (store (store h oldpkg o) newpkg n, 0).

(** ** The state triple as text *)

(** The values of [enum pkg_state_flag] and the mask [SF_NONVOLATILE_FLAGS]
    are declared in pkg.h, which is not among the sources: they are
    parameters here. *)
Class StateFlags := {
  SF_OK : Z;
  SF_REINSTREQ : Z;
  SF_HOLD : Z;
  SF_REPLACE : Z;
  SF_NOPRUNE : Z;
  SF_PREFER : Z;
  SF_OBSOLETE : Z;
  SF_USER : Z;
  SF_NONVOLATILE_FLAGS : Z
}.

Definition pkg_state_want_map : list (pkg_state_want_t * string) :=
  [ (SW_UNKNOWN, "unknown"); (SW_INSTALL, "install");
    (SW_DEINSTALL, "deinstall"); (SW_PURGE, "purge") ].

Definition pkg_state_flag_map `{StateFlags} : list (Z * string) :=
  [ (SF_OK, "ok"); (SF_REINSTREQ, "reinstreq"); (SF_HOLD, "hold");
    (SF_REPLACE, "replace"); (SF_NOPRUNE, "noprune"); (SF_PREFER, "prefer");
    (SF_OBSOLETE, "obsolete"); (SF_USER, "user") ].

Definition pkg_state_status_map : list (pkg_state_status_t * string) :=
  [ (SS_NOT_INSTALLED, "not-installed"); (SS_UNPACKED, "unpacked");
    (SS_HALF_CONFIGURED, "half-configured"); (SS_INSTALLED, "installed");
    (SS_HALF_INSTALLED, "half-installed"); (SS_CONFIG_FILES, "config-files");
    (SS_POST_INST_FAILED, "post-inst-failed");
    (SS_REMOVAL_FAILED, "removal-failed") ].

Definition pkg_state_want_eq_dec (a b : pkg_state_want_t) : {a = b} + {a <> b}.
Proof. decide equality. Defined.

Definition pkg_state_status_eq_dec (a b : pkg_state_status_t)
  : {a = b} + {a <> b}.
Proof. decide equality. Defined.

(** The loop over an [enum_map_t] table that returns the string of the first
    entry with the value sought, and [unknown] after the last entry. *)
Fixpoint enum_to_str {A : Type} (eq_dec : forall a b : A, {a = b} + {a <> b})
  (map : list (A * string)) (unknown : string) (v : A) : string :=
  match map with
  | [] => unknown
  | (value, str) :: map' =>
      if eq_dec value v then str else enum_to_str eq_dec map' unknown v
  end.

Definition pkg_state_want_to_str (sw : pkg_state_want_t) : string :=
  enum_to_str pkg_state_want_eq_dec pkg_state_want_map
    "<STATE_WANT_UNKNOWN>" sw.

Definition pkg_state_status_to_str (ss : pkg_state_status_t) : string :=
  enum_to_str pkg_state_status_eq_dec pkg_state_status_map
    "<STATE_STATUS_UNKNOWN>" ss.

(** The first [n] characters of [s], all of [s] when it is shorter. *)
Fixpoint strn (n : nat) (s : string) : string :=
  match n, s with
  | S n', String c s' => String c (strn n' s')
  | _, _ => EmptyString
  end.

Definition strncat (dst src : string) (n : nat) : string := dst ++ strn n src.

(** The test [sf & value] of one table entry. *)
Definition flag_set (sf : Z) (entry : Z * string) : bool :=
  negb (Z.land sf (fst entry) =? 0).

(** The assignment of NUL to the last character of [str].  On the empty
    string the index is before the buffer: there is no result. *)
Fixpoint squash_last (str : string) : option string :=
  match str with
  | EmptyString => None
  | String _ EmptyString => Some EmptyString
  | String c str' =>
      match squash_last str' with
      | Some s => Some (String c s)
      | None => None
      end
  end.

Definition pkg_state_flag_to_str `{StateFlags} (sf : Z) : option string :=
  let sf := Z.land sf SF_NONVOLATILE_FLAGS in
  if sf =? 0 then Some "ok"
  else
    let len :=
      fold_left
        (fun len entry =>
           if flag_set sf entry
           then (len + String.length (snd entry) + 1)%nat else len)
        pkg_state_flag_map 0%nat in
    let str :=
      fold_left
        (fun str entry =>
           if flag_set sf entry
           then strncat (strncat str (snd entry) len) "," len else str)
        pkg_state_flag_map "" in
    squash_last str.

Definition newline : string := String "010"%char EmptyString.

(** The branch of [pkg_formatted_field] for the field [Status]: the text
    written to the stream. *)
Definition pkg_formatted_field_Status `{StateFlags} (pkg : pkg_t)
  : option string :=
  match pkg_state_flag_to_str (state_flag pkg) with
  | Some pflag =>
      Some ("Status: " ++ pkg_state_want_to_str (state_want pkg) ++ " "
            ++ pflag ++ " " ++ pkg_state_status_to_str (state_status pkg)
            ++ newline)
  | None => None
  end.

(** ** The world outside

    The answers of the calls that pkg.c makes into the operating system and
    into the other files of the library (file_util.c, xsystem.c,
    opkg_verify.c, opkg_download.c). *)

Inductive stat_result : Set :=
| StatOk (st_size : Z)
| StatENOENT
| StatError.

Record os_env : Type := mk_os_env {
  file_exists : string -> bool;
  xsystem : list string -> Z;
  stat : option string -> stat_result;
  opkg_verify_sha256sum : option string -> string -> Z;
  opkg_verify_md5sum : option string -> string -> Z;
  pkg_download_signature : pkg_t -> option string;
  opkg_verify_signature : option string -> string -> Z
}.

(** What printf writes for [%s]. *)
Definition printf_s (s : option string) : string :=
  match s with
  | Some s => s
  | None => "(null)"
  end.

(** ** Maintainer scripts *)

Definition has_info_dir_scripts (ss : pkg_state_status_t) : bool :=
  match ss with
  | SS_INSTALLED | SS_UNPACKED | SS_HALF_INSTALLED => true
  | _ => false
  end.

(** Where the script of a package is looked for: under the info directory
    of the destination once the package is unpacked, in the temporary unpack
    directory before.  [inr] carries the text of the internal error. *)
Definition script_path (pkg : pkg_t) (script : string) : string + string :=
  if has_info_dir_scripts (state_status pkg) then
    match dest pkg with
    | None =>
        inr ("Internal error: " ++ printf_s (name pkg) ++ " has a NULL dest.")
    | Some d =>
        inl (info_dir d ++ "/" ++ printf_s (name pkg) ++ "." ++ script)
    end
  else
    match tmp_unpack_dir pkg with
    | None =>
        inr ("Internal error: " ++ printf_s (name pkg)
             ++ " has a NULL tmp_unpack_dir.")
    | Some dir => inl (dir ++ "/" ++ script)
    end.

Definition is_set {A : Type} (p : option A) : bool :=
  match p with
  | Some _ => true
  | None => false
  end.

Definition pkg_run_script (conf : opkg_conf) (env : os_env) (pkg : pkg_t)
  (script args : string) : Z * list event :=
  if noaction conf then (0, [])
  else if is_set (offline_root conf) && negb (force_postinstall conf) then
    (0, [EvMsg INFO ("Offline root mode: not running " ++ printf_s (name pkg)
                     ++ "." ++ script ++ ".")])
  else
    match script_path pkg script with
    | inr internal_error => (-1, [EvMsg ERROR internal_error])
    | inl path =>
        let pkg_root :=
          match dest pkg with
          | Some d => root_dir d
          | None => root_dir (default_dest conf)
          end in
        let trace :=
          [ EvMsg INFO ("Running script " ++ path ++ ".");
            EvSetenv "PKG_ROOT" pkg_root;
            EvFileExists path ] in
        if negb (file_exists env path) then (0, trace)
        else
          let cmd := path ++ " " ++ args in
          let argv := ["/bin/sh"; "-c"; cmd] in
          let err := xsystem env argv in
          let trace := (trace ++ [EvSystem argv])%list in
          if negb (err =? 0) then
            if negb (is_set (offline_root conf)) then
              (err,
               (trace ++ [EvMsg ERROR ("package " ++ printf_s (name pkg)
                                       ++ " " ++ script
                                       ++ " script returned status")])%list)
            else (err, trace)
          else (0, trace)
    end.

(** ** Verifying a downloaded package *)

(** The code at the label [fail]. *)
Definition pkg_verify_fail (conf : opkg_conf) (env : os_env) (pkg : pkg_t)
  (err : Z) (local_sig_filename : option string) (trace : list event)
  : Z * list event :=
  if negb (force_checksum conf) then
    let trace :=
      (trace ++ [ EvMsg NOTICE "Removing corrupt package file";
                  EvUnlink (local_filename pkg) ])%list in
    match local_sig_filename with
    | Some sig =>
        if file_exists env sig then
          (err, (trace ++ [ EvFileExists sig;
                            EvMsg NOTICE "Removing unmatched signature file";
                            EvUnlink (Some sig) ])%list)
        else (err, (trace ++ [EvFileExists sig])%list)
    | None => (err, trace)
    end
  else (0, (trace ++ [EvMsg NOTICE "Ignored checksum mismatch"])%list).

(** The signature stage, entered once the checksum stage is behind. *)
Definition pkg_verify_signature_stage (conf : opkg_conf) (env : os_env)
  (pkg : pkg_t) (trace : list event) : Z * list event :=
  if check_pkg_signature conf then
    let trace := (trace ++ [EvDownloadSignature])%list in
    match pkg_download_signature env pkg with
    | None => pkg_verify_fail conf env pkg (-1) None trace
    | Some sig =>
        let err := opkg_verify_signature env (local_filename pkg) sig in
        let trace :=
          (trace ++ [EvVerifySignature (local_filename pkg) sig])%list in
        if negb (err =? 0)
        then pkg_verify_fail conf env pkg err (Some sig) trace
        else
          (0, (trace ++ [EvMsg DEBUG "Signature verification passed"])%list)
    end
  else (0, trace).

(** [HAVE_SHA256] is the macro that configure defines under
    [--enable-sha256] (off unless asked for). *)
Definition pkg_verify (HAVE_SHA256 : bool) (conf : opkg_conf) (env : os_env)
  (pkg : pkg_t) : Z * list event :=
  let trace := [EvStat (local_filename pkg)] in
  match stat env (local_filename pkg) with
  | StatENOENT => (1, trace)
  | StatError =>
      pkg_verify_fail conf env pkg (-1) None
        (trace ++ [EvMsg ERROR "Failed to stat"])%list
  | StatOk st_size =>
      if (st_size <? 1) || negb (st_size =? size pkg) then
        pkg_verify_fail conf env pkg (-1) None
          (trace ++ [EvMsg ERROR "File size mismatch"])%list
      else
        match (if HAVE_SHA256 then sha256sum pkg else None), md5sum pkg with
        | Some sum, _ =>
            let err := opkg_verify_sha256sum env (local_filename pkg) sum in
            let trace :=
              (trace ++ [EvVerifySha256 (local_filename pkg) sum])%list in
            if negb (err =? 0) then pkg_verify_fail conf env pkg err None trace
            else pkg_verify_signature_stage conf env pkg trace
        | None, Some sum =>
            let err := opkg_verify_md5sum env (local_filename pkg) sum in
            let trace :=
              (trace ++ [EvVerifyMd5 (local_filename pkg) sum])%list in
            if negb (err =? 0) then pkg_verify_fail conf env pkg err None trace
            else pkg_verify_signature_stage conf env pkg trace
        | None, None =>
            if negb (force_checksum conf) then
              (-1,
               (trace ++ [EvMsg ERROR
                            "Checksum is either missing or unsupported"])%list)
            else pkg_verify_signature_stage conf env pkg trace
        end
  end.

(** ** The order that the specification describes

    The specification gives the order of version strings in words: the
    string is cut into non-digit runs and digit runs that alternate; a
    non-digit run is compared character by character through [order], its
    end counting as 0; a digit run is compared, once its leading zeros are
    dropped, by its length first and by its digits next.  [version_key]
    writes a string out as the sequence of integers that these rules look
    at, and [key_compare] compares two such sequences position by position,
    a position past the end counting as 0. *)

(** A character stops a non-digit run when it is the terminator or a
    digit. *)
Definition stops_run (c : ascii) : bool := negb (nonzero c && negb (isdigit c)).

(** Where in a string the key has got to. *)
Inductive key_mode : Set :=
| InRun      (* in a non-digit run *)
| InZeros    (* in the leading zeros of a digit run *)
| InDigits.  (* in the digits that count *)

(** The number of digits a string begins with. *)
Fixpoint digit_count (s : string) : nat :=
  match s with
  | String c s' => if isdigit c then S (digit_count s') else O
  | EmptyString => O
  end.

Fixpoint version_key `{CharAbi} (m : key_mode) (s : string) : list Z :=
  match s with
  | EmptyString => []
  | String c s' =>
      if negb (nonzero c) then []
      else if isdigit c then
        let digits :=
          if Ascii.eqb c "0"%char then version_key InZeros s'
          else Z.of_nat (digit_count s) :: char_code c
                 :: version_key InDigits s' in
        match m with
        | InRun => 0 :: digits
        | InZeros => digits
        | InDigits => char_code c :: version_key InDigits s'
        end
      else
        match m with
        | InRun | InDigits => order c :: version_key InRun s'
        | InZeros => 0 :: order c :: version_key InRun s'
        end
  end.

(** A sequence against the all-zero sequence. *)
Fixpoint zeros_compare (b : list Z) : comparison :=
  match b with
  | [] => Eq
  | y :: b' =>
      match 0 ?= y with
      | Eq => zeros_compare b'
      | c => c
      end
  end.

Fixpoint key_compare (a b : list Z) : comparison :=
  match a, b with
  | [], _ => zeros_compare b
  | _, [] => CompOpp (zeros_compare a)
  | x :: a', y :: b' =>
      match x ?= y with
      | Eq => key_compare a' b'
      | c => c
      end
  end.

(** The same comparison over the first [n] positions. *)
Fixpoint pad_compare (n : nat) (a b : list Z) : comparison :=
  match n with
  | O => Eq
  | S n' =>
      match hd 0 a ?= hd 0 b with
      | Eq => pad_compare n' (tl a) (tl b)
      | c => c
      end
  end.

(** Two keys that no comparison tells apart, on either side. *)
Definition pad_eq (a b : list Z) : Prop :=
  forall c, key_compare a c = key_compare b c
            /\ key_compare c a = key_compare c b.

(** The sign of an [int] result as a [comparison]. *)
Definition sign (r : Z) : comparison := r ?= 0.

(** Keys in the order they are consulted: the later key only when the
    earlier one compares equal. *)
Definition then_by (c1 c2 : comparison) : comparison :=
  match c1 with
  | Eq => c2
  | _ => c1
  end.

(** The order of the specification on packages: the epochs as numbers, then
    the upstream versions, then the revisions. *)
Definition spec_compare `{CharAbi} (a b : pkg_t) : comparison :=
  then_by (epoch a ?= epoch b)
    (then_by (sign (verrevcmp (version a) (version b)))
       (sign (verrevcmp (revision a) (revision b)))).

(** The fields on which the subtractions do not wrap: an epoch that is not
    negative, as the data model has it, and that fits the [int] that it is
    subtracted and printed as, which the data model does not say;
    [force_reinstall] a flag, 0 or 1. *)
Definition epoch_ok (p : pkg_t) : Prop := 0 <= epoch p <= INT_MAX.

Definition version_fields_ok (p : pkg_t) : Prop :=
  epoch_ok p /\ 0 <= force_reinstall p <= 1.

(** ** The merge rule of the specification *)

(** A scalar field is empty when it is the null pointer, or zero. *)
Definition merged_ptr {A : Type} (old new merged : option A) : Prop :=
  (old <> None -> merged = old) /\ (old = None -> merged = new).

Definition merged_int (old new merged : Z) : Prop :=
  (old <> 0 -> merged = old) /\ (old = 0 -> merged = new).

Definition merged_uint (old new merged : N) : Prop :=
  (old <> 0%N -> merged = old) /\ (old = 0%N -> merged = new).

(** The four counts of the flat dependency array. *)
Definition depends_total (p : pkg_t) : N :=
  (depends_count p + pre_depends_count p + recommends_count p
   + suggests_count p)%N.

Definition depends_arrays (p : pkg_t)
  : option (list compound_depend_t) * (N * N * N * N) :=
  (depends p,
   (depends_count p, pre_depends_count p, recommends_count p,
    suggests_count p)).

Definition provides_array (p : pkg_t) : option (list string) * N :=
  (provides p, provides_count p).

(** ** The flags of a Status line, as the specification lists them *)

(** The names of the table entries whose flag is set in [sf]. *)
Definition set_flag_names `{StateFlags} (sf : Z) : list string :=
  map snd (filter (flag_set sf) pkg_state_flag_map).

(** The length that the first loop of [pkg_state_flag_to_str] adds up, and
    the string that its second loop builds, for the names of the flags that
    are set. *)
Fixpoint names_len (names : list string) : nat :=
  match names with
  | [] => 0
  | text :: names' => (String.length text + 1 + names_len names')%nat
  end.

Fixpoint with_commas (names : list string) : string :=
  match names with
  | [] => ""
  | text :: names' => text ++ "," ++ with_commas names'
  end.

(** Every bit of the mask belongs to an entry of the table. *)
Definition mask_in_table `{StateFlags} : Prop :=
  Z.land SF_NONVOLATILE_FLAGS
    (fold_right (fun entry acc => Z.lor (fst entry) acc) 0
       pkg_state_flag_map)
  = SF_NONVOLATILE_FLAGS.

(** ** Orders given by comparison functions *)

Definition cmp_antisym {A : Type} (cmp : A -> A -> comparison) : Prop :=
  forall a b, cmp b a = CompOpp (cmp a b).

Definition cmp_trans {A : Type} (cmp : A -> A -> comparison) : Prop :=
  forall a b c, cmp a b <> Gt -> cmp b c <> Gt -> cmp a c <> Gt.

Definition verrevcmp_sign `{CharAbi} (v1 v2 : option string) : comparison :=
  sign (verrevcmp v1 v2).

(** The three keys of the specification followed by the flag that
    [pkg_compare_versions] looks at last. *)
Definition compare_with_reinstall `{CharAbi} (a b : pkg_t) : comparison :=
  then_by (spec_compare a b) (force_reinstall a ?= force_reinstall b).

(** ** The stages of the download gate *)

(** The size test of [pkg_verify]. *)
Definition size_ok (env : os_env) (pkg : pkg_t) : bool :=
  match stat env (local_filename pkg) with
  | StatOk st_size => negb ((st_size <? 1) || negb (st_size =? size pkg))
  | StatENOENT | StatError => false
  end.

(** The answer of the checksum that [pkg_verify] asks for, if it asks for
    one: SHA-256 when it is compiled in and the sum is known, MD5 when that
    sum is known. *)
Definition checksum_result (HAVE_SHA256 : bool) (env : os_env) (pkg : pkg_t)
  : option Z :=
  match (if HAVE_SHA256 then sha256sum pkg else None), md5sum pkg with
  | Some sum, _ => Some (opkg_verify_sha256sum env (local_filename pkg) sum)
  | None, Some sum => Some (opkg_verify_md5sum env (local_filename pkg) sum)
  | None, None => None
  end.

(** The checksum stage lets the package through: the checksum asked for
    matches, or none is known and force-checksum is set. *)
Definition checksum_passed (HAVE_SHA256 : bool) (conf : opkg_conf)
  (env : os_env) (pkg : pkg_t) : bool :=
  match checksum_result HAVE_SHA256 env pkg with
  | Some err => err =? 0
  | None => force_checksum conf
  end.

(** The answer of the signature check: the signature is fetched and
    verified. *)
Definition signature_result (env : os_env) (pkg : pkg_t) : Z :=
  match pkg_download_signature env pkg with
  | None => -1
  | Some sig => opkg_verify_signature env (local_filename pkg) sig
  end.

(** The failures after which [pkg_verify] goes to its label [fail]. *)
Inductive verify_failure (HAVE_SHA256 : bool) (conf : opkg_conf)
  (env : os_env) (pkg : pkg_t) : Prop :=
| StatFailure :
    stat env (local_filename pkg) = StatError ->
    verify_failure HAVE_SHA256 conf env pkg
| SizeMismatch (st_size : Z) :
    stat env (local_filename pkg) = StatOk st_size ->
    size_ok env pkg = false ->
    verify_failure HAVE_SHA256 conf env pkg
| ChecksumMismatch (err : Z) :
    size_ok env pkg = true ->
    checksum_result HAVE_SHA256 env pkg = Some err ->
    err <> 0 ->
    verify_failure HAVE_SHA256 conf env pkg
| SignatureFailure :
    size_ok env pkg = true ->
    checksum_passed HAVE_SHA256 conf env pkg = true ->
    check_pkg_signature conf = true ->
    signature_result env pkg <> 0 ->
    verify_failure HAVE_SHA256 conf env pkg.

(** The stage an event belongs to: 1 for the look at the file, 2 for a
    checksum, 3 for the signature, 4 for the removal of files; 0 for a
    message. *)
Definition stage (ev : event) : nat :=
  match ev with
  | EvStat _ => 1
  | EvVerifySha256 _ _ | EvVerifyMd5 _ _ => 2
  | EvDownloadSignature | EvVerifySignature _ _ => 3
  | EvFileExists _ | EvUnlink _ => 4
  | EvMsg _ _ | EvSetenv _ _ | EvSystem _ => 0
  end.

(** The stages of a trace never go back. *)
Fixpoint stages_ascend (last : nat) (trace : list event) : bool :=
  match trace with
  | [] => true
  | ev :: trace' =>
      match stage ev with
      | O => stages_ascend last trace'
      | s => (last <=? s)%nat && stages_ascend s trace'
      end
  end.

Definition is_unlink (ev : event) : bool :=
  match ev with
  | EvUnlink _ => true
  | _ => false
  end.

Definition is_system (ev : event) : bool :=
  match ev with
  | EvSystem _ => true
  | _ => false
  end.

Definition is_error (ev : event) : bool :=
  match ev with
  | EvMsg ERROR _ => true
  | _ => false
  end.

Definition is_sha256 (ev : event) : bool :=
  match ev with
  | EvVerifySha256 _ _ => true
  | _ => false
  end.

Definition is_md5 (ev : event) : bool :=
  match ev with
  | EvVerifyMd5 _ _ => true
  | _ => false
  end.

Definition is_signature (ev : event) : bool :=
  match ev with
  | EvDownloadSignature | EvVerifySignature _ _ => true
  | _ => false
  end.

(** ** <string.h> *)

(** [strlen]: the characters before the terminator. *)
Fixpoint strlen (s : string) : nat :=
  match s with
  | String c s' => if nonzero c then S (strlen s') else O
  | EmptyString => O
  end.

(** The string that a pointer denotes in C: what stands before the first
    NUL. *)
Definition c_string (s : string) : string := strn (strlen s) s.

(** [strcmp]: the two strings are walked together up to the first
    difference or the terminator.  C fixes the sign of the result, the
    characters being compared as [unsigned char]; its size is left to the
    library, and is here the difference of the two characters. *)
Fixpoint strcmp (s1 s2 : string) {struct s1} : Z :=
  let c1 := char_code (deref s1) in
  let c2 := char_code (deref s2) in
  if negb (c1 =? c2) then c1 - c2
  else
    match s1 with
    | EmptyString => 0
    | String _ s1' => if c1 =? 0 then 0 else strcmp s1' (next s2)
    end.

(** [strncmp]: the same walk over at most [n] characters. *)
Fixpoint strncmp (s1 s2 : string) (n : nat) {struct n} : Z :=
  match n with
  | O => 0
  | S n' =>
      let c1 := char_code (deref s1) in
      let c2 := char_code (deref s2) in
      if negb (c1 =? c2) then c1 - c2
      else if c1 =? 0 then 0
      else strncmp (next s1) (next s2) n'
  end.

(** [p + n]. *)
Fixpoint advance (n : nat) (p : string) : string :=
  match n with
  | O => p
  | S n' => advance n' (next p)
  end.

(** ** Reading the state triple *)

(** The loop over an [enum_map_t] table that returns the value of the first
    entry with the string sought; after the last entry the error is logged
    and [unknown] returned. *)
Fixpoint enum_from_str {A : Type} (map : list (A * string)) (unknown : A)
  (error : string) (str : string) : A * list event :=
  match map with
  | [] => (unknown, [EvMsg ERROR (error ++ str)])
  | (value, text) :: map' =>
      if strcmp str text =? 0 then (value, [])
      else enum_from_str map' unknown error str
  end.

Definition pkg_state_want_from_str (str : string)
  : pkg_state_want_t * list event :=
  enum_from_str pkg_state_want_map SW_UNKNOWN "Internal error: state_want="
    str.

Definition pkg_state_status_from_str (str : string)
  : pkg_state_status_t * list event :=
  enum_from_str pkg_state_status_map SS_NOT_INSTALLED
    "Internal error: state_status=" str.

(** The loop of [pkg_state_flag_from_str]: one pass over the table, the
    pointer moving over each name found in front of it and over the comma
    after it; the first name that no comma follows ends the loop. *)
Fixpoint pkg_state_flag_from_str_loop (map : list (Z * string)) (sf : Z)
  (str : string) : Z :=
  match map with
  | [] => sf
  | (value, sfname) :: map' =>
      let sfname_len := strlen sfname in
      if strncmp str sfname sfname_len =? 0 then
        let sf := Z.lor sf value in
        let str := advance sfname_len str in
        if Ascii.eqb (deref str) ","%char
        then pkg_state_flag_from_str_loop map' sf (next str)
        else sf
      else pkg_state_flag_from_str_loop map' sf str
  end.

Definition pkg_state_flag_from_str `{StateFlags} (str : string) : Z :=
  if strcmp str "ok" =? 0 then SF_OK
  else pkg_state_flag_from_str_loop pkg_state_flag_map SF_OK str.

(** ** Sorting packages *)

(** The comparison handed to qsort for a vector of packages.  The two
    internal errors are logged with the pointers and the priorities, which
    the text here leaves as the format has them. *)
Definition pkg_name_version_and_architecture_compare `{CharAbi}
  (a b : pkg_t) : Z * list event :=
  match name a, name b with
  | Some a_name, Some b_name =>
      let namecmp := strcmp a_name b_name in
      if negb (namecmp =? 0) then (namecmp, [])
      else
        let vercmp := pkg_compare_versions a b in
        if negb (vercmp =? 0) then (vercmp, [])
        else if (arch_priority a =? 0)%N || (arch_priority b =? 0)%N then
          (0, [EvMsg ERROR
                 "Internal error: a->arch_priority=%i b->arch_priority=%i."])
        else if (arch_priority b <? arch_priority a)%N then (1, [])
        else if (arch_priority a <? arch_priority b)%N then (-1, [])
        else (0, [])
  | _, _ => (0, [EvMsg ERROR "Internal error: a->name=%p, b->name=%p."])
  end.

(** The part of [abstract_pkg_t] (pkg.h) that pkg.c touches. *)
Record abstract_pkg_t : Set := mk_abstract_pkg {
  ab_name : option string;
  dependencies_checked : Z;
  ab_state_status : pkg_state_status_t
}.

Definition abstract_pkg_name_compare (a b : abstract_pkg_t)
  : Z * list event :=
  match ab_name a, ab_name b with
  | Some a_name, Some b_name => (strcmp a_name b_name, [])
  | _, _ => (0, [EvMsg ERROR "Internal error: a->name=%p b->name=%p."])
  end.

(** ** Looking a name up *)

(** The loop of [pkg_get_conffile] over the list of conffiles. *)
Fixpoint conffile_list_find (iter : nv_pair_list) (file_name : string)
  : option (string * string) :=
  match iter with
  | [] => None
  | conffile :: iter' =>
      if strcmp (fst conffile) file_name =? 0 then Some conffile
      else conffile_list_find iter' file_name
  end.

Definition pkg_get_conffile (pkg : option pkg_t) (file_name : string)
  : option (string * string) :=
  match pkg with
  | None => None
  | Some pkg => conffile_list_find (conffiles pkg) file_name
  end.

(** The loop of [pkg_arch_supported] over [opkg_config->arch_list], the
    pairs of an architecture and its priority. *)
Fixpoint arch_list_find (arch_list : nv_pair_list) (pkg : pkg_t)
  (arch : string) : Z * list event :=
  match arch_list with
  | [] =>
      (0, [EvMsg DEBUG ("Arch " ++ arch ++ " unsupported for pkg "
                        ++ printf_s (name pkg) ++ ".")])
  | nv :: arch_list' =>
      if strcmp (fst nv) arch =? 0 then
        (1, [EvMsg DEBUG ("Arch " ++ fst nv ++ " (priority " ++ snd nv
                          ++ ") supported for pkg " ++ printf_s (name pkg)
                          ++ ".")])
      else arch_list_find arch_list' pkg arch
  end.

Definition pkg_arch_supported (arch_list : nv_pair_list) (pkg : pkg_t)
  : Z * list event :=
  match architecture pkg with
  | None => (1, [])
  | Some arch => arch_list_find arch_list pkg arch
  end.

(** ** The flags as bits, and the names of the table *)

(** A flag is one bit of the word. *)
Definition single_bit (v : Z) : bool := (0 <? v) && (v =? 2 ^ Z.log2 v).

(** Every entry of the table of flags stands for one bit, or for none. *)
Definition flags_are_bits `{StateFlags} : Prop :=
  forallb (fun entry => (fst entry =? 0) || single_bit (fst entry))
    pkg_state_flag_map = true.

(** Two names part ways at a character that both have, [b] not ending
    there. *)
Fixpoint differ (a b : string) : bool :=
  match a, b with
  | String x a', String y b' =>
      if Ascii.eqb x y then nonzero x && differ a' b' else nonzero y
  | _, _ => false
  end.

(** No name of the table begins a later one, and no name holds a NUL. *)
Fixpoint names_apart (table : list (Z * string)) : bool :=
  match table with
  | [] => true
  | (_, text) :: table' =>
      Nat.eqb (strlen text) (String.length text)
      && forallb (fun entry => differ (snd entry) text) table'
      && names_apart table'
  end.

(** ** Version strings cut in two *)

(** No character of the string is the terminator. *)
Fixpoint nul_free (s : string) : bool :=
  match s with
  | String c s' => nonzero c && nul_free s'
  | EmptyString => true
  end.

(** The string is empty, or its last character is no digit. *)
Fixpoint ends_run (s : string) : bool :=
  match s with
  | EmptyString => true
  | String c EmptyString => negb (isdigit c)
  | String _ s' => ends_run s'
  end.

(** Where the key of a string has got to at its end. *)
Fixpoint mode_after (m : key_mode) (s : string) : key_mode :=
  match s with
  | EmptyString => m
  | String c s' =>
      mode_after
        (if isdigit c then
           match m with
           | InDigits => InDigits
           | InRun | InZeros =>
               if Ascii.eqb c "0"%char then InZeros else InDigits
           end
         else InRun) s'
  end.

(** No run of digits of [s ++ u] begins in [s] and ends in [u]. *)
Fixpoint cut_between_runs (s u : string) : Prop :=
  match s with
  | EmptyString => True
  | String _ s' =>
      digit_count (s ++ u) = digit_count s /\ cut_between_runs s' u
  end.

(** ** The orders of the sorting functions *)

(** The bytes of a C string. *)
Fixpoint name_key (s : string) : list Z :=
  match s with
  | String c s' => if nonzero c then char_code c :: name_key s' else []
  | EmptyString => []
  end.

Definition strcmp_sign (s1 s2 : string) : comparison := sign (strcmp s1 s2).

(** The order of [pkg_name_version_and_architecture_compare] on packages
    that have a name: by name, then by version, then by the priority of the
    architecture. *)
Definition package_order `{CharAbi} (a b : pkg_t) : comparison :=
  then_by (strcmp_sign (or_empty (name a)) (or_empty (name b)))
    (then_by (compare_with_reinstall a b)
       (arch_priority a ?= arch_priority b)%N).

(** A package that the sorting function has no internal error on. *)
Definition sortable (p : pkg_t) : Prop :=
  name p <> None /\ arch_priority p <> 0%N /\ version_fields_ok p.

(** ** What a function removes, and what it leaves alone *)

(** The paths that a trace removes, in the order they are removed. *)
Definition unlinked (trace : list event) : list (option string) :=
  flat_map (fun ev => match ev with EvUnlink path => [path] | _ => [] end)
    trace.

(** What names a package and says where it stands. *)
Definition pkg_identity (p : pkg_t)
  : option string * Z * option string * option string * Z
    * (pkg_state_want_t * Z * pkg_state_status_t) :=
  (name p, epoch p, version p, revision p, force_reinstall p,
   (state_want p, state_flag p, state_status p)).

(** An array that two records could both point to is left where it was, or
    handed over, the record it came from keeping no pointer to it. *)
Definition kept_or_moved {A : Type} (old new old' new' : option A) : Prop :=
  (old' = old /\ new' = new) \/ (old' = new /\ new' = None).

(** ** The lists of installed files

    [pkg_write_filelist] writes the list of the files of an installed
    package, one line for a file, and [pkg_get_installed_files] reads it
    back.  A line is the path, followed, when they are known, by the mode in
    octal and the target of a symbolic link, with tabs between them. *)

(** The largest [unsigned long], that [strtoul] answers on overflow. *)
Class LongAbi := { ULONG_MAX : Z }.

(** Conversion to [unsigned int], which is [mode_t]. *)
Definition to_uint (z : Z) : Z := z mod 2 ^ 32.

(** <sys/stat.h>: the type of a file in its mode. *)
Definition S_IFMT : Z := 61440.
Definition S_IFLNK : Z := 40960.
Definition S_ISLNK (m : Z) : bool := Z.land m S_IFMT =? S_IFLNK.

Definition tab : ascii := "009"%char.

(** An entry of a [file_list_t] (file_list.h). *)
Record file_info_t : Set := mk_file_info {
  fi_path : string;
  fi_mode : Z;
  fi_link_target : option string
}.

Definition file_list_t : Set := list file_info_t.

(** What the functions below do to files, in the order they do it. *)
Inductive file_event : Set :=
| FeMsg (level : message_level) (text : string)
| FeMkstemp (template : string) (created : option string)
| FeFdopen (file : string) (opened : bool)
| FeClose (file : string)
| FeFopen (file mode : string) (opened : bool)
| FeWrite (file text : string)
| FeFclose (file : string)
| FeUnlink (file : string).

(** The answers of the file system and of the files of the library that
    are not among the sources (opkg_utils.c, file_util.c, pkg_extract.c,
    pkg_parse.c, pkg_hash.c): whether a string starts with another, the mode
    of a file when lstat succeeds, the target of a link, the lines of a file
    opened for reading, whether a file can be opened for writing, the
    temporary file made from a template, whether a descriptor can be opened
    as a stream, what the extraction of the names of the data files and of
    the control file answers, together with the lines it writes, what the
    parser makes of a record, the installed packages and the owners of the
    files in the order the hash table is walked; and the last part of a
    path, as basename of <libgen.h> gives it. *)
Record fs_env : Type := mk_fs_env {
  basename : string -> string;
  str_starts_with : string -> string -> bool;
  xlstat : string -> option Z;
  file_readlink_alloc : string -> option string;
  fopen_r : string -> option (list string);
  fopen_w : string -> bool;
  mkstemp : string -> option string;
  fdopen : string -> bool;
  pkg_extract_data_file_names_to_stream : pkg_t -> Z * list string;
  pkg_extract_control_file_to_stream : pkg_t -> Z * list string;
  pkg_parse_from_stream : pkg_t -> list string -> Z * pkg_t;
  pkg_hash_fetch_all_installed : list pkg_ptr;
  file_hash : list (string * pkg_ptr)
}.

(** *** Numbers in a line *)

(** The octal digits of a number, the last one first put in front of
    [acc]; an [unsigned int] has at most eleven. *)
Fixpoint octal_digits (fuel : nat) (v : Z) (acc : string) : string :=
  match fuel with
  | O => acc
  | S fuel' =>
      let acc := String (ascii_of_N (Z.to_N (48 + v mod 8))) acc in
      if v / 8 =? 0 then acc else octal_digits fuel' (v / 8) acc
  end.

Fixpoint zeros (n : nat) : string :=
  match n with
  | O => ""
  | S n' => String "0" (zeros n')
  end.

(** What printf writes for [%#03o]: the octal digits, a zero in front of
    them when the number is not zero, and zeros up to a width of 3. *)
Definition printf_o (v : Z) : string :=
  let digits := octal_digits 11 v "" in
  let text := if v =? 0 then digits else String "0" digits in
  zeros (3 - String.length text) ++ text.

(** <ctype.h> in the C locale. *)
Definition isspace (c : ascii) : bool :=
  (char_code c =? 32) || ((9 <=? char_code c) && (char_code c <=? 13)).

Fixpoint skip_space (s : string) : string :=
  match s with
  | String c s' => if isspace c then skip_space s' else s
  | EmptyString => s
  end.

(** The value of a character as a digit of a number in [base]. *)
Definition digit_in (base : Z) (c : ascii) : option Z :=
  let n := char_code c in
  let d :=
    if isdigit c then n - 48
    else if (97 <=? n) && (n <=? 122) then n - 87
    else if (65 <=? n) && (n <=? 90) then n - 55
    else 36 in
  if d <? base then Some d else None.

Fixpoint strtoul_digits (base : Z) (acc : Z) (s : string) : Z :=
  match s with
  | String c s' =>
      match digit_in base c with
      | Some d => strtoul_digits base (acc * base + d) s'
      | None => acc
      end
  | EmptyString => acc
  end.

(** [strtoul (nptr, NULL, 0)]: white space, a sign, the base told by the
    prefix (0x for 16, 0 for 8, 10 otherwise), and the digits of that base;
    [ULONG_MAX] when the number does not fit, and the number negated in
    [unsigned long] after a minus sign. *)
Definition strtoul `{LongAbi} (nptr : string) : Z :=
  let s := skip_space nptr in
  let '(negative, s) :=
    match s with
    | String "-" s' => (true, s')
    | String "+" s' => (false, s')
    | _ => (false, s)
    end in
  let '(base, s) :=
    match s with
    | String "0" (String x (String h s')) =>
        if (Ascii.eqb x "x" || Ascii.eqb x "X") && is_set (digit_in 16 h)
        then (16, String h s')
        else (8, s)
    | String "0" _ => (8, s)
    | _ => (10, s)
    end in
  let value := strtoul_digits base 0 s in
  if ULONG_MAX <? value then ULONG_MAX
  else if negative then (- value) mod (ULONG_MAX + 1)
  else value.

(** [strchr (s, c)] followed by the assignment of NUL to the character
    found: the string before it and the string after it. *)
Fixpoint strchr_split (s : string) (c : ascii) : option (string * string) :=
  match s with
  | EmptyString => None
  | String x s' =>
      if negb (nonzero x) then None
      else if Ascii.eqb x c then Some (EmptyString, s')
      else
        match strchr_split s' c with
        | Some (before, after) => Some (String x before, after)
        | None => None
        end
  end.

(** *** Writing a list *)

(** The copy of a key without the slash at its end, if it has one. *)
Fixpoint strip_slash (key : string) : string :=
  match key with
  | EmptyString => EmptyString
  | String c EmptyString => if Ascii.eqb c "/" then EmptyString else key
  | String c key' => String c (strip_slash key')
  end.

(** Whether a path is to be put under the offline root. *)
Definition unmatched_offline_root (conf : opkg_conf) (env : fs_env)
  (file_name : string) : bool :=
  match offline_root conf with
  | Some root => negb (str_starts_with env file_name root)
  | None => false
  end.

Definition under_offline_root (conf : opkg_conf) (unmatched : bool)
  (file_name : string) : string :=
  if unmatched then or_empty (offline_root conf) ++ file_name else file_name.

(** The line that [pkg_write_filelist_helper] prints for an entry of the
    hash table of file owners, when the owner is the package of the list;
    the newline that ends it is left to [pkg_write_filelist_lines]. *)
Definition pkg_write_filelist_helper (conf : opkg_conf) (env : fs_env)
  (key : string) (entry_ data_pkg : pkg_ptr) : option string :=
  if Nat.eqb entry_ data_pkg then
    let unmatched := unmatched_offline_root conf env key in
    let entry := strip_slash key in
    let installed_file_name := under_offline_root conf unmatched entry in
    let '(mode, link_target) :=
      match xlstat env installed_file_name with
      | Some st_mode =>
          (st_mode,
           if S_ISLNK st_mode
           then file_readlink_alloc env installed_file_name
           else None)
      | None => (0, None)
      end in
    match link_target with
    | Some target =>
        Some (entry
              ++ String tab (printf_o (to_uint mode) ++ String tab target))
    | None =>
        if negb (mode =? 0)
        then Some (entry ++ String tab (printf_o (to_uint mode)))
        else Some entry
    end
  else None.

(** [hash_table_foreach] with the helper: the lines of the list. *)
Fixpoint pkg_write_filelist_lines (conf : opkg_conf) (env : fs_env)
  (hash : list (string * pkg_ptr)) (data_pkg : pkg_ptr) : list string :=
  match hash with
  | [] => []
  | (key, entry_) :: hash' =>
      match pkg_write_filelist_helper conf env key entry_ data_pkg with
      | Some line =>
          line :: pkg_write_filelist_lines conf env hash' data_pkg
      | None => pkg_write_filelist_lines conf env hash' data_pkg
      end
  end.

(** The name of the list of a package in the info directory of its
    destination. *)
Definition list_file_name_of (d : pkg_dest_t) (pkg : pkg_t) : string :=
  info_dir d ++ "/" ++ printf_s (name pkg) ++ ".list".

(** [pkg->state_flag &= ~flag]. *)
Definition clear_flag (sf flag : Z) : Z := Z.land sf (Z.lnot flag).

Definition with_state_flag (p : pkg_t) (sf : Z) : pkg_t :=
  {| name := name p; epoch := epoch p; version := version p;
     revision := revision p; force_reinstall := force_reinstall p;
     src := src p; dest := dest p; architecture := architecture p;
     maintainer := maintainer p; section := section p;
     description := description p; tags := tags p;
     state_want := state_want p; state_flag := sf;
     state_status := state_status p; depends_count := depends_count p;
     depends := depends p; suggests_count := suggests_count p;
     recommends_count := recommends_count p; conflicts := conflicts p;
     conflicts_count := conflicts_count p; replaces := replaces p;
     replaces_count := replaces_count p;
     pre_depends_count := pre_depends_count p;
     provides_count := provides_count p; provides := provides p;
     filename := filename p; local_filename := local_filename p;
     tmp_unpack_dir := tmp_unpack_dir p; md5sum := md5sum p;
     sha256sum := sha256sum p; size := size p;
     installed_size := installed_size p; priority := priority p;
     source := source p; conffiles := conffiles p;
     installed_files := installed_files p;
     installed_files_ref_cnt := installed_files_ref_cnt p;
     installed_time := installed_time p; essential := essential p;
     auto_installed := auto_installed p; arch_priority := arch_priority p;
     provided_by_hand := provided_by_hand p; userfields := userfields p |}.

(** [pkg_write_filelist].  [SF_FILELIST_CHANGED] is declared in pkg.h, and
    is a parameter here.  A package without a destination makes the
    function read through a null pointer: there is no result. *)
Definition pkg_write_filelist (SF_FILELIST_CHANGED : Z) (conf : opkg_conf)
  (env : fs_env) (h : pkg_heap) (pkg : pkg_ptr)
  : option (pkg_heap * Z * list file_event) :=
  match dest (h pkg) with
  | None => None
  | Some d =>
      let list_file_name := list_file_name_of d (h pkg) in
      let trace :=
        [ FeMsg INFO ("Creating " ++ list_file_name ++ " file for pkg "
                      ++ printf_s (name (h pkg)) ++ ".");
          FeFopen list_file_name "w" (fopen_w env list_file_name) ] in
      if negb (fopen_w env list_file_name) then
        Some (h, -1,
              (trace ++ [FeMsg ERROR ("Failed to open " ++ list_file_name)])
              %list)
      else
        let lines := pkg_write_filelist_lines conf env (file_hash env) pkg in
        Some (store h pkg
                (with_state_flag (h pkg)
                   (clear_flag (state_flag (h pkg)) SF_FILELIST_CHANGED)),
              0,
              (trace
               ++ map (fun line => FeWrite list_file_name (line ++ newline))
                    lines
               ++ [FeFclose list_file_name])%list)
  end.

(** The loop of [pkg_write_changed_filelists] over the installed
    packages. *)
Fixpoint pkg_write_changed_filelists_loop (SF_FILELIST_CHANGED : Z)
  (conf : opkg_conf) (env : fs_env) (installed_pkgs : list pkg_ptr)
  (h : pkg_heap) (ret : Z) : option (pkg_heap * Z * list file_event) :=
  match installed_pkgs with
  | [] => Some (h, ret, [])
  | pkg :: installed_pkgs' =>
      if negb (Z.land (state_flag (h pkg)) SF_FILELIST_CHANGED =? 0) then
        match pkg_write_filelist SF_FILELIST_CHANGED conf env h pkg with
        | None => None
        | Some (h, err, trace) =>
            let ret := if negb (err =? 0) then -1 else ret in
            match pkg_write_changed_filelists_loop SF_FILELIST_CHANGED conf
                    env installed_pkgs' h ret with
            | None => None
            | Some (h, ret, trace') => Some (h, ret, (trace ++ trace')%list)
            end
        end
      else
        pkg_write_changed_filelists_loop SF_FILELIST_CHANGED conf env
          installed_pkgs' h ret
  end.

Definition pkg_write_changed_filelists (SF_FILELIST_CHANGED : Z)
  (conf : opkg_conf) (env : fs_env) (h : pkg_heap)
  : option (pkg_heap * Z * list file_event) :=
  if noaction conf then Some (h, 0, [])
  else
    match pkg_write_changed_filelists_loop SF_FILELIST_CHANGED conf env
            (pkg_hash_fetch_all_installed env) h 0 with
    | None => None
    | Some (h, ret, trace) =>
        Some (h, ret, (FeMsg INFO "Saving changed filelists." :: trace)%list)
    end.

(** *** Reading a list *)

(** What a package holds of its installed files: the list, once it has
    been read, and the number of those who hold it.  The record [pkg_t]
    above keeps of [installed_files] the paths alone; the functions that
    build and free the list are given the two fields in full. *)
Record installed_files_t : Set := mk_installed_files {
  files : option file_list_t;
  ref_cnt : Z
}.

(** The body of the loop of [pkg_get_installed_files], for one line of the
    list.  A list that comes from the package itself is put under the root
    of the destination; with no destination the function reads through a
    null pointer, and there is no result. *)
Definition installed_file_of_line `{LongAbi} (conf : opkg_conf)
  (env : fs_env) (pkg : pkg_t) (list_from_package : bool) (line : string)
  : option file_info_t :=
  let '(file_name, mode, link_target) :=
    match strchr_split line tab with
    | Some (file_name, mode_str) =>
        match strchr_split mode_str tab with
        | Some (mode_str, link_target) =>
            (file_name, to_uint (strtoul mode_str), Some link_target)
        | None => (file_name, to_uint (strtoul mode_str), None)
        end
    | None => (line, 0, None)
    end in
  if list_from_package then
    let file_name :=
      if Ascii.eqb (deref file_name) "." then next file_name
      else file_name in
    let file_name :=
      if Ascii.eqb (deref file_name) "/" then next file_name
      else file_name in
    match dest pkg with
    | None => None
    | Some d =>
        Some {| fi_path := root_dir d ++ file_name; fi_mode := mode;
                fi_link_target := link_target |}
    end
  else
    let unmatched := unmatched_offline_root conf env file_name in
    let installed_file_name := under_offline_root conf unmatched file_name in
    let mode :=
      if mode =? 0 then
        match xlstat env installed_file_name with
        | Some st_mode => st_mode
        | None => mode
        end
      else mode in
    let link_target :=
      match link_target with
      | Some target => Some target
      | None =>
          if S_ISLNK mode then file_readlink_alloc env installed_file_name
          else None
      end in
    Some {| fi_path := installed_file_name; fi_mode := mode;
            fi_link_target := link_target |}.

(** The loop over the lines that [file_read_line_alloc] returns. *)
Fixpoint installed_files_of_lines `{LongAbi} (conf : opkg_conf)
  (env : fs_env) (pkg : pkg_t) (list_from_package : bool)
  (lines : list string) : option file_list_t :=
  match lines with
  | [] => Some []
  | line :: lines' =>
      match installed_file_of_line conf env pkg list_from_package line with
      | None => None
      | Some info =>
          match installed_files_of_lines conf env pkg list_from_package
                  lines' with
          | None => None
          | Some list => Some (info :: list)
          end
      end
  end.

(** [pkg_get_installed_files]: the fields as the function leaves them, the
    pointer it returns and what it does to files.  [tmp_dir] is
    [opkg_config->tmp_dir]. *)
Definition pkg_get_installed_files `{LongAbi} (conf : opkg_conf)
  (tmp_dir : string) (env : fs_env) (pkg : pkg_t) (st : installed_files_t)
  : option (installed_files_t * option file_list_t * list file_event) :=
  let cnt := to_int (ref_cnt st + 1) in
  match files st with
  | Some list => Some ({| files := Some list; ref_cnt := cnt |}, Some list, [])
  | None =>
      let empty := {| files := Some []; ref_cnt := cnt |} in
      let list_from_package :=
        match state_status pkg, dest pkg with
        | SS_NOT_INSTALLED, _ | _, None => true
        | _, Some _ => false
        end in
      if list_from_package then
        match local_filename pkg with
        | None => Some (empty, Some [], [])
        | Some local =>
            let template :=
              tmp_dir ++ "/" ++ printf_s (name pkg) ++ ".list.XXXXXX" in
            match mkstemp env template with
            | None =>
                Some (empty, Some [],
                      [ FeMkstemp template None;
                        FeMsg ERROR ("Failed to make temp file " ++ template
                                     ++ ".") ])
            | Some list_file_name =>
                let trace :=
                  [ FeMkstemp template (Some list_file_name);
                    FeFdopen list_file_name (fdopen env list_file_name) ] in
                if negb (fdopen env list_file_name) then
                  Some (empty, Some [],
                        (trace
                         ++ [ FeMsg ERROR ("Failed to fdopen temp file "
                                           ++ list_file_name ++ ".");
                              FeClose list_file_name;
                              FeUnlink list_file_name ])%list)
                else
                  let '(err, lines) :=
                    pkg_extract_data_file_names_to_stream env pkg in
                  if negb (err =? 0) then
                    Some ({| files := None; ref_cnt := cnt |}, None,
                          (trace
                           ++ [ FeMsg ERROR
                                  ("Error extracting file list from "
                                   ++ local ++ ".");
                                FeFclose list_file_name;
                                FeUnlink list_file_name ])%list)
                  else
                    match installed_files_of_lines conf env pkg true lines
                    with
                    | None => None
                    | Some list =>
                        Some ({| files := Some list; ref_cnt := cnt |},
                              Some list,
                              (trace
                               ++ [ FeFclose list_file_name;
                                    FeUnlink list_file_name ])%list)
                    end
            end
        end
      else
        match dest pkg with
        | None => None
        | Some d =>
            let list_file_name := list_file_name_of d pkg in
            match fopen_r env list_file_name with
            | None =>
                Some (empty, Some [],
                      (FeFopen list_file_name "r" false
                       :: match state_status pkg with
                          | SS_HALF_INSTALLED => []
                          | _ =>
                              [FeMsg ERROR ("Failed to open "
                                            ++ list_file_name)]
                          end)%list)
            | Some lines =>
                match installed_files_of_lines conf env pkg false lines with
                | None => None
                | Some list =>
                    Some ({| files := Some list; ref_cnt := cnt |},
                          Some list,
                          [ FeFopen list_file_name "r" true;
                            FeFclose list_file_name ])
                end
            end
        end
  end.

(** [pkg_free_installed_files]: the list is given up by one holder, and
    freed when none is left. *)
Definition pkg_free_installed_files (st : installed_files_t)
  : installed_files_t :=
  let cnt := to_int (ref_cnt st - 1) in
  if cnt >? 0 then {| files := files st; ref_cnt := cnt |}
  else {| files := None; ref_cnt := cnt |}.


(** *** What a list says of a file *)






(** The files that a trace creates from a template, removes, opens as
    streams and closes. *)
Definition temp_files (trace : list file_event) : list string :=
  flat_map (fun ev => match ev with
                      | FeMkstemp _ (Some file) => [file]
                      | _ => []
                      end) trace.

Definition removed_files (trace : list file_event) : list string :=
  flat_map (fun ev => match ev with FeUnlink file => [file] | _ => [] end)
    trace.

Definition opened_streams (trace : list file_event) : list string :=
  flat_map (fun ev => match ev with
                      | FeFdopen file true | FeFopen file _ true => [file]
                      | _ => []
                      end) trace.

Definition closed_streams (trace : list file_event) : list string :=
  flat_map (fun ev => match ev with FeFclose file => [file] | _ => [] end)
    trace.

(** The descriptors that are closed without having become a stream. *)
Definition closed_descriptors (trace : list file_event) : list string :=
  flat_map (fun ev => match ev with FeClose file => [file] | _ => [] end)
    trace.

Definition failed_streams (trace : list file_event) : list string :=
  flat_map (fun ev => match ev with
                      | FeFdopen file false => [file]
                      | _ => []
                      end) trace.


(** The flag of a changed list is set in a package. *)
Definition filelist_changed (SF_FILELIST_CHANGED : Z) (p : pkg_t) : bool :=
  negb (Z.land (state_flag p) SF_FILELIST_CHANGED =? 0).

(** A record that differs from another at most in that the flag is
    cleared. *)
Definition flag_cleared_or_same (flag : Z) (p p' : pkg_t) : Prop :=
  p' = p \/ p' = with_state_flag p (clear_flag (state_flag p) flag).

(** Whether the list of a package cannot be opened for writing. *)
Definition list_fails (env : fs_env) (p : pkg_t) : bool :=
  match dest p with
  | Some d => negb (fopen_w env (list_file_name_of d p))
  | None => true
  end.

(** The list of a package has changed and cannot be written. *)
Definition still_changed (SF_FILELIST_CHANGED : Z) (env : fs_env)
  (p : pkg_t) : bool :=
  filelist_changed SF_FILELIST_CHANGED p && list_fails env p.

(** A trace that leaves nothing behind: the files removed are the
    temporary files made, the streams closed are the streams opened, and the
    descriptors closed are those that could not be opened as streams. *)
Definition tidy (trace : list file_event) : Prop :=
  temp_files trace = removed_files trace
  /\ opened_streams trace = closed_streams trace
  /\ failed_streams trace = closed_descriptors trace.

(** ** A record from a package file *)

(** [pkg_init].  The fields installed_time, auto_installed and
    arch_priority are not set by it, nor are the userfields unless
    verbose_status_file is on. *)
Definition pkg_init `{StateFlags} (conf : opkg_conf) (pkg : pkg_t) : pkg_t :=
  {| name := None; epoch := 0; version := None; revision := None;
     force_reinstall := 0; src := None; dest := None; architecture := None;
     maintainer := None; section := None; description := None; tags := None;
     state_want := SW_UNKNOWN; state_flag := SF_OK;
     state_status := SS_NOT_INSTALLED; depends_count := 0; depends := None;
     suggests_count := 0; recommends_count := 0; conflicts := None;
     conflicts_count := 0; replaces := None; replaces_count := 0;
     pre_depends_count := 0; provides_count := 0; provides := None;
     filename := None; local_filename := None; tmp_unpack_dir := None;
     md5sum := None; sha256sum := None; size := 0; installed_size := 0;
     priority := None; source := None; conffiles := [];
     installed_files := None; installed_files_ref_cnt := 0;
     installed_time := installed_time pkg; essential := 0;
     auto_installed := auto_installed pkg;
     arch_priority := arch_priority pkg; provided_by_hand := 0;
     userfields :=
       if verbose_status_file conf then [] else userfields pkg |}.

(** The memory that [xcalloc] returns: every pointer null, every number
    zero and every list empty; the wanted state and the status, which
    [pkg_init] sets, are written as it sets them. *)
Definition zeroed_pkg : pkg_t :=
  {| name := None; epoch := 0; version := None; revision := None;
     force_reinstall := 0; src := None; dest := None; architecture := None;
     maintainer := None; section := None; description := None; tags := None;
     state_want := SW_UNKNOWN; state_flag := 0;
     state_status := SS_NOT_INSTALLED; depends_count := 0; depends := None;
     suggests_count := 0; recommends_count := 0; conflicts := None;
     conflicts_count := 0; replaces := None; replaces_count := 0;
     pre_depends_count := 0; provides_count := 0; provides := None;
     filename := None; local_filename := None; tmp_unpack_dir := None;
     md5sum := None; sha256sum := None; size := 0; installed_size := 0;
     priority := None; source := None; conffiles := [];
     installed_files := None; installed_files_ref_cnt := 0;
     installed_time := 0; essential := 0; auto_installed := 0;
     arch_priority := 0; provided_by_hand := 0; userfields := [] |}.

Definition pkg_new `{StateFlags} (conf : opkg_conf) : pkg_t :=
  pkg_init conf zeroed_pkg.

Definition with_local_filename (p : pkg_t) (file : option string) : pkg_t :=
  {| name := name p; epoch := epoch p; version := version p;
     revision := revision p; force_reinstall := force_reinstall p;
     src := src p; dest := dest p; architecture := architecture p;
     maintainer := maintainer p; section := section p;
     description := description p; tags := tags p;
     state_want := state_want p; state_flag := state_flag p;
     state_status := state_status p; depends_count := depends_count p;
     depends := depends p; suggests_count := suggests_count p;
     recommends_count := recommends_count p; conflicts := conflicts p;
     conflicts_count := conflicts_count p; replaces := replaces p;
     replaces_count := replaces_count p;
     pre_depends_count := pre_depends_count p;
     provides_count := provides_count p; provides := provides p;
     filename := filename p; local_filename := file;
     tmp_unpack_dir := tmp_unpack_dir p; md5sum := md5sum p;
     sha256sum := sha256sum p; size := size p;
     installed_size := installed_size p; priority := priority p;
     source := source p; conffiles := conffiles p;
     installed_files := installed_files p;
     installed_files_ref_cnt := installed_files_ref_cnt p;
     installed_time := installed_time p; essential := essential p;
     auto_installed := auto_installed p; arch_priority := arch_priority p;
     provided_by_hand := provided_by_hand p; userfields := userfields p |}.

(** [pkg_init_from_file]: the record as the function leaves it, its
    result and what it does to files.  The control file is extracted into a
    temporary file and parsed from there. *)
Definition pkg_init_from_file `{StateFlags} (conf : opkg_conf)
  (tmp_dir : string) (env : fs_env) (pkg : pkg_t) (filename : string)
  : pkg_t * Z * list file_event :=
  let pkg := with_local_filename (pkg_init conf pkg) (Some filename) in
  let template :=
    tmp_dir ++ "/" ++ basename env filename ++ ".control.XXXXXX" in
  match mkstemp env template with
  | None =>
      (pkg, -1,
       [ FeMkstemp template None;
         FeMsg ERROR ("Failed to make temp file " ++ template) ])
  | Some control_path =>
      let trace :=
        [ FeMkstemp template (Some control_path);
          FeFdopen control_path (fdopen env control_path) ] in
      if negb (fdopen env control_path) then
        (pkg, -1,
         (trace ++ [ FeMsg ERROR ("Failed to fdopen " ++ control_path);
                     FeClose control_path;
                     FeUnlink control_path ])%list)
      else
        let '(err, lines) := pkg_extract_control_file_to_stream env pkg in
        if negb (err =? 0) then
          (pkg, err,
           (trace ++ [ FeMsg ERROR ("Failed to extract control file from "
                                    ++ filename ++ ".");
                       FeFclose control_path;
                       FeUnlink control_path ])%list)
        else
          let '(err, pkg) := pkg_parse_from_stream env pkg lines in
          if negb (err =? 0) then
            (pkg, -1,
             (trace
              ++ (if err =? 1
                  then [FeMsg ERROR ("Malformed package file " ++ filename
                                     ++ ".")]
                  else [])
              ++ [FeFclose control_path; FeUnlink control_path])%list)
          else
            (pkg, 0,
             (trace ++ [FeFclose control_path; FeUnlink control_path])%list)
  end.

(** ** Printing a record

    [pkg_formatted_field] finds the field that a name stands for, in a
    switch over the first letter followed by comparisons that take no
    notice of case, and prints it.  The two steps are kept apart here:
    [lookup_field] is the switch, [format_field] what is printed for a
    field. *)

(** What is written to the stream and what is logged; nothing when the
    function reads past an array or through a null pointer. *)
Definition output : Type := option (string * list event).

Definition nothing : output := Some (EmptyString, []).

Definition print (text : string) : output := Some (text, []).

(** One call after the other. *)
Fixpoint print_all (calls : list output) : output :=
  match calls with
  | [] => nothing
  | call :: calls' =>
      match call, print_all calls' with
      | Some (text, trace), Some (text', trace') =>
          Some (text ++ text', (trace ++ trace')%list)
      | _, _ => None
      end
  end.

(** What pkg.c takes from pkg.h, from the configuration, from
    pkg_depends.c and from xfuncs.c when it prints: the least length of a
    field name, whether descriptions are cut after their first line, the
    text of a dependency of a package, the text of a kind of constraint and
    the copy of a string. *)
Record fmt_env : Type := mk_fmt_env {
  PKG_MINIMUM_FIELD_NAME_LEN : nat;
  short_description : bool;
  pkg_depend_str : pkg_t -> nat -> string;
  constraint_to_str : version_constraint -> string;
  xstrdup : option string -> option string
}.

(** <ctype.h> and <strings.h> in the C locale. *)
Definition tolower (c : ascii) : ascii :=
  if (65 <=? char_code c) && (char_code c <=? 90)
  then ascii_of_N (N_of_ascii c + 32)
  else c.

Fixpoint strcasecmp (s1 s2 : string) {struct s1} : Z :=
  let c1 := char_code (tolower (deref s1)) in
  let c2 := char_code (tolower (deref s2)) in
  if negb (c1 =? c2) then c1 - c2
  else
    match s1 with
    | EmptyString => 0
    | String _ s1' => if c1 =? 0 then 0 else strcasecmp s1' (next s2)
    end.

(** Whether [needle] stands at the front of [s]. *)
Fixpoint starts_with (s needle : string) {struct needle} : bool :=
  match needle with
  | EmptyString => true
  | String n needle' =>
      if nonzero n then
        match s with
        | String c s' => Ascii.eqb c n && starts_with s' needle'
        | EmptyString => false
        end
      else true
  end.

(** Whether [strstr (haystack, needle)] finds the needle. *)
Fixpoint strstr (haystack needle : string) : bool :=
  starts_with haystack needle
  || match haystack with
     | String c haystack' => nonzero c && strstr haystack' needle
     | EmptyString => false
     end.

Definition should_include_field (field fields_filter : option string)
  : bool :=
  match field with
  | None => false
  | Some field =>
      match fields_filter with
      | None => true
      | Some filter => strstr filter field
      end
  end.

(** The decimal digits of a number that is not negative, the last one
    first put in front of [acc]. *)
Fixpoint decimal_digits (fuel : nat) (v : Z) (acc : string) : string :=
  match fuel with
  | O => acc
  | S fuel' =>
      let acc := String (ascii_of_N (Z.to_N (48 + v mod 10))) acc in
      if v / 10 =? 0 then acc else decimal_digits fuel' (v / 10) acc
  end.

(** What printf writes for [%d], [%ld] and [%lu]. *)
Definition printf_d (v : Z) : string :=
  if v <? 0
  then String "-" (decimal_digits (S (Z.to_nat (Z.log2 (- v)))) (- v) "")
  else decimal_digits (S (Z.to_nat (Z.log2 v))) v "".

(** [pkg_version_str_alloc]; the epoch is tested in full and printed
    with [%d], as an [int]. *)
Definition pkg_version_str_alloc (fenv : fmt_env) (pkg : pkg_t)
  : option string :=
  if negb (epoch pkg =? 0) then
    match revision pkg with
    | Some r =>
        Some (printf_d (to_int (epoch pkg)) ++ ":" ++ printf_s (version pkg)
              ++ "-" ++ r)
    | None =>
        Some (printf_d (to_int (epoch pkg)) ++ ":" ++ printf_s (version pkg))
    end
  else
    match revision pkg with
    | Some r => Some (printf_s (version pkg) ++ "-" ++ r)
    | None => xstrdup fenv (version pkg)
    end.

(** The fields that [pkg_formatted_field] knows. *)
Inductive field_id : Set :=
| FArchitecture | FAutoInstalled | FConffiles | FConflicts | FDepends
| FDescription | FEssential | FFilename | FInstalledSize | FInstalledTime
| FMaintainer | FMD5sum | FPackage | FPriority | FProvides | FReplaces
| FRecommends | FSection | FSHA256sum | FSize | FSource | FStatus
| FSuggests | FTags | FVersion.

(** The name of a field in the comparisons of the switch. *)
Definition field_name (id : field_id) : string :=
  match id with
  | FArchitecture => "Architecture" | FAutoInstalled => "Auto-Installed"
  | FConffiles => "Conffiles" | FConflicts => "Conflicts"
  | FDepends => "Depends" | FDescription => "Description"
  | FEssential => "Essential" | FFilename => "Filename"
  | FInstalledSize => "Installed-Size" | FInstalledTime => "Installed-Time"
  | FMaintainer => "Maintainer" | FMD5sum => "MD5sum"
  | FPackage => "Package" | FPriority => "Priority"
  | FProvides => "Provides" | FReplaces => "Replaces"
  | FRecommends => "Recommends" | FSection => "Section"
  | FSHA256sum => "SHA256sum" | FSize => "Size" | FSource => "Source"
  | FStatus => "Status" | FSuggests => "Suggests" | FTags => "Tags"
  | FVersion => "Version"
  end.

(** Two labels of the switch for one letter. *)
Definition case_of (c lower upper : ascii) : bool :=
  Ascii.eqb c lower || Ascii.eqb c upper.

(** The switch over [field[0]] and the comparisons in each of its cases;
    [None] is the label UNKNOWN_FMT_FIELD. *)
Definition lookup_field (field : string) : option field_id :=
  let names id := strcasecmp field (field_name id) =? 0 in
  let c := deref field in
  if case_of c "a" "A" then
    if names FArchitecture then Some FArchitecture
    else if names FAutoInstalled then Some FAutoInstalled
    else None
  else if case_of c "c" "C" then
    if names FConffiles then Some FConffiles
    else if names FConflicts then Some FConflicts
    else None
  else if case_of c "d" "D" then
    if names FDepends then Some FDepends
    else if names FDescription then Some FDescription
    else None
  else if case_of c "e" "E" then
    if names FEssential then Some FEssential else None
  else if case_of c "f" "F" then
    if names FFilename then Some FFilename else None
  else if case_of c "i" "I" then
    if names FInstalledSize then Some FInstalledSize
    else if names FInstalledTime then Some FInstalledTime
    else None
  else if case_of c "m" "M" then
    if names FMaintainer then Some FMaintainer
    else if names FMD5sum then Some FMD5sum
    else None
  else if case_of c "p" "P" then
    if names FPackage then Some FPackage
    else if names FPriority then Some FPriority
    else if names FProvides then Some FProvides
    else None
  else if case_of c "r" "R" then
    if names FReplaces then Some FReplaces
    else if names FRecommends then Some FRecommends
    else None
  else if case_of c "s" "S" then
    if names FSection then Some FSection
    else if names FSHA256sum then Some FSHA256sum
    else if names FSize then Some FSize
    else if names FSource then Some FSource
    else if names FStatus then Some FStatus
    else if names FSuggests then Some FSuggests
    else None
  else if case_of c "t" "T" then
    if names FTags then Some FTags else None
  else if case_of c "v" "V" then
    if names FVersion then Some FVersion else None
  else None.

(** *** What is printed for a field *)

Definition depend_type_eqb (a b : depend_type) : bool :=
  match a, b with
  | PREDEPEND, PREDEPEND | DEPEND, DEPEND | CONFLICTS, CONFLICTS
  | GREEDY_DEPEND, GREEDY_DEPEND | RECOMMEND, RECOMMEND | SUGGEST, SUGGEST
  | REPLACES, REPLACES => true
  | _, _ => false
  end.

(** [array[i]]: there is no entry behind a null pointer, and none past
    the end of the array. *)
Definition at_index {A : Type} (array : option (list A)) (i : nat) : option A :=
  match array with
  | Some entries => nth_error entries i
  | None => None
  end.

(** The local variable [depends_count] of [pkg_formatted_field], the sum
    of the four counts in an [unsigned int]. *)
Definition all_depends_count (pkg : pkg_t) : nat :=
  N.to_nat ((pre_depends_count pkg + depends_count pkg
             + recommends_count pkg + suggests_count pkg) mod 2 ^ 32).

(** The loop over the flat array of dependencies for one type of
    dependency: [i] is the index, [j] counts what has been printed, [n] is
    what is left of [depends_count]. *)
Fixpoint depends_loop (fenv : fmt_env) (pkg : pkg_t) (wanted : depend_type)
  (i j n : nat) : option string :=
  match n with
  | O => Some EmptyString
  | S n' =>
      match at_index (depends pkg) i with
      | None => None
      | Some entry =>
          if negb (depend_type_eqb (type entry) wanted) then
            depends_loop fenv pkg wanted (S i) j n'
          else
            match depends_loop fenv pkg wanted (S i) (S j) n' with
            | Some rest =>
                Some ((if Nat.eqb j 0 then "" else ",") ++ " "
                      ++ pkg_depend_str fenv pkg i ++ rest)
            | None => None
            end
      end
  end.

(** The field of one of the three types of dependency that are kept in the
    flat array; [count] is the count of the type. *)
Definition format_depends (fenv : fmt_env) (pkg : pkg_t) (label : string)
  (wanted : depend_type) (count : N) : output :=
  if negb (count =? 0)%N then
    match depends_loop fenv pkg wanted 0 0 (all_depends_count pkg) with
    | Some items => print (label ++ ":" ++ items ++ newline)
    | None => None
    end
  else nothing.

(** What is printed for a possibility: the name of its package, and its
    version when it has one. *)
Definition possibility_text (fenv : fmt_env) (cdep : depend_t) : string :=
  dep_pkg cdep
  ++ match dep_version cdep with
     | Some v => " (" ++ constraint_to_str fenv (constraint cdep) ++ v ++ ")"
     | None => ""
     end.

(** The loop over the conflicts, and over the replaces: the first
    possibility of each entry. *)
Fixpoint possibilities_loop (fenv : fmt_env)
  (array : option (list compound_depend_t)) (i n : nat) : option string :=
  match n with
  | O => Some EmptyString
  | S n' =>
      match at_index array i with
      | Some {| possibilities := cdep :: _ |} =>
          match possibilities_loop fenv array (S i) n' with
          | Some rest =>
              Some ((if Nat.eqb i 0 then "" else ",") ++ " "
                    ++ possibility_text fenv cdep ++ rest)
          | None => None
          end
      | _ => None
      end
  end.

Definition format_possibilities (fenv : fmt_env) (label : string)
  (array : option (list compound_depend_t)) (count : N) : output :=
  if negb (count =? 0)%N then
    match possibilities_loop fenv array 0 (N.to_nat count) with
    | Some items => print (label ++ ":" ++ items ++ newline)
    | None => None
    end
  else nothing.

(** The loop over what a package provides besides itself. *)
Fixpoint provides_loop (array : option (list string)) (i n : nat)
  : option string :=
  match n with
  | O => Some EmptyString
  | S n' =>
      match at_index array i with
      | Some provided =>
          match provides_loop array (S i) n' with
          | Some rest =>
              Some ((if Nat.eqb i 1 then "" else ",") ++ " " ++ provided
                    ++ rest)
          | None => None
          end
      | None => None
      end
  end.

(** The lines of the configuration files; an [nv_pair_list] of the model
    holds no null name and no null value, so that every entry is
    printed. *)
Fixpoint conffiles_lines (pairs : nv_pair_list) : string :=
  match pairs with
  | [] => EmptyString
  | (cf_name, cf_value) :: pairs' =>
      " " ++ cf_name ++ " " ++ cf_value ++ newline
      ++ conffiles_lines pairs'
  end.

(** The text of a field with a string for its value, printed when there
    is one. *)
Definition format_string (label : string) (value : option string) : output :=
  match value with
  | Some text => print (label ++ ": " ++ text ++ newline)
  | None => nothing
  end.

(** What each case of the switch prints.  [installed_time] is an
    [unsigned long], a number that is not negative. *)
Definition format_field `{StateFlags} (fenv : fmt_env) (pkg : pkg_t)
  (id : field_id) : output :=
  match id with
  | FArchitecture => format_string "Architecture" (architecture pkg)
  | FAutoInstalled =>
      if negb (auto_installed pkg =? 0)
      then print ("Auto-Installed: yes" ++ newline)
      else nothing
  | FConffiles =>
      match conffiles pkg with
      | [] => nothing
      | _ :: _ =>
          print ("Conffiles:" ++ newline ++ conffiles_lines (conffiles pkg))
      end
  | FConflicts =>
      format_possibilities fenv "Conflicts" (conflicts pkg)
        (conflicts_count pkg)
  | FDepends => format_depends fenv pkg "Depends" DEPEND (depends_count pkg)
  | FDescription =>
      match description pkg with
      | Some text =>
          match short_description fenv, strchr_split text "010" with
          | true, Some (first_line, _) =>
              print ("Description: " ++ first_line ++ newline)
          | _, _ => print ("Description: " ++ text ++ newline)
          end
      | None => nothing
      end
  | FEssential =>
      if negb (essential pkg =? 0) then print ("Essential: yes" ++ newline)
      else nothing
  | FFilename => format_string "Filename" (filename pkg)
  | FInstalledSize =>
      if negb (installed_size pkg =? 0)
      then print ("Installed-Size: " ++ printf_d (installed_size pkg)
                  ++ newline)
      else nothing
  | FInstalledTime =>
      if negb (installed_time pkg =? 0)
      then print ("Installed-Time: " ++ printf_d (installed_time pkg)
                  ++ newline)
      else nothing
  | FMaintainer => format_string "Maintainer" (maintainer pkg)
  | FMD5sum => format_string "MD5Sum" (md5sum pkg)
  | FPackage => print ("Package: " ++ printf_s (name pkg) ++ newline)
  | FPriority => print ("Priority: " ++ printf_s (priority pkg) ++ newline)
  | FProvides =>
      if (1 <? provides_count pkg)%N then
        match provides_loop (provides pkg) 1
                (N.to_nat (provides_count pkg) - 1) with
        | Some items => print ("Provides:" ++ items ++ newline)
        | None => None
        end
      else nothing
  | FReplaces =>
      format_possibilities fenv "Replaces" (replaces pkg)
        (replaces_count pkg)
  | FRecommends =>
      format_depends fenv pkg "Recommends" RECOMMEND (recommends_count pkg)
  | FSection => format_string "Section" (section pkg)
  | FSHA256sum => format_string "SHA256sum" (sha256sum pkg)
  | FSize =>
      if negb (size pkg =? 0)
      then print ("Size: " ++ printf_d (size pkg) ++ newline)
      else nothing
  | FSource => format_string "Source" (source pkg)
  | FStatus =>
      match pkg_formatted_field_Status pkg with
      | Some text => print text
      | None => None
      end
  | FSuggests =>
      format_depends fenv pkg "Suggests" SUGGEST (suggests_count pkg)
  | FTags => format_string "Tags" (tags pkg)
  | FVersion => format_string "Version" (pkg_version_str_alloc fenv pkg)
  end.

Definition pkg_formatted_field `{StateFlags} (fenv : fmt_env) (pkg : pkg_t)
  (field fields_filter : option string) : output :=
  if negb (should_include_field field fields_filter) then nothing
  else
    let field := or_empty field in
    let unknown_fmt_field : output :=
      Some (EmptyString, [EvMsg ERROR ("Internal error: field=" ++ field)]) in
    if (strlen field <? PKG_MINIMUM_FIELD_NAME_LEN fenv)%nat
    then unknown_fmt_field
    else
      match lookup_field field with
      | Some id => format_field fenv pkg id
      | None => unknown_fmt_field
      end.

Fixpoint userfields_lines (pairs : nv_pair_list)
  (fields_filter : option string) : string :=
  match pairs with
  | [] => EmptyString
  | (uf_name, uf_value) :: pairs' =>
      (if should_include_field (Some uf_name) fields_filter
       then uf_name ++ ": " ++ uf_value ++ newline
       else "")
      ++ userfields_lines pairs' fields_filter
  end.

Definition pkg_formatted_userfields (pkg : pkg_t)
  (fields_filter : option string) : output :=
  print (userfields_lines (userfields pkg) fields_filter).

Definition pkg_formatted_info `{StateFlags} (conf : opkg_conf)
  (fenv : fmt_env) (pkg : pkg_t) (fields_filter : option string) : output :=
  let field text := pkg_formatted_field fenv pkg (Some text) fields_filter in
  print_all
    [ pkg_formatted_field fenv pkg (Some "Package") None;
      field "Version"; field "Depends"; field "Recommends";
      field "Suggests"; field "Provides"; field "Replaces";
      field "Conflicts"; field "Status"; field "Section";
      field "Essential"; field "Architecture"; field "Maintainer";
      field "MD5sum"; field "Size"; field "Filename"; field "Conffiles";
      field "Source"; field "Description"; field "Installed-Size";
      field "Installed-Time"; field "Tags";
      if verbose_status_file conf
      then pkg_formatted_userfields pkg fields_filter
      else nothing;
      print newline ].

(** The local variable [is_installed] of [pkg_print_status]. *)
Definition is_installed (pkg : pkg_t) : bool :=
  match state_status pkg with
  | SS_INSTALLED | SS_UNPACKED | SS_HALF_INSTALLED => true
  | _ => false
  end.

Definition pkg_print_status `{StateFlags} (conf : opkg_conf)
  (fenv : fmt_env) (pkg : option pkg_t) : output :=
  match pkg with
  | None => nothing
  | Some pkg =>
      let field text := pkg_formatted_field fenv pkg (Some text) None in
      let verbose text :=
        if verbose_status_file conf then field text else nothing in
      let installed text :=
        if is_installed pkg then field text else nothing in
      print_all
        [ field "Package"; field "Version"; field "Depends";
          field "Recommends"; field "Suggests"; field "Provides";
          field "Replaces"; field "Conflicts"; field "Status";
          verbose "Section"; field "Essential"; field "Architecture";
          verbose "Maintainer"; verbose "MD5sum"; verbose "Size";
          verbose "Filename"; field "Conffiles"; verbose "Source";
          verbose "Description"; installed "Installed-Size";
          installed "Installed-Time"; installed "Auto-Installed";
          if verbose_status_file conf
          then pkg_formatted_userfields pkg None
          else nothing;
          print newline ]
  end.

(** *** What the theorems on printing speak of *)

(** A string in small letters, up to its terminator. *)
Fixpoint lower (s : string) : string :=
  match s with
  | String c s' =>
      if nonzero c then String (tolower c) (lower s') else EmptyString
  | EmptyString => EmptyString
  end.

(** What is logged at the label UNKNOWN_FMT_FIELD. *)
Definition unknown_field (field : string) : output :=
  Some (EmptyString, [EvMsg ERROR ("Internal error: field=" ++ field)]).

(** The items of a field, a space before each and a comma between two. *)
Definition comma_list (items : list string) : string :=
  String.concat "," (map (append " ") items).

(** The indices below [n] of the entries of one type. *)
Definition indices_of (wanted : depend_type)
  (array : option (list compound_depend_t)) (n : nat) : list nat :=
  filter
    (fun i =>
       match at_index array i with
       | Some entry => depend_type_eqb (type entry) wanted
       | None => false
       end)
    (seq 0 n).

(** The text is empty or ends at the end of a line. *)
Fixpoint ends_line (s : string) : bool :=
  match s with
  | EmptyString => true
  | String c EmptyString => Ascii.eqb c "010"
  | String _ s' => ends_line s'
  end.

(** The call returns, logs nothing and leaves no line open. *)
Definition lines_only (call : output) : Prop :=
  exists text : string, call = Some (text, []) /\ ends_line text = true.

(** An array holds as many entries as its count says. *)
Definition holds {A : Type} (array : option (list A)) (count : nat) : bool :=
  (count =? 0)%nat
  || match array with
     | Some entries => (count <=? List.length entries)%nat
     | None => false
     end.

(** Each of the first [count] entries has a first possibility. *)
Definition first_possibilities (array : option (list compound_depend_t))
  (count : nat) : bool :=
  match array with
  | Some entries =>
      forallb (fun entry => negb (List.length (possibilities entry) =? 0)%nat)
        (firstn count entries)
  | None => true
  end.

Definition arrays_hold (pkg : pkg_t) : bool :=
  holds (depends pkg) (all_depends_count pkg)
  && holds (conflicts pkg) (N.to_nat (conflicts_count pkg))
  && first_possibilities (conflicts pkg) (N.to_nat (conflicts_count pkg))
  && holds (replaces pkg) (N.to_nat (replaces_count pkg))
  && first_possibilities (replaces pkg) (N.to_nat (replaces_count pkg))
  && holds (provides pkg) (N.to_nat (provides_count pkg)).

(** The fields that [pkg_print_status] prints only for a verbose status
    file, and those that it never prints: two packages that differ in
    these at most. *)
Definition same_but_verbose_fields (p q : pkg_t) : Prop :=
  name p = name q /\ epoch p = epoch q /\ version p = version q
  /\ revision p = revision q /\ architecture p = architecture q
  /\ state_want p = state_want q /\ state_flag p = state_flag q
  /\ state_status p = state_status q
  /\ depends_count p = depends_count q /\ depends p = depends q
  /\ suggests_count p = suggests_count q
  /\ recommends_count p = recommends_count q
  /\ pre_depends_count p = pre_depends_count q
  /\ conflicts p = conflicts q /\ conflicts_count p = conflicts_count q
  /\ replaces p = replaces q /\ replaces_count p = replaces_count q
  /\ provides_count p = provides_count q /\ provides p = provides q
  /\ conffiles p = conffiles q /\ installed_size p = installed_size q
  /\ installed_time p = installed_time q /\ essential p = essential q
  /\ auto_installed p = auto_installed q.

Definition field_id_eq_dec (a b : field_id) : {a = b} + {a <> b}.
Proof. decide equality. Defined.

(** ** Concrete packages and platforms *)

(** The values of pkg.h in the upstream sources of opkg. *)
#[local] Instance upstream_flags : StateFlags :=
  {| SF_OK := 0; SF_REINSTREQ := 1; SF_HOLD := 2; SF_REPLACE := 4;
     SF_NOPRUNE := 8; SF_PREFER := 16; SF_OBSOLETE := 32; SF_USER := 256;
     SF_NONVOLATILE_FLAGS := 314 |}.

#[local] Instance signed_char : CharAbi := {| char_is_signed := true |}.

(** A package as [pkg_init] leaves it, with the fields that the examples
    need filled in. *)
Definition sample_pkg (e : Z) (v r : option string) (f : Z)
  (sample_tags md5 sha256 file : option string) (bytes : Z) (flags : Z)
  (status : pkg_state_status_t) (unpack_dir : option string) : pkg_t :=
  {| name := Some "a"; epoch := e; version := v; revision := r;
     force_reinstall := f; src := None; dest := None; architecture := None;
     maintainer := None; section := None; description := None;
     tags := sample_tags; state_want := SW_UNKNOWN; state_flag := flags;
     state_status := status; depends_count := 0; depends := None;
     suggests_count := 0; recommends_count := 0; conflicts := None;
     conflicts_count := 0; replaces := None; replaces_count := 0;
     pre_depends_count := 0; provides_count := 0; provides := None;
     filename := None; local_filename := file;
     tmp_unpack_dir := unpack_dir; md5sum := md5; sha256sum := sha256;
     size := bytes; installed_size := 0; priority := None; source := None;
     conffiles := []; installed_files := None;
     installed_files_ref_cnt := 0; installed_time := 0; essential := 0;
     auto_installed := 0; arch_priority := 0; provided_by_hand := 0;
     userfields := [] |}.

(** A package of which only the version is known. *)
Definition versioned (e : Z) (v r : option string) (f : Z) : pkg_t :=
  sample_pkg e v r f None None None None 0 0 SS_NOT_INSTALLED None.

Definition sample_dest : pkg_dest_t :=
  {| dest_name := "root"; root_dir := "/"; info_dir := "/usr/lib/opkg/info" |}.

Definition sample_conf (force_sum check_sig verbose : bool) : opkg_conf :=
  {| noaction := false; offline_root := None; force_postinstall := false;
     force_checksum := force_sum; check_pkg_signature := check_sig;
     verbose_status_file := verbose; default_dest := sample_dest |}.

(** A world with one file of [bytes] bytes at [path], in which MD5 sums
    match, SHA-256 sums do not, no signature can be fetched and no script
    exists. *)
Definition sample_env (path : string) (bytes : Z) : os_env :=
  {| file_exists := fun _ => false;
     xsystem := fun _ => 0;
     stat := fun p =>
       match p with
       | Some q => if String.eqb q path then StatOk bytes else StatENOENT
       | None => StatError
       end;
     opkg_verify_sha256sum := fun _ _ => 1;
     opkg_verify_md5sum := fun _ _ => 0;
     pkg_download_signature := fun _ => None;
     opkg_verify_signature := fun _ _ => -1 |}.

(** The two records of the merge examples: what the status file knows of a
    package, and what a feed says of it. *)
Definition status_record : pkg_t :=
  sample_pkg 0 (Some "1.0") (Some "1") 0 None None None None 0 2 SS_INSTALLED
    None.

Definition feed_record : pkg_t :=
  sample_pkg 0 (Some "1.0") (Some "1") 0 (Some "net") (Some "0f343b09")
    None None 1024 0 SS_NOT_INSTALLED None.

Definition sample_heap : pkg_heap :=
  fun p => if Nat.eqb p 0 then status_record else feed_record.

Definition cached_file : string := "/var/cache/opkg/a_1.0-1_all.ipk".

(** A package whose 1024 bytes are in the cache. *)
Definition downloaded (md5 sha256 : option string) (bytes : Z) : pkg_t :=
  sample_pkg 0 (Some "1.0") (Some "1") 0 None md5 sha256 (Some cached_file)
    bytes 0 SS_NOT_INSTALLED None.

(** A package of a feed, built for an architecture of the given priority,
    with one conffile. *)
Definition built (text : string) (v : option string) (arch : string)
  (prio : N) : pkg_t :=
  {| name := Some text; epoch := 0; version := v; revision := Some "1";
     force_reinstall := 0; src := None; dest := None;
     architecture := Some arch; maintainer := None; section := None;
     description := None; tags := None; state_want := SW_UNKNOWN;
     state_flag := 0; state_status := SS_NOT_INSTALLED; depends_count := 0;
     depends := None; suggests_count := 0; recommends_count := 0;
     conflicts := None; conflicts_count := 0; replaces := None;
     replaces_count := 0; pre_depends_count := 0; provides_count := 0;
     provides := None; filename := None; local_filename := None;
     tmp_unpack_dir := None; md5sum := None; sha256sum := None; size := 0;
     installed_size := 0; priority := None; source := None;
     conffiles := [("/etc/" ++ text ++ ".conf", "0f343b09")];
     installed_files := None; installed_files_ref_cnt := 0;
     installed_time := 0; essential := 0; auto_installed := 0;
     arch_priority := prio; provided_by_hand := 0; userfields := [] |}.

(** An abstract package of which only the name is known. *)
Definition named (text : string) : abstract_pkg_t :=
  {| ab_name := Some text; dependencies_checked := 0;
     ab_state_status := SS_NOT_INSTALLED |}.

(** What the status file knows of the package a, and what a feed says of
    it. *)
Definition feed_heap : pkg_heap :=
  fun p => if Nat.eqb p 0 then status_record
           else built "a" (Some "1.0") "all" 1.

(** An [unsigned long] of 64 bits. *)
#[local] Instance long64 : LongAbi := {| ULONG_MAX := 2 ^ 64 - 1 |}.

(** A package that is installed at the root, with the given flags. *)
Definition installed_pkg (text : string) (flags : Z) : pkg_t :=
  {| name := Some text; epoch := 0; version := Some "1.0";
     revision := Some "1"; force_reinstall := 0; src := None;
     dest := Some sample_dest; architecture := Some "all";
     maintainer := None; section := None; description := None; tags := None;
     state_want := SW_INSTALL; state_flag := flags;
     state_status := SS_INSTALLED; depends_count := 0; depends := None;
     suggests_count := 0; recommends_count := 0; conflicts := None;
     conflicts_count := 0; replaces := None; replaces_count := 0;
     pre_depends_count := 0; provides_count := 0; provides := None;
     filename := None; local_filename := None; tmp_unpack_dir := None;
     md5sum := None; sha256sum := None; size := 0; installed_size := 0;
     priority := None; source := None; conffiles := [];
     installed_files := None; installed_files_ref_cnt := 0;
     installed_time := 0; essential := 0; auto_installed := 0;
     arch_priority := 1; provided_by_hand := 0; userfields := [] |}.

(** The packages a and b, the lists of both marked as changed (128 is the
    value of [SF_FILELIST_CHANGED] in the upstream pkg.h). *)
Definition installed_heap : pkg_heap :=
  fun p => if Nat.eqb p 0 then installed_pkg "a" 128
           else installed_pkg "b" 128.

(** A file system with a configuration file, a program, a link to a
    library and a directory of the package a, in which the list of a can be
    written and holds the four lines of these files, and the list of b
    cannot be written. *)
Definition sample_fs : fs_env :=
  {| basename := fun file => file;
     str_starts_with := fun s start => String.prefix start s;
     xlstat := fun file =>
       if String.eqb file "/etc/a.conf" then Some 33188
       else if String.eqb file "/usr/bin/a" then Some 33261
       else if String.eqb file "/usr/lib/liba.so" then Some 41471
       else None;
     file_readlink_alloc := fun file =>
       if String.eqb file "/usr/lib/liba.so" then Some "liba.so.1" else None;
     fopen_r := fun file =>
       if String.eqb file "/usr/lib/opkg/info/a.list" then
         Some [ "/etc/a.conf" ++ String tab "0100644";
                "/usr/bin/a" ++ String tab "0100755";
                "/usr/lib/liba.so" ++ String tab "0120777"
                ++ String tab "liba.so.1";
                "/usr/share/a" ]
       else None;
     fopen_w := fun file => String.eqb file "/usr/lib/opkg/info/a.list";
     mkstemp := fun _ => None;
     fdopen := fun _ => false;
     pkg_extract_data_file_names_to_stream := fun _ => (0, []);
     pkg_extract_control_file_to_stream := fun _ => (0, []);
     pkg_parse_from_stream := fun p _ => (0, p);
     pkg_hash_fetch_all_installed := [0%nat; 1%nat];
     file_hash :=
       [ ("/etc/a.conf", 0%nat); ("/bin/sh", 1%nat); ("/usr/bin/a", 0%nat);
         ("/usr/lib/liba.so", 0%nat); ("/usr/share/a/", 0%nat) ] |}.

(** What pkg.h, pkg_depends.c and xfuncs.c give in the upstream sources:
    names of four characters at least, a dependency printed as the name of
    its first possibility, the signs of the constraints, and a copy that
    is the string. *)
Definition sample_fmt : fmt_env :=
  {| PKG_MINIMUM_FIELD_NAME_LEN := 4;
     short_description := true;
     pkg_depend_str := fun pkg i =>
       match at_index (depends pkg) i with
       | Some {| possibilities := dep :: _ |} => dep_pkg dep
       | _ => ""
       end;
     constraint_to_str := fun c =>
       match c with
       | NONE => ""
       | EARLIER => "<< "
       | EARLIER_EQUAL => "<= "
       | EQUAL => "= "
       | LATER_EQUAL => ">= "
       | LATER => ">> "
       end;
     xstrdup := fun s => s |}.

(** An installed editor that depends on libc and on ncurses, needs dpkg
    before it is unpacked, recommends a dictionary, conflicts with old
    versions of another editor and provides an editor. *)
Definition editor_pkg (who : option string) (bytes : Z) : pkg_t :=
  {| name := Some "ed"; epoch := 1; version := Some "1.0";
     revision := Some "2"; force_reinstall := 0; src := None;
     dest := Some sample_dest; architecture := Some "all";
     maintainer := who; section := None; description := None; tags := None;
     state_want := SW_INSTALL; state_flag := 2;
     state_status := SS_INSTALLED; depends_count := 2;
     depends :=
       Some [ mk_compound_depend PREDEPEND [mk_depend NONE None "dpkg"];
              mk_compound_depend DEPEND [mk_depend NONE None "libc"];
              mk_compound_depend RECOMMEND [mk_depend NONE None "words"];
              mk_compound_depend DEPEND [mk_depend NONE None "ncurses"] ];
     suggests_count := 0; recommends_count := 1;
     conflicts :=
       Some [ mk_compound_depend CONFLICTS
                [mk_depend EARLIER (Some "2.0") "vi"] ];
     conflicts_count := 1; replaces := None; replaces_count := 0;
     pre_depends_count := 1; provides_count := 2;
     provides := Some ["ed"; "editor"];
     filename := None; local_filename := None; tmp_unpack_dir := None;
     md5sum := None; sha256sum := None; size := bytes; installed_size := 4096;
     priority := None; source := None;
     conffiles := [("/etc/ed.conf", "0f343b09")];
     installed_files := None; installed_files_ref_cnt := 0;
     installed_time := 0; essential := 0; auto_installed := 0;
     arch_priority := 1; provided_by_hand := 0;
     userfields := [("License", "GPL")] |}.

(** * Proofs *)

(** ** Characters *)

Lemma char_code_range (c : ascii) : 0 <= char_code c < 256.
Proof.
  unfold char_code. pose proof (N_ascii_bounded c). lia.
Qed.

Lemma char_to_int_small `{CharAbi} (c : ascii) :
  char_code c < 128 -> char_to_int c = char_code c.
Proof.
  intros Hc. unfold char_to_int.
  destruct (128 <=? char_code c) eqn:E; [| reflexivity].
  apply Z.leb_le in E. lia.
Qed.

Lemma char_to_int_range `{CharAbi} (c : ascii) : -128 <= char_to_int c < 256.
Proof.
  pose proof (char_code_range c). unfold char_to_int.
  destruct (128 <=? char_code c) eqn:E; cbn [andb]; [| lia].
  apply Z.leb_le in E. destruct char_is_signed; lia.
Qed.

Lemma isdigit_code (c : ascii) :
  isdigit c = true -> 48 <= char_code c <= 57.
Proof.
  unfold isdigit. intros Hd. apply andb_prop in Hd. destruct Hd as [H1 H2].
  apply Z.leb_le in H1. apply Z.leb_le in H2. lia.
Qed.

Lemma isdigit_nonzero (c : ascii) : isdigit c = true -> nonzero c = true.
Proof.
  intros Hd. apply isdigit_code in Hd. unfold nonzero.
  destruct (char_code c =? 0) eqn:E; [apply Z.eqb_eq in E; lia | reflexivity].
Qed.

Lemma isdigit_not_tilde (c : ascii) :
  isdigit c = true -> Ascii.eqb c "~"%char = false.
Proof.
  intros Hd. destruct (Ascii.eqb c "~") eqn:E; [| reflexivity].
  apply Ascii.eqb_eq in E. subst c. discriminate Hd.
Qed.

Lemma isalpha_code (c : ascii) :
  isalpha c = true -> 65 <= char_code c <= 122.
Proof.
  unfold isalpha. intros Ha. apply orb_prop in Ha.
  destruct Ha as [Ha | Ha]; apply andb_prop in Ha; destruct Ha as [H1 H2];
    apply Z.leb_le in H1; apply Z.leb_le in H2; lia.
Qed.

Lemma order_stop `{CharAbi} (c : ascii) : stops_run c = true -> order c = 0.
Proof.
  unfold stops_run, order. intros Hs.
  destruct (isdigit c) eqn:Hd.
  - rewrite (isdigit_not_tilde c Hd). reflexivity.
  - rewrite andb_true_r in Hs. destruct (nonzero c) eqn:Hn; [discriminate |].
    destruct (Ascii.eqb c "~") eqn:E; [| reflexivity].
    apply Ascii.eqb_eq in E. subst c. discriminate Hn.
Qed.

Lemma order_in_run `{CharAbi} (c : ascii) : stops_run c = false -> order c <> 0.
Proof.
  unfold stops_run, order. intros Hs.
  apply negb_false_iff in Hs. apply andb_prop in Hs. destruct Hs as [Hn Hd].
  apply negb_true_iff in Hd. rewrite Hd, Hn. cbn [negb].
  destruct (Ascii.eqb c "~"); [lia |].
  pose proof (char_to_int_range c).
  destruct (isalpha c) eqn:Ha; [| lia].
  apply isalpha_code in Ha. rewrite char_to_int_small; lia.
Qed.

Lemma deref_empty_stops : stops_run (deref "") = true.
Proof. reflexivity. Qed.

(** The loop over a non-digit run goes on exactly when one of the two
    characters does not stop it. *)
Lemma in_nondigit_run_stops (val ref : string) :
  in_nondigit_run val ref
  = negb (stops_run (deref val) && stops_run (deref ref)).
Proof.
  unfold in_nondigit_run, stops_run.
  destruct (nonzero (deref val) && negb (isdigit (deref val)));
    destruct (nonzero (deref ref) && negb (isdigit (deref ref))); reflexivity.
Qed.

(** Both pointers stand on characters of their strings whenever the loop
    over a non-digit run moves them: a pointer on the terminator has order
    0, which no character that keeps the loop going has. *)
Lemma nondigit_run_in_bounds `{CharAbi} (val ref : string) :
  in_nondigit_run val ref = true ->
  order (deref val) = order (deref ref) ->
  stops_run (deref val) = false /\ stops_run (deref ref) = false.
Proof.
  rewrite in_nondigit_run_stops. intros Hrun Hord.
  apply negb_true_iff in Hrun.
  destruct (stops_run (deref val)) eqn:Hv;
    destruct (stops_run (deref ref)) eqn:Hr; try discriminate; auto.
  - apply order_stop in Hv. apply order_in_run in Hr. lia.
  - apply order_stop in Hr. apply order_in_run in Hv. lia.
Qed.

(** ** Comparing keys *)

Lemma key_compare_nil_r (a : list Z) :
  key_compare a [] = CompOpp (zeros_compare a).
Proof. destruct a; reflexivity. Qed.

Lemma key_compare_hd_tl (a b : list Z) :
  key_compare a b
  = match hd 0 a ?= hd 0 b with
    | Eq => key_compare (tl a) (tl b)
    | c => c
    end.
Proof.
  destruct a as [| x a]; destruct b as [| y b];
    cbn [key_compare zeros_compare hd tl]; try reflexivity.
  rewrite key_compare_nil_r, (Z.compare_antisym 0 x).
  destruct (0 ?= x); reflexivity.
Qed.

Lemma key_compare_cons_same (x : Z) (a b : list Z) :
  key_compare (x :: a) (x :: b) = key_compare a b.
Proof. cbn [key_compare]. rewrite Z.compare_refl. reflexivity. Qed.

Lemma key_compare_pad_l (b : list Z) : key_compare [0] b = key_compare [] b.
Proof.
  rewrite (key_compare_hd_tl [0] b), (key_compare_hd_tl [] b). reflexivity.
Qed.

Lemma key_compare_pad_r (a : list Z) : key_compare a [0] = key_compare a [].
Proof.
  rewrite (key_compare_hd_tl a [0]), (key_compare_hd_tl a []). reflexivity.
Qed.

Lemma key_compare_pad (n : nat) :
  forall a b : list Z,
    (List.length a <= n)%nat -> (List.length b <= n)%nat ->
    key_compare a b = pad_compare n a b.
Proof.
  induction n as [| n IH]; intros a b Ha Hb.
  - destruct a; destruct b; simpl in *; try lia. reflexivity.
  - rewrite key_compare_hd_tl. cbn [pad_compare].
    destruct (hd 0 a ?= hd 0 b); try reflexivity.
    apply IH; [destruct a | destruct b]; simpl in *; lia.
Qed.

Lemma pad_compare_antisym (n : nat) :
  forall a b : list Z, pad_compare n b a = CompOpp (pad_compare n a b).
Proof.
  induction n as [| n IH]; intros a b; cbn [pad_compare]; [reflexivity |].
  rewrite (Z.compare_antisym (hd 0 a) (hd 0 b)).
  destruct (hd 0 a ?= hd 0 b); simpl; auto.
Qed.

Lemma pad_compare_trans (n : nat) :
  forall a b c : list Z,
    pad_compare n a b <> Gt -> pad_compare n b c <> Gt ->
    pad_compare n a c <> Gt.
Proof.
  induction n as [| n IH]; intros a b c; cbn [pad_compare]; [easy |].
  destruct (Z.compare_spec (hd 0 a) (hd 0 b)) as [Hab | Hab | Hab];
    destruct (Z.compare_spec (hd 0 b) (hd 0 c)) as [Hbc | Hbc | Hbc];
    destruct (Z.compare_spec (hd 0 a) (hd 0 c)) as [Hac | Hac | Hac];
    try lia; try easy.
  apply IH.
Qed.

Lemma key_compare_antisym (a b : list Z) :
  key_compare b a = CompOpp (key_compare a b).
Proof.
  set (n := Nat.max (List.length a) (List.length b)).
  rewrite (key_compare_pad n a b), (key_compare_pad n b a) by lia.
  apply pad_compare_antisym.
Qed.

Lemma key_compare_trans (a b c : list Z) :
  key_compare a b <> Gt -> key_compare b c <> Gt -> key_compare a c <> Gt.
Proof.
  set (n := Nat.max (List.length a) (Nat.max (List.length b) (List.length c))).
  rewrite (key_compare_pad n a b), (key_compare_pad n b c),
    (key_compare_pad n a c) by lia.
  apply pad_compare_trans.
Qed.

(** ** Keys that compare alike *)

Lemma pad_eq_refl (a : list Z) : pad_eq a a.
Proof. intros c. split; reflexivity. Qed.

Lemma pad_eq_nil : pad_eq [] [0].
Proof.
  intros c. split.
  - symmetry. apply key_compare_pad_l.
  - symmetry. apply key_compare_pad_r.
Qed.

Lemma pad_eq_cons (x : Z) (a b : list Z) :
  pad_eq a b -> pad_eq (x :: a) (x :: b).
Proof.
  intros Hab c. split.
  - rewrite (key_compare_hd_tl (x :: a) c), (key_compare_hd_tl (x :: b) c).
    cbn [hd tl]. rewrite (proj1 (Hab (tl c))). reflexivity.
  - rewrite (key_compare_hd_tl c (x :: a)), (key_compare_hd_tl c (x :: b)).
    cbn [hd tl]. rewrite (proj2 (Hab (tl c))). reflexivity.
Qed.

Lemma pad_eq_compare (a a' b b' : list Z) :
  pad_eq a a' -> pad_eq b b' -> key_compare a b = key_compare a' b'.
Proof.
  intros Ha Hb. rewrite (proj1 (Ha b)). apply (proj2 (Hb a')).
Qed.

(** ** The key of a string, one character at a time *)

Section VersionKeys.
Context `{CharAbi}.

(** The key of 1.0~rc1: the empty run before the 1, the one digit 1, the
    dot, a digit run that is all zeros, the run ~rc and the one digit 1.
    The key of 1.0 agrees with it up to the tilde, where it has nothing
    left. *)
Example version_key_tilde :
  version_key InRun "1.0~rc1" = [0; 1; 49; 302; 0; 0; -1; 114; 99; 0; 1; 49]
  /\ version_key InRun "1.0" = [0; 1; 49; 302; 0]
  /\ key_compare (version_key InRun "1.0~rc1") (version_key InRun "1.0") = Lt.
Proof. repeat split. Qed.

(** Leading zeros do not count, the longer run of digits does. *)
Example version_key_digits :
  version_key InRun "007" = [0; 1; 55]
  /\ version_key InRun "7" = [0; 1; 55]
  /\ version_key InRun "10" = [0; 2; 49; 48]
  /\ key_compare (version_key InRun "10") (version_key InRun "007") = Gt.
Proof. repeat split. Qed.

Lemma order_nul : order Ascii.zero = 0.
Proof. reflexivity. Qed.

Lemma version_key_stop (m : key_mode) (s : string) :
  nonzero (deref s) = false -> version_key m s = [].
Proof.
  destruct s as [| c s]; [reflexivity |].
  cbn [deref version_key]. intros Hn. rewrite Hn. reflexivity.
Qed.

Lemma version_key_in_run (c : ascii) (s : string) :
  stops_run c = false ->
  version_key InRun (String c s) = order c :: version_key InRun s.
Proof.
  unfold stops_run. intros Hs. apply negb_false_iff in Hs.
  apply andb_prop in Hs. destruct Hs as [Hn Hd]. apply negb_true_iff in Hd.
  cbn [version_key]. rewrite Hn, Hd. reflexivity.
Qed.

Lemma version_key_run_end (s : string) :
  stops_run (deref s) = true ->
  pad_eq (version_key InRun s) (0 :: version_key InZeros s).
Proof.
  destruct s as [| c s]; [intros _; apply pad_eq_nil |].
  cbn [deref]. unfold stops_run. intros Hs. apply negb_true_iff in Hs.
  cbn [version_key].
  destruct (nonzero c) eqn:Hn; cbn [negb]; [| apply pad_eq_nil].
  destruct (isdigit c) eqn:Hd; [apply pad_eq_refl | discriminate Hs].
Qed.

Lemma version_key_skip_zeros (s : string) :
  version_key InZeros (skip_zeros s) = version_key InZeros s.
Proof.
  induction s as [| c s IH]; [reflexivity |].
  cbn [skip_zeros]. destruct (Ascii.eqb c "0") eqn:E; [| reflexivity].
  apply Ascii.eqb_eq in E. subst c. rewrite IH. reflexivity.
Qed.

Lemma skip_zeros_head (s : string) :
  Ascii.eqb (deref (skip_zeros s)) "0" = false.
Proof.
  induction s as [| c s IH]; [reflexivity |].
  cbn [skip_zeros]. destruct (Ascii.eqb c "0") eqn:E; [exact IH | exact E].
Qed.

Lemma version_key_digits_start (s : string) :
  Ascii.eqb (deref s) "0" = false ->
  pad_eq (version_key InZeros s)
    (Z.of_nat (digit_count s) :: version_key InDigits s).
Proof.
  destruct s as [| c s]; [intros _; apply pad_eq_nil |].
  cbn [deref]. intros Hz. cbn [version_key digit_count].
  destruct (nonzero c) eqn:Hn; cbn [negb].
  - destruct (isdigit c) eqn:Hd; [rewrite Hz |]; apply pad_eq_refl.
  - destruct (isdigit c) eqn:Hd; [| apply pad_eq_nil].
    apply isdigit_nonzero in Hd. congruence.
Qed.

Lemma version_key_after_digits (s : string) :
  isdigit (deref s) = false -> version_key InDigits s = version_key InRun s.
Proof.
  destruct s as [| c s]; [reflexivity |].
  cbn [deref version_key]. intros Hd. rewrite Hd. reflexivity.
Qed.

Lemma version_key_digit (c : ascii) (s : string) :
  isdigit c = true ->
  version_key InDigits (String c s) = char_code c :: version_key InDigits s.
Proof.
  intros Hd. cbn [version_key]. rewrite Hd, (isdigit_nonzero c Hd). reflexivity.
Qed.

Lemma version_key_run_head (s : string) :
  hd 0 (version_key InRun s) = order (deref s).
Proof.
  destruct (stops_run (deref s)) eqn:Hs.
  - rewrite (order_stop _ Hs).
    destruct s as [| c s]; [reflexivity |].
    cbn [deref] in Hs. unfold stops_run in Hs. apply negb_true_iff in Hs.
    cbn [version_key].
    destruct (nonzero c); cbn [negb]; [| reflexivity].
    destruct (isdigit c); [reflexivity | discriminate Hs].
  - destruct s as [| c s]; [discriminate Hs |].
    cbn [deref] in *. rewrite (version_key_in_run c s Hs). reflexivity.
Qed.

End VersionKeys.

Section VerrevcmpLoops.
Context `{CharAbi}.

Lemma sign_sub (x y : Z) : sign (x - y) = (x ?= y).
Proof. unfold sign. symmetry. apply Z.compare_sub. Qed.

(** *** The loop over a non-digit run *)

Lemma verrevcmp_nondigit_key (val : string) :
  forall ref : string,
    match verrevcmp_nondigit val ref with
    | Return r =>
        r <> 0
        /\ sign r
           = key_compare (version_key InRun val) (version_key InRun ref)
    | Fallthrough val' ref' =>
        key_compare (version_key InRun val) (version_key InRun ref)
        = key_compare (version_key InRun val') (version_key InRun ref')
        /\ stops_run (deref val') = true /\ stops_run (deref ref') = true
        /\ (String.length val' <= String.length val)%nat
        /\ (String.length ref' <= String.length ref)%nat
        /\ (if in_nondigit_run val ref
            then (String.length val' < String.length val)%nat
            else val' = val /\ ref' = ref)
    end.
Proof.
  induction val as [| v val IH]; intros ref.
  - cbn [verrevcmp_nondigit].
    destruct (in_nondigit_run "" ref) eqn:Hrun.
    + destruct (order (deref "") =? order (deref ref)) eqn:Hord; cbn [negb].
      * apply Z.eqb_eq in Hord.
        destruct (nondigit_run_in_bounds "" ref Hrun Hord) as [Hv _].
        discriminate Hv.
      * apply Z.eqb_neq in Hord. split; [lia |].
        rewrite sign_sub, key_compare_hd_tl, !version_key_run_head.
        destruct (Z.compare_spec (order (deref "")) (order (deref ref)));
          [lia | reflexivity | reflexivity].
    + rewrite in_nondigit_run_stops in Hrun. apply negb_false_iff in Hrun.
      apply andb_prop in Hrun. destruct Hrun as [Hv Hr].
      repeat split; auto.
  - cbn [verrevcmp_nondigit].
    destruct (in_nondigit_run (String v val) ref) eqn:Hrun.
    + destruct (order (deref (String v val)) =? order (deref ref)) eqn:Hord;
        cbn [negb].
      * apply Z.eqb_eq in Hord.
        destruct (nondigit_run_in_bounds _ ref Hrun Hord) as [Hv Hr].
        destruct ref as [| r ref]; [discriminate Hr |].
        cbn [deref next] in *.
        specialize (IH ref).
        destruct (verrevcmp_nondigit val ref) as [res | val' ref'].
        -- destruct IH as [Hres Hsign]. split; [exact Hres |].
           rewrite Hsign, (version_key_in_run v val Hv),
             (version_key_in_run r ref Hr), Hord.
           symmetry. apply key_compare_cons_same.
        -- destruct IH as (Hkey & Hsv & Hsr & Hlv & Hlr & _).
           rewrite (version_key_in_run v val Hv),
             (version_key_in_run r ref Hr), Hord, key_compare_cons_same.
           cbn [String.length]. repeat split; auto; lia.
      * apply Z.eqb_neq in Hord. split; [lia |].
        rewrite sign_sub, key_compare_hd_tl, !version_key_run_head.
        destruct (Z.compare_spec (order (deref (String v val)))
                    (order (deref ref))); [lia | reflexivity | reflexivity].
    + rewrite in_nondigit_run_stops in Hrun. apply negb_false_iff in Hrun.
      apply andb_prop in Hrun. destruct Hrun as [Hv Hr].
      repeat split; auto.
Qed.

(** *** Leading zeros *)

Lemma skip_zeros_length (s : string) :
  (String.length (skip_zeros s) <= String.length s)%nat.
Proof.
  induction s as [| c s IH]; [apply Nat.le_refl |].
  cbn [skip_zeros]. destruct (Ascii.eqb c "0"); cbn [String.length]; lia.
Qed.

Lemma skip_zeros_same (s : string) :
  String.length (skip_zeros s) = String.length s -> skip_zeros s = s.
Proof.
  destruct s as [| c s]; [reflexivity |].
  cbn [skip_zeros]. destruct (Ascii.eqb c "0"); [| reflexivity].
  pose proof (skip_zeros_length s). cbn [String.length]. lia.
Qed.

(** *** Two digit runs side by side *)

Lemma digit_to_int (c : ascii) :
  isdigit c = true -> char_to_int c = char_code c.
Proof.
  intros Hd. apply isdigit_code in Hd. apply char_to_int_small. lia.
Qed.

Lemma verrevcmp_digits_key (val : string) :
  forall (ref : string) (first_diff : Z),
    match verrevcmp_digits first_diff val ref with
    | (first_diff', val', ref') =>
        isdigit (deref val') && isdigit (deref ref') = false
        /\ (exists k : nat,
               digit_count val = (k + digit_count val')%nat
               /\ digit_count ref = (k + digit_count ref')%nat)
        /\ (String.length val' <= String.length val)%nat
        /\ (String.length ref' <= String.length ref)%nat
        /\ (String.length val' = String.length val -> val' = val)
        /\ (String.length ref' = String.length ref -> ref' = ref)
        /\ (first_diff <> 0 -> first_diff' = first_diff)
        /\ (first_diff = 0 ->
            if first_diff' =? 0
            then key_compare (version_key InDigits val)
                   (version_key InDigits ref)
                 = key_compare (version_key InDigits val')
                     (version_key InDigits ref')
            else sign first_diff'
                 = key_compare (version_key InDigits val)
                     (version_key InDigits ref))
    end.
Proof.
  induction val as [| v val IH]; intros ref first_diff.
  - cbn [verrevcmp_digits deref]. repeat split; auto.
    + exists O. split; reflexivity.
    + intros ->. reflexivity.
  - cbn [verrevcmp_digits].
    destruct (isdigit v && isdigit (deref ref)) eqn:Hboth.
    + apply andb_prop in Hboth. destruct Hboth as [Hdv Hdr].
      destruct ref as [| r ref]; [discriminate Hdr |].
      cbn [deref next] in *.
      specialize (IH ref (if first_diff =? 0
                          then char_to_int v - char_to_int r else first_diff)).
      destruct (verrevcmp_digits _ val ref) as [[fd' val'] ref'].
      destruct IH
        as (Hstop & (k & Hkv & Hkr) & Hlv & Hlr & _ & _ & Hkeep & Hzero).
      cbn [digit_count String.length]. rewrite Hdv, Hdr.
      repeat split; auto; try lia.
      * exists (S k). split; cbn [Nat.add]; congruence.
      * destruct (first_diff =? 0) eqn:E; [apply Z.eqb_eq in E; lia |].
        intros _. apply Hkeep. apply Z.eqb_neq in E. exact E.
      * intros ->. cbn [Z.eqb] in Hkeep, Hzero.
        rewrite (version_key_digit v val Hdv), (version_key_digit r ref Hdr).
        rewrite (digit_to_int v Hdv), (digit_to_int r Hdr) in *.
        cbn [key_compare].
        destruct (Z.compare_spec (char_code v) (char_code r)) as [E | E | E].
        -- apply Hzero. lia.
        -- assert (Hne : char_code v - char_code r <> 0) by lia.
           rewrite (Hkeep Hne).
           destruct (char_code v - char_code r =? 0) eqn:E0;
             [apply Z.eqb_eq in E0; lia |].
           unfold sign. apply Z.compare_lt_iff. lia.
        -- assert (Hne : char_code v - char_code r <> 0) by lia.
           rewrite (Hkeep Hne).
           destruct (char_code v - char_code r =? 0) eqn:E0;
             [apply Z.eqb_eq in E0; lia |].
           unfold sign. apply Z.compare_gt_iff. lia.
    + cbn [deref]. repeat split; auto.
      * exists O. split; reflexivity.
      * intros ->. rewrite Z.eqb_refl. reflexivity.
Qed.

Lemma digit_count_head (s : string) :
  if isdigit (deref s) then (1 <= digit_count s)%nat else digit_count s = O.
Proof.
  destruct s as [| c s]; [reflexivity |].
  cbn [deref digit_count]. destruct (isdigit c); [lia | reflexivity].
Qed.

Lemma stops_run_digit (c : ascii) :
  stops_run c = true -> nonzero c = true -> isdigit c = true.
Proof.
  unfold stops_run. intros Hs Hn. rewrite Hn in Hs.
  destruct (isdigit c); [reflexivity | discriminate Hs].
Qed.

(** *** The whole loop *)

Lemma verrevcmp_loop_key (fuel : nat) :
  forall val ref : string,
    (String.length val + String.length ref < fuel)%nat ->
    exists r : Z,
      verrevcmp_loop fuel val ref = Some r
      /\ sign r = key_compare (version_key InRun val) (version_key InRun ref).
Proof.
  induction fuel as [| fuel IH]; intros val ref Hfuel; [lia |].
  cbn [verrevcmp_loop].
  destruct (nonzero (deref val) || nonzero (deref ref)) eqn:Hnz.
  2:{ apply orb_false_elim in Hnz. destruct Hnz as [Hv Hr].
      exists 0. rewrite (version_key_stop InRun val Hv),
        (version_key_stop InRun ref Hr). split; reflexivity. }
  pose proof (verrevcmp_nondigit_key val ref) as Hrun.
  destruct (verrevcmp_nondigit val ref) as [r | val1 ref1].
  { exists r. split; [reflexivity | apply Hrun]. }
  destruct Hrun as (Hkey1 & Hsv & Hsr & Hlv1 & Hlr1 & Hmove).
  pose proof (verrevcmp_digits_key (skip_zeros val1) (skip_zeros ref1) 0)
    as Hdig.
  destruct (verrevcmp_digits 0 (skip_zeros val1) (skip_zeros ref1))
    as [[first_diff val3] ref3].
  destruct Hdig as (Hstop & (k & Hkv & Hkr) & Hlv3 & Hlr3 & Hsamev & Hsamer
                    & _ & Hdiff).
  specialize (Hdiff eq_refl).
  pose proof (skip_zeros_length val1) as Hlv2.
  pose proof (skip_zeros_length ref1) as Hlr2.
  assert (Hkey2 :
    key_compare (version_key InRun val) (version_key InRun ref)
    = key_compare
        (Z.of_nat (digit_count (skip_zeros val1))
           :: version_key InDigits (skip_zeros val1))
        (Z.of_nat (digit_count (skip_zeros ref1))
           :: version_key InDigits (skip_zeros ref1))).
  { rewrite Hkey1.
    rewrite (pad_eq_compare _ _ _ _ (version_key_run_end val1 Hsv)
               (version_key_run_end ref1 Hsr)).
    rewrite key_compare_cons_same.
    rewrite <- (version_key_skip_zeros val1), <- (version_key_skip_zeros ref1).
    apply pad_eq_compare; apply version_key_digits_start;
      apply skip_zeros_head. }
  rewrite Hkey2. cbn [key_compare].
  pose proof (digit_count_head val3) as Hcv.
  pose proof (digit_count_head ref3) as Hcr.
  destruct (isdigit (deref val3)) eqn:Hdv.
  { exists 1. split; [reflexivity |].
    cbn [andb] in Hstop. rewrite Hstop in Hcr.
    assert (Hgt : Z.of_nat (digit_count (skip_zeros ref1))
                  < Z.of_nat (digit_count (skip_zeros val1))) by lia.
    apply Z.compare_gt_iff in Hgt. rewrite Hgt. reflexivity. }
  destruct (isdigit (deref ref3)) eqn:Hdr.
  { exists (-1). split; [reflexivity |].
    assert (Hlt : Z.of_nat (digit_count (skip_zeros val1))
                  < Z.of_nat (digit_count (skip_zeros ref1))) by lia.
    apply Z.compare_lt_iff in Hlt. rewrite Hlt. reflexivity. }
  assert (Heq : Z.of_nat (digit_count (skip_zeros val1))
                = Z.of_nat (digit_count (skip_zeros ref1))) by lia.
  rewrite Heq, Z.compare_refl.
  destruct (first_diff =? 0) eqn:Hfd; cbn [negb].
  2:{ exists first_diff. split; [reflexivity | exact Hdiff]. }
  rewrite Hdiff, (version_key_after_digits val3 Hdv),
    (version_key_after_digits ref3 Hdr).
  apply IH.
  destruct (in_nondigit_run val ref) eqn:Hin; [lia |].
  destruct Hmove as [-> ->].
  assert (Hv3 : nonzero (deref val) = true ->
                (String.length val3 < String.length val)%nat).
  { intros Hn. pose proof (stops_run_digit _ Hsv Hn) as Hd.
    destruct (Nat.eq_dec (String.length val3) (String.length val)) as [E | E];
      [| lia].
    assert (E2 : String.length (skip_zeros val) = String.length val) by lia.
    apply skip_zeros_same in E2. rewrite E2 in *.
    rewrite (Hsamev E) in Hdv. congruence. }
  assert (Hr3 : nonzero (deref ref) = true ->
                (String.length ref3 < String.length ref)%nat).
  { intros Hn. pose proof (stops_run_digit _ Hsr Hn) as Hd.
    destruct (Nat.eq_dec (String.length ref3) (String.length ref)) as [E | E];
      [| lia].
    assert (E2 : String.length (skip_zeros ref) = String.length ref) by lia.
    apply skip_zeros_same in E2. rewrite E2 in *.
    rewrite (Hsamer E) in Hdr. congruence. }
  apply orb_prop in Hnz. destruct Hnz as [Hn | Hn];
    [specialize (Hv3 Hn) | specialize (Hr3 Hn)]; lia.
Qed.

(** The loop returns with the fuel that [verrevcmp] gives it. *)
Lemma verrevcmp_loop_total (val ref : string) :
  exists r : Z,
    verrevcmp_loop (S (String.length val + String.length ref)) val ref
    = Some r.
Proof.
  destruct (verrevcmp_loop_key (S (String.length val + String.length ref))
              val ref) as (r & Hr & _); [lia | eauto].
Qed.

Lemma verrevcmp_key (val ref : option string) :
  sign (verrevcmp val ref)
  = key_compare (version_key InRun (or_empty val))
      (version_key InRun (or_empty ref)).
Proof.
  unfold verrevcmp.
  destruct (verrevcmp_loop_key
              (S (String.length (or_empty val) + String.length (or_empty ref)))
              (or_empty val) (or_empty ref)) as (r & Hr & Hsign); [lia |].
  rewrite Hr. exact Hsign.
Qed.

End VerrevcmpLoops.

(** ** Orders given by comparison functions *)

Lemma then_by_antisym {A : Type} (cmp1 cmp2 : A -> A -> comparison) :
  cmp_antisym cmp1 -> cmp_antisym cmp2 ->
  cmp_antisym (fun a b => then_by (cmp1 a b) (cmp2 a b)).
Proof.
  intros H1 H2 a b. rewrite (H1 a b), (H2 a b).
  destruct (cmp1 a b); reflexivity.
Qed.

Lemma then_by_trans {A : Type} (cmp1 cmp2 : A -> A -> comparison) :
  cmp_antisym cmp1 -> cmp_trans cmp1 -> cmp_trans cmp2 ->
  cmp_trans (fun a b => then_by (cmp1 a b) (cmp2 a b)).
Proof.
  intros Ha Ht1 Ht2 a b c.
  pose proof (Ht1 a b c) as T1. pose proof (Ht1 b c a) as T2.
  pose proof (Ht1 c a b) as T3. pose proof (Ht2 a b c) as T4.
  rewrite (Ha a c) in T2, T3. rewrite (Ha a b) in T2. rewrite (Ha b c) in T3.
  destruct (cmp1 a b); destruct (cmp1 b c); destruct (cmp1 a c);
    cbn [then_by CompOpp] in *; try easy;
    try (exfalso; apply T1; easy); try (exfalso; apply T2; easy);
    try (exfalso; apply T3; easy).
Qed.

Lemma on_field_antisym {A B : Type} (f : A -> B) (cmp : B -> B -> comparison) :
  cmp_antisym cmp -> cmp_antisym (fun a b => cmp (f a) (f b)).
Proof. intros Hc a b. apply Hc. Qed.

Lemma on_field_trans {A B : Type} (f : A -> B) (cmp : B -> B -> comparison) :
  cmp_trans cmp -> cmp_trans (fun a b => cmp (f a) (f b)).
Proof. intros Hc a b c. apply Hc. Qed.

Lemma Z_compare_antisym : cmp_antisym Z.compare.
Proof. intros a b. apply Z.compare_antisym. Qed.

Lemma Z_compare_trans : cmp_trans Z.compare.
Proof.
  intros a b c.
  destruct (Z.compare_spec a b); destruct (Z.compare_spec b c);
    destruct (Z.compare_spec a c); try easy; lia.
Qed.

(** ** Signs *)




Lemma sign_eq (r : Z) : sign r = Eq -> r = 0.
Proof. unfold sign. apply Z.compare_eq. Qed.

Lemma to_int_id (z : Z) : int_range z -> to_int z = z.
Proof.
  unfold int_range, INT_MIN, INT_MAX, to_int.
  change (2 ^ 31) with 2147483648. change (2 ^ 32) with 4294967296.
  intros Hz. rewrite Z.mod_small; lia.
Qed.

Lemma to_int_nonzero (z : Z) :
  - 2 ^ 32 < z < 2 ^ 32 -> z <> 0 -> to_int z <> 0.
Proof.
  unfold to_int.
  change (2 ^ 31) with 2147483648. change (2 ^ 32) with 4294967296.
  intros Hz Hne Hzero.
  pose proof (Z.div_mod (z + 2147483648) 4294967296). lia.
Qed.

Section VersionOrder.
Context `{CharAbi}.

Lemma verrevcmp_sign_antisym : cmp_antisym verrevcmp_sign.
Proof.
  intros a b. unfold verrevcmp_sign. rewrite !verrevcmp_key.
  apply key_compare_antisym.
Qed.

Lemma verrevcmp_sign_trans : cmp_trans verrevcmp_sign.
Proof.
  intros a b c. unfold verrevcmp_sign. rewrite !verrevcmp_key.
  apply key_compare_trans.
Qed.

Lemma verrevcmp_refl (v : option string) : verrevcmp v v = 0.
Proof.
  apply sign_eq. pose proof (verrevcmp_sign_antisym v v) as Ha.
  unfold verrevcmp_sign in Ha. destruct (sign (verrevcmp v v)); easy.
Qed.

Lemma epoch_difference (a b : pkg_t) :
  epoch_ok a -> epoch_ok b -> to_int (epoch a - epoch b) = epoch a - epoch b.
Proof.
  unfold epoch_ok, INT_MAX. intros Ha Hb.
  apply to_int_id. unfold int_range, INT_MIN, INT_MAX. lia.
Qed.

Lemma force_reinstall_difference (a b : pkg_t) :
  version_fields_ok a -> version_fields_ok b ->
  to_int (force_reinstall a - force_reinstall b)
  = force_reinstall a - force_reinstall b.
Proof.
  unfold version_fields_ok. intros [_ Ha] [_ Hb].
  apply to_int_id. unfold int_range, INT_MIN, INT_MAX. lia.
Qed.

Lemma nonzero_sign (r : Z) : (r =? 0) = false -> sign r <> Eq.
Proof. intros Hr Hs. apply sign_eq in Hs. apply Z.eqb_neq in Hr. lia. Qed.

Lemma pkg_compare_versions_no_reinstall_sign (a b : pkg_t) :
  epoch_ok a -> epoch_ok b ->
  sign (pkg_compare_versions_no_reinstall a b) = spec_compare a b.
Proof.
  intros Ha Hb. unfold pkg_compare_versions_no_reinstall, spec_compare.
  rewrite (epoch_difference a b Ha Hb).
  destruct (epoch a - epoch b =? 0) eqn:He; cbn [negb].
  - apply Z.eqb_eq in He. assert (Heq : epoch a = epoch b) by lia.
    rewrite Heq, Z.compare_refl. cbn [then_by].
    destruct (verrevcmp (version a) (version b) =? 0) eqn:Hv; cbn [negb].
    + apply Z.eqb_eq in Hv. rewrite Hv. reflexivity.
    + pose proof (nonzero_sign _ Hv).
      destruct (sign (verrevcmp (version a) (version b))); easy.
  - pose proof (nonzero_sign _ He) as Hs. rewrite sign_sub in *.
    destruct (epoch a ?= epoch b); easy.
Qed.

Lemma pkg_compare_versions_sign (a b : pkg_t) :
  version_fields_ok a -> version_fields_ok b ->
  sign (pkg_compare_versions a b)
  = then_by (spec_compare a b) (force_reinstall a ?= force_reinstall b).
Proof.
  intros Ha Hb. unfold pkg_compare_versions.
  rewrite <- (pkg_compare_versions_no_reinstall_sign a b (proj1 Ha)
                (proj1 Hb)).
  rewrite (force_reinstall_difference a b Ha Hb).
  destruct (pkg_compare_versions_no_reinstall a b =? 0) eqn:Hr; cbn [negb].
  - apply Z.eqb_eq in Hr. rewrite Hr. apply sign_sub.
  - pose proof (nonzero_sign _ Hr).
    destruct (sign (pkg_compare_versions_no_reinstall a b)); easy.
Qed.

Lemma spec_compare_antisym : cmp_antisym spec_compare.
Proof.
  unfold spec_compare.
  apply (then_by_antisym (fun a b => epoch a ?= epoch b)).
  - apply (on_field_antisym epoch), Z_compare_antisym.
  - apply (then_by_antisym (fun a b => verrevcmp_sign (version a) (version b))
             (fun a b => verrevcmp_sign (revision a) (revision b))).
    + apply (on_field_antisym version), verrevcmp_sign_antisym.
    + apply (on_field_antisym revision), verrevcmp_sign_antisym.
Qed.

Lemma spec_compare_trans : cmp_trans spec_compare.
Proof.
  unfold spec_compare.
  apply (then_by_trans (fun a b => epoch a ?= epoch b)).
  - apply (on_field_antisym epoch), Z_compare_antisym.
  - apply (on_field_trans epoch), Z_compare_trans.
  - apply (then_by_trans (fun a b => verrevcmp_sign (version a) (version b))
             (fun a b => verrevcmp_sign (revision a) (revision b))).
    + apply (on_field_antisym version), verrevcmp_sign_antisym.
    + apply (on_field_trans version), verrevcmp_sign_trans.
    + apply (on_field_trans revision), verrevcmp_sign_trans.
Qed.

Lemma compare_with_reinstall_antisym : cmp_antisym compare_with_reinstall.
Proof.
  apply (then_by_antisym spec_compare).
  - apply spec_compare_antisym.
  - apply (on_field_antisym force_reinstall), Z_compare_antisym.
Qed.

Lemma compare_with_reinstall_trans : cmp_trans compare_with_reinstall.
Proof.
  apply (then_by_trans spec_compare).
  - apply spec_compare_antisym.
  - apply spec_compare_trans.
  - apply (on_field_trans force_reinstall), Z_compare_trans.
Qed.

End VersionOrder.

Section VersionClaims.
Context `{CharAbi}.


(** C2. [order] is -1 on the tilde, 0 on a digit and on the terminator, the
    character itself on a letter and 256 plus the character on anything
    else; the loop of [verrevcmp] returns; the sign of its result is the
    comparison of the keys of the two strings, which spell out the
    alternation of non-digit runs (compared through [order], character by
    character) and digit runs (leading zeros dropped, then the longer run
    first, then the first digit that differs, a side that has digits left
    being the longer one); and 1.0~rc1 < 1.0, 1.0~~ < 1.0~, 1.0 < 1.0a. *)
Theorem verrevcmp_debian_order :
  (forall x : ascii,
      order x
      = if Ascii.eqb x "~" then -1
        else if isdigit x || negb (nonzero x) then 0
        else if isalpha x then char_code x
        else 256 + char_to_int x)
  /\ (forall val ref : string,
         exists r : Z,
           verrevcmp_loop (S (String.length val + String.length ref)) val ref
           = Some r)
  /\ (forall val ref : option string,
         sign (verrevcmp val ref)
         = key_compare (version_key InRun (or_empty val))
             (version_key InRun (or_empty ref)))
  /\ verrevcmp (Some "1.0~rc1") (Some "1.0") < 0
  /\ verrevcmp (Some "1.0~~") (Some "1.0~") < 0
  /\ verrevcmp (Some "1.0") (Some "1.0a") < 0
  /\ verrevcmp (Some "1.010") (Some "1.9") > 0
  /\ verrevcmp (Some "1.007") (Some "1.7") = 0
  /\ verrevcmp (Some "1.12") (Some "1.21") < 0
  /\ verrevcmp (Some "1.1") (Some "1.") > 0.
Proof.
  split.
  { intros x. unfold order.
    destruct (Ascii.eqb x "~"); [reflexivity |].
    destruct (isdigit x); [reflexivity |]. cbn [orb].
    destruct (negb (nonzero x)); [reflexivity |].
    destruct (isalpha x) eqn:Ha; [| reflexivity].
    apply isalpha_code in Ha. apply char_to_int_small. lia. }
  split; [exact verrevcmp_loop_total |].
  split; [exact verrevcmp_key |].
  repeat split; reflexivity.
Qed.


(** C10. [pkg_compare_versions] consults the [force_reinstall] flags
    last.  A result of [pkg_compare_versions_no_reinstall] that is not 0 is
    returned as it is; that result is 0 exactly when the difference of the
    epochs, [verrevcmp] on the versions and [verrevcmp] on the revisions are
    all 0, and the result of [pkg_compare_versions] is then the difference
    of the flags.  So two packages with the same epoch, version and revision
    whose [force_reinstall] flags (two [int]s) differ are told apart by
    [pkg_compare_versions] and not by
    [pkg_compare_versions_no_reinstall]. *)
Theorem force_reinstall_breaks_ties (a b : pkg_t) :
  let r := pkg_compare_versions_no_reinstall a b in
  (r <> 0 -> pkg_compare_versions a b = r)
  /\ (r = 0 ->
      pkg_compare_versions a b
      = to_int (force_reinstall a - force_reinstall b))
  /\ (r = 0 <->
      to_int (epoch a - epoch b) = 0
      /\ verrevcmp (version a) (version b) = 0
      /\ verrevcmp (revision a) (revision b) = 0)
  /\ (epoch a = epoch b -> version a = version b ->
      revision a = revision b ->
      int_range (force_reinstall a) -> int_range (force_reinstall b) ->
      force_reinstall a <> force_reinstall b ->
      pkg_compare_versions a b <> 0 /\ r = 0).
Proof.
  intros r.
  assert (Hkeys : r = 0 <->
                  to_int (epoch a - epoch b) = 0
                  /\ verrevcmp (version a) (version b) = 0
                  /\ verrevcmp (revision a) (revision b) = 0).
  { unfold r, pkg_compare_versions_no_reinstall.
    destruct (Z.eqb_spec (to_int (epoch a - epoch b)) 0) as [He | He];
      cbn [negb]; [| tauto].
    destruct (Z.eqb_spec (verrevcmp (version a) (version b)) 0) as [Hv | Hv];
      cbn [negb]; tauto. }
  split; [| split; [| split; [exact Hkeys |]]].
  - intros Hr. unfold pkg_compare_versions. fold r.
    destruct (Z.eqb_spec r 0) as [Hz | _]; [contradiction | reflexivity].
  - intros Hr. unfold pkg_compare_versions. fold r. rewrite Hr. reflexivity.
  - intros He Hv Hr Ha Hb Hne.
    assert (Hno : r = 0).
    { apply Hkeys. rewrite He, Hv, Hr, Z.sub_diag, !verrevcmp_refl.
      repeat split. }
    split; [| exact Hno].
    unfold pkg_compare_versions. fold r. rewrite Hno. cbn [Z.eqb negb].
    apply to_int_nonzero; [| lia].
    unfold int_range, INT_MIN, INT_MAX in *.
    change (2 ^ 31) with 2147483648 in *. change (2 ^ 32) with 4294967296.
    lia.
Qed.

End VersionClaims.

Section ConstraintClaims.
Context `{CharAbi}.


End ConstraintClaims.

(** ** Merging *)

Lemma keep_ptr_merged {A : Type} (old new : option A) :
  merged_ptr old new (keep_ptr old new).
Proof. destruct old; split; intros; cbn; congruence. Qed.

Lemma keep_int_merged (old new : Z) : merged_int old new (keep_int old new).
Proof.
  unfold merged_int, keep_int. destruct (Z.eqb_spec old 0); split; intros; lia.
Qed.

Lemma keep_uint_merged (old new : N) : merged_uint old new (keep_uint old new).
Proof.
  unfold merged_uint, keep_uint.
  destruct (N.eqb_spec old 0); split; intros; congruence.
Qed.

Lemma no_depends_total (p : pkg_t) :
  no_depends p = negb (0 <? depends_total p)%N.
Proof.
  unfold no_depends, depends_total.
  destruct (N.eqb_spec (depends_count p) 0);
    destruct (N.eqb_spec (pre_depends_count p) 0);
    destruct (N.eqb_spec (recommends_count p) 0);
    destruct (N.eqb_spec (suggests_count p) 0); cbn [andb];
    symmetry; try (apply negb_true_iff, N.ltb_ge; lia);
    apply negb_false_iff, N.ltb_lt; lia.
Qed.

Lemma store_same (h : pkg_heap) (p : pkg_ptr) (v : pkg_t) : store h p v p = v.
Proof. unfold store. rewrite Nat.eqb_refl. reflexivity. Qed.

Lemma store_other (h : pkg_heap) (p q : pkg_ptr) (v : pkg_t) :
  q <> p -> store h p v q = h q.
Proof.
  intros Hne. unfold store. apply Nat.eqb_neq in Hne. rewrite Hne. reflexivity.
Qed.

(** C5 (amended). [pkg_merge] returns 0 and leaves in [oldpkg]: for each of
    src, dest, architecture, arch_priority, section, maintainer,
    description, filename, local_filename, tmp_unpack_dir, md5sum, sha256sum,
    size, installed_size, priority, source, essential and auto_installed the
    value of [oldpkg] when it is not empty and the value of [newpkg]
    otherwise; the dependency array and its four counts of [oldpkg] when
    their sum is positive and those of [newpkg] otherwise; the provides of
    [oldpkg] when it has more than one entry and those of [newpkg]
    otherwise; the conffiles of [oldpkg] when there are some and those of
    [newpkg] otherwise, and the same for the userfields when
    verbose_status_file is on (they are left alone when it is off); the
    installed files of [newpkg] only when [oldpkg] has none.  What is taken
    over is moved: it is gone from a [newpkg] that is another record. *)
Theorem pkg_merge_rule (conf : opkg_conf) (h : pkg_heap)
  (oldpkg newpkg : pkg_ptr) :
  let h' := fst (pkg_merge conf h oldpkg newpkg) in
  let o := h oldpkg in
  let n := h newpkg in
  let o' := h' oldpkg in
  let n' := h' newpkg in
  snd (pkg_merge conf h oldpkg newpkg) = 0
  /\ (merged_ptr (src o) (src n) (src o')
      /\ merged_ptr (dest o) (dest n) (dest o')
      /\ merged_ptr (architecture o) (architecture n) (architecture o')
      /\ merged_uint (arch_priority o) (arch_priority n) (arch_priority o')
      /\ merged_ptr (section o) (section n) (section o')
      /\ merged_ptr (maintainer o) (maintainer n) (maintainer o')
      /\ merged_ptr (description o) (description n) (description o')
      /\ merged_ptr (filename o) (filename n) (filename o')
      /\ merged_ptr (local_filename o) (local_filename n) (local_filename o')
      /\ merged_ptr (tmp_unpack_dir o) (tmp_unpack_dir n) (tmp_unpack_dir o')
      /\ merged_ptr (md5sum o) (md5sum n) (md5sum o')
      /\ merged_ptr (sha256sum o) (sha256sum n) (sha256sum o')
      /\ merged_int (size o) (size n) (size o')
      /\ merged_int (installed_size o) (installed_size n) (installed_size o')
      /\ merged_ptr (priority o) (priority n) (priority o')
      /\ merged_ptr (source o) (source n) (source o')
      /\ merged_int (essential o) (essential n) (essential o')
      /\ merged_int (auto_installed o) (auto_installed n) (auto_installed o'))
  /\ depends_arrays o'
     = (if (0 <? depends_total o)%N then depends_arrays o
        else depends_arrays n)
  /\ provides_array o'
     = (if (1 <? provides_count o)%N then provides_array o
        else provides_array n)
  /\ conffiles o'
     = match conffiles o with [] => conffiles n | _ :: _ => conffiles o end
  /\ userfields o'
     = (if verbose_status_file conf
        then match userfields o with
             | [] => userfields n
             | _ :: _ => userfields o
             end
        else userfields o)
  /\ installed_files o'
     = match installed_files o with
       | None => installed_files n
       | Some _ => installed_files o
       end
  /\ (oldpkg <> newpkg ->
      depends_arrays n'
      = (if (0 <? depends_total o)%N then depends_arrays n
         else (None, (0, 0, 0, 0))%N)
      /\ provides_array n'
         = (if (1 <? provides_count o)%N then provides_array n
            else (None, 0%N))
      /\ conffiles n'
         = match conffiles o with [] => [] | _ :: _ => conffiles n end
      /\ userfields n'
         = (if verbose_status_file conf
            then match userfields o with
                 | [] => []
                 | _ :: _ => userfields n
                 end
            else userfields n)
      /\ installed_files n'
         = match installed_files o with
           | None => None
           | Some _ => installed_files n
           end).
Proof.
  cbn zeta. unfold pkg_merge.
  destruct (Nat.eqb oldpkg newpkg) eqn:Hsame.
  - apply Nat.eqb_eq in Hsame. subst newpkg. cbn [fst snd].
    split; [reflexivity |].
    split; [unfold merged_ptr, merged_int, merged_uint; tauto |].
    split; [destruct (0 <? depends_total (h oldpkg))%N; reflexivity |].
    split; [destruct (1 <? provides_count (h oldpkg))%N; reflexivity |].
    split; [destruct (conffiles (h oldpkg)); reflexivity |].
    split; [destruct (verbose_status_file conf);
            destruct (userfields (h oldpkg)); reflexivity |].
    split; [destruct (installed_files (h oldpkg)); reflexivity |].
    intros Hne. congruence.
  - apply Nat.eqb_neq in Hsame.
    destruct (pkg_merge_records conf (h oldpkg) (h newpkg)) as [o' n'] eqn:Hrec.
    cbn [fst snd].
    rewrite store_same, (store_other _ newpkg oldpkg) by exact Hsame.
    rewrite store_same.
    unfold pkg_merge_records in Hrec. injection Hrec as <- <-.
    unfold depends_arrays, provides_array.
    cbn [src dest architecture arch_priority section maintainer description
         filename local_filename tmp_unpack_dir md5sum sha256sum size
         installed_size priority source essential auto_installed depends
         depends_count pre_depends_count recommends_count suggests_count
         provides provides_count conffiles userfields installed_files].
    rewrite no_depends_total.
    assert (Hprov : (provides_count (h oldpkg) <=? 1)%N
                    = negb (1 <? provides_count (h oldpkg))%N).
    { destruct (N.leb_spec (provides_count (h oldpkg)) 1);
        destruct (N.ltb_spec 1 (provides_count (h oldpkg))); cbn; lia. }
    rewrite Hprov.
    split; [reflexivity |].
    split; [repeat split; first [apply keep_ptr_merged | apply keep_int_merged
                                | apply keep_uint_merged] |].
    split; [destruct (0 <? depends_total (h oldpkg))%N; reflexivity |].
    split; [destruct (1 <? provides_count (h oldpkg))%N; reflexivity |].
    split; [destruct (conffiles (h oldpkg)); cbn [splice_if_empty fst];
            [apply app_nil_r | reflexivity] |].
    split; [destruct (verbose_status_file conf);
            destruct (userfields (h oldpkg)); cbn [splice_if_empty fst];
            try reflexivity; apply app_nil_r |].
    split; [destruct (installed_files (h oldpkg)); reflexivity |].
    intros _.
    split; [destruct (0 <? depends_total (h oldpkg))%N; reflexivity |].
    split; [destruct (1 <? provides_count (h oldpkg))%N; reflexivity |].
    split; [destruct (conffiles (h oldpkg)); reflexivity |].
    split; [destruct (verbose_status_file conf);
            destruct (userfields (h oldpkg)); reflexivity |].
    destruct (installed_files (h oldpkg)); reflexivity.
Qed.

(** ** The Status line *)

Lemma land_table_zero (sf : Z) (table : list (Z * string)) :
  (forall entry, In entry table -> flag_set sf entry = false) ->
  Z.land sf (fold_right (fun entry acc => Z.lor (fst entry) acc) 0 table) = 0.
Proof.
  induction table as [| entry table IH]; intros Hall; cbn [fold_right].
  - apply Z.land_0_r.
  - rewrite Z.land_lor_distr_r, IH
      by (intros e He; apply Hall; right; exact He).
    rewrite Z.lor_0_r. specialize (Hall entry (or_introl eq_refl)).
    unfold flag_set in Hall. apply negb_false_iff, Z.eqb_eq in Hall. exact Hall.
Qed.

(** *** Strings *)

Lemma string_app_assoc (s t u : string) : (s ++ t) ++ u = s ++ (t ++ u).
Proof.
  induction s as [| c s IH]; cbn; [reflexivity | rewrite IH; reflexivity].
Qed.

Lemma string_app_nil_r (s : string) : s ++ "" = s.
Proof.
  induction s as [| c s IH]; cbn; [reflexivity | rewrite IH; reflexivity].
Qed.

Lemma strn_all (n : nat) (s : string) :
  (String.length s <= n)%nat -> strn n s = s.
Proof.
  revert n. induction s as [| c s IH]; intros n Hn.
  - destruct n; reflexivity.
  - destruct n as [| n]; cbn in Hn; [lia |].
    cbn. rewrite IH by lia. reflexivity.
Qed.

Lemma squash_last_app (s t t' : string) :
  squash_last t = Some t' -> squash_last (s ++ t) = Some (s ++ t').
Proof.
  intros Ht. induction s as [| c s IH]; [exact Ht |].
  cbn [append squash_last]. rewrite IH.
  destruct (s ++ t) eqn:E; [| reflexivity].
  destruct s; [| discriminate E]. cbn in E. subst t. discriminate Ht.
Qed.

(** *** The two loops of [pkg_state_flag_to_str] *)

Section FlagString.
Variable test : Z * string -> bool.

Lemma flag_len (table : list (Z * string)) :
  forall len : nat,
    fold_left
      (fun len entry =>
         if test entry then (len + String.length (snd entry) + 1)%nat else len)
      table len
    = (len + names_len (map snd (filter test table)))%nat.
Proof.
  induction table as [| entry table IH]; intros len; cbn [fold_left filter].
  - cbn. lia.
  - rewrite IH. destruct (test entry); cbn [map names_len]; lia.
Qed.

Lemma flag_str (len : nat) (table : list (Z * string)) :
  (forall text, In text (map snd (filter test table)) ->
                (String.length text + 1 <= len)%nat) ->
  forall str : string,
    fold_left
      (fun str entry =>
         if test entry then strncat (strncat str (snd entry) len) "," len
         else str)
      table str
    = str ++ with_commas (map snd (filter test table)).
Proof.
  induction table as [| entry table IH]; intros Hlen str;
    cbn [fold_left filter].
  - cbn. symmetry. apply string_app_nil_r.
  - cbn [filter] in Hlen. destruct (test entry) eqn:Hset.
    + cbn [map] in Hlen. rewrite IH by (intros t Ht; apply Hlen, in_cons, Ht).
      pose proof (Hlen (snd entry) (in_eq _ _)) as Hentry.
      unfold strncat. rewrite !strn_all by (cbn; lia).
      cbn [map with_commas]. rewrite !string_app_assoc. reflexivity.
    + apply IH. exact Hlen.
Qed.

End FlagString.

Lemma names_len_bound (names : list string) (text : string) :
  In text names -> (String.length text + 1 <= names_len names)%nat.
Proof.
  induction names as [| n names IH]; intros Hin; [destruct Hin |].
  cbn [names_len]. destruct Hin as [-> | Hin]; [lia |].
  specialize (IH Hin). lia.
Qed.

Lemma squash_last_commas (names : list string) :
  names <> [] ->
  squash_last (with_commas names) = Some (String.concat "," names).
Proof.
  induction names as [| n names IH]; intros Hne; [congruence |].
  destruct names as [| m names].
  - cbn [with_commas String.concat append].
    rewrite <- (string_app_nil_r n) at 2.
    apply (squash_last_app n "," ""). reflexivity.
  - cbn [with_commas]. change (String.concat "," (n :: m :: names))
      with (n ++ "," ++ String.concat "," (m :: names)).
    apply squash_last_app, (squash_last_app "," _ _), IH. discriminate.
Qed.

Lemma concat_head (sep n : string) (names : list string) :
  exists rest : string, String.concat sep (n :: names) = n ++ rest.
Proof.
  destruct names as [| m names].
  - exists "". cbn. symmetry. apply string_app_nil_r.
  - eexists. reflexivity.
Qed.

(** No list of flag names other than ok spells ok when joined. *)
Lemma joined_not_ok (names : list string) :
  names <> [] ->
  (forall text, In text names ->
     In text ["reinstreq"; "hold"; "replace"; "noprune"; "prefer";
              "obsolete"; "user"]) ->
  String.concat "," names <> "ok".
Proof.
  destruct names as [| n names]; [congruence |]. intros _ Hin.
  destruct (concat_head "," n names) as [rest ->].
  specialize (Hin n (or_introl eq_refl)). cbn [In] in Hin.
  repeat (destruct Hin as [<- | Hin]; [cbn; discriminate |]). destruct Hin.
Qed.

Section StatusLine.
Context `{StateFlags}.

(** A flag set under the mask belongs to some entry of the table. *)
Lemma masked_flag_in_table (sf : Z) :
  mask_in_table ->
  (forall entry, In entry pkg_state_flag_map ->
                 flag_set (Z.land sf SF_NONVOLATILE_FLAGS) entry = false) ->
  Z.land sf SF_NONVOLATILE_FLAGS = 0.
Proof.
  unfold mask_in_table. intros Hmask Hall.
  apply land_table_zero in Hall.
  rewrite <- Z.land_assoc, Hmask in Hall. exact Hall.
Qed.

Lemma masked_flag (sf value : Z) :
  Z.land (Z.land sf SF_NONVOLATILE_FLAGS) value <> 0 ->
  Z.land sf value <> 0 /\ Z.land SF_NONVOLATILE_FLAGS value <> 0.
Proof.
  intros Hset. split; intros Hzero; apply Hset.
  - rewrite <- Z.land_assoc, (Z.land_comm SF_NONVOLATILE_FLAGS value),
      Z.land_assoc, Hzero. apply Z.land_0_l.
  - rewrite <- Z.land_assoc, Hzero. apply Z.land_0_r.
Qed.

Lemma flag_string_joined (sf : Z) :
  set_flag_names sf <> [] ->
  squash_last
    (fold_left
       (fun str entry =>
          if flag_set sf entry
          then
            strncat
              (strncat str (snd entry)
                 (fold_left
                    (fun len entry0 =>
                       if flag_set sf entry0
                       then (len + String.length (snd entry0) + 1)%nat
                       else len) pkg_state_flag_map 0%nat)) ","
              (fold_left
                 (fun len entry0 =>
                    if flag_set sf entry0
                    then (len + String.length (snd entry0) + 1)%nat
                    else len) pkg_state_flag_map 0%nat)
          else str) pkg_state_flag_map "")
  = Some (String.concat "," (set_flag_names sf)).
Proof.
  intros Hnames. rewrite flag_len, flag_str.
  - cbn [append]. apply squash_last_commas. exact Hnames.
  - intros text Hin. cbn [Nat.add]. apply names_len_bound. exact Hin.
Qed.

Lemma pkg_state_flag_to_str_names (sf : Z) :
  SF_OK = 0 -> mask_in_table ->
  let nv := Z.land sf SF_NONVOLATILE_FLAGS in
  pkg_state_flag_to_str sf
  = Some (if nv =? 0 then "ok" else String.concat "," (set_flag_names nv))
  /\ (nv <> 0 -> String.concat "," (set_flag_names nv) <> "ok").
Proof.
  intros Hok Hmask nv. unfold pkg_state_flag_to_str. fold nv.
  destruct (Z.eqb_spec nv 0) as [Hz | Hnz]; [split; [reflexivity | easy] |].
  assert (Hnames : set_flag_names nv <> []).
  { unfold set_flag_names. intros Hnil. apply map_eq_nil in Hnil.
    apply Hnz, (masked_flag_in_table sf Hmask). fold nv.
    intros entry Hin. destruct (flag_set nv entry) eqn:Hset; [| reflexivity].
    assert (Hf : In entry (filter (flag_set nv) pkg_state_flag_map))
      by (apply filter_In; auto).
    rewrite Hnil in Hf. destruct Hf. }
  split.
  - apply flag_string_joined. exact Hnames.
  - intros _. apply joined_not_ok; [exact Hnames |].
    intros text Hin. unfold set_flag_names in Hin. apply in_map_iff in Hin.
    destruct Hin as ([value text'] & Htext & Hin). cbn [snd] in Htext.
    subst text'. apply filter_In in Hin. destruct Hin as [Hin Hset].
    unfold pkg_state_flag_map in Hin. cbn [In] in Hin.
    destruct Hin as [Hin | Hin].
    + injection Hin as <- <-. unfold flag_set in Hset. cbn [fst] in Hset.
      rewrite Hok, Z.land_0_r in Hset. discriminate Hset.
    + cbn [In].
      repeat (destruct Hin as [Hin | Hin];
              [injection Hin as _ <-; tauto |]). destruct Hin.
Qed.

(** C8. Provided [SF_OK] is the empty set of flags and every flag of the
    mask [SF_NONVOLATILE_FLAGS] has an entry in the table of names, the
    Status line is the word Status followed by the wanted state, the flags
    and the status; the flags are the single word ok exactly when no
    non-volatile flag is set, and otherwise the names, joined by commas in
    the order of the table, of the entries that have a flag set both in the
    package and in the mask, and of these only. *)
Theorem status_line_flags (pkg : pkg_t) :
  SF_OK = 0 -> mask_in_table ->
  let nv := Z.land (state_flag pkg) SF_NONVOLATILE_FLAGS in
  exists flags : string,
    pkg_formatted_field_Status pkg
    = Some ("Status: " ++ pkg_state_want_to_str (state_want pkg) ++ " "
            ++ flags ++ " " ++ pkg_state_status_to_str (state_status pkg)
            ++ newline)
    /\ flags
       = (if nv =? 0 then "ok" else String.concat "," (set_flag_names nv))
    /\ (flags = "ok" <-> nv = 0)
    /\ (forall text : string,
           In text (set_flag_names nv) <->
           exists value : Z,
             In (value, text) pkg_state_flag_map /\ Z.land nv value <> 0)
    /\ (forall value : Z,
           Z.land nv value <> 0 ->
           Z.land (state_flag pkg) value <> 0
           /\ Z.land SF_NONVOLATILE_FLAGS value <> 0).
Proof.
  intros Hok Hmask nv.
  destruct (pkg_state_flag_to_str_names (state_flag pkg) Hok Hmask)
    as [Hstr Hnot_ok].
  fold nv in Hstr, Hnot_ok.
  exists (if nv =? 0 then "ok" else String.concat "," (set_flag_names nv)).
  split; [unfold pkg_formatted_field_Status; rewrite Hstr; reflexivity |].
  split; [reflexivity |]. split; [| split].
  - destruct (Z.eqb_spec nv 0) as [Hz | Hnz]; [tauto |].
    split; [intros Hflags; exfalso; exact (Hnot_ok Hnz Hflags) | tauto].
  - intros text. unfold set_flag_names. rewrite in_map_iff. split.
    + intros ([value text'] & Htext & Hin). cbn [snd] in Htext. subst text'.
      apply filter_In in Hin. destruct Hin as [Hin Hset].
      exists value. split; [exact Hin |].
      unfold flag_set in Hset. cbn [fst] in Hset.
      apply negb_true_iff, Z.eqb_neq in Hset. exact Hset.
    + intros (value & Hin & Hset). exists (value, text).
      split; [reflexivity |]. apply filter_In. split; [exact Hin |].
      unfold flag_set. cbn [fst]. apply negb_true_iff, Z.eqb_neq. exact Hset.
  - intros value. apply masked_flag.
Qed.

End StatusLine.

(** ** Maintainer scripts *)

(** C9. When the path of the script is resolved and no file exists there,
    [pkg_run_script] returns 0, runs no command and reports no error. *)
Theorem pkg_run_script_missing_script (conf : opkg_conf) (env : os_env)
  (pkg : pkg_t) (script args path : string) :
  script_path pkg script = inl path ->
  file_exists env path = false ->
  fst (pkg_run_script conf env pkg script args) = 0
  /\ existsb is_system (snd (pkg_run_script conf env pkg script args)) = false
  /\ existsb is_error (snd (pkg_run_script conf env pkg script args)) = false.
Proof.
  intros Hpath Hfile. unfold pkg_run_script.
  destruct (noaction conf); [repeat split |].
  destruct (is_set (offline_root conf) && negb (force_postinstall conf));
    [repeat split |].
  rewrite Hpath, Hfile. repeat split.
Qed.

(** ** The download gate *)

Ltac split_match :=
  match goal with
  | |- context [negb (?x =? ?y)] => destruct (x =? y) eqn:?; cbn [negb]
  | |- context [match ?x with _ => _ end] =>
      match type of x with
      | sumbool _ _ => fail 1
      | _ => destruct x eqn:?
      end
  end.

(** C6 (amended). [pkg_verify] looks at the file first and the stages of its
    trace never go back; the SHA-256 sum is verified exactly when the size
    is right, SHA-256 support is compiled in and the sum is known; the MD5
    sum exactly when the size is right, no SHA-256 sum is to be verified and
    the MD5 sum is known; the signature is asked for exactly when the size
    is right, the checksum stage is passed (or, no sum being known,
    overridden) and signature checking is on; and the result is 0 exactly
    when the file exists and either force-checksum is set or the size, the
    checksum and, when it is on, the signature check all pass. *)
Theorem pkg_verify_gate (HAVE_SHA256 : bool) (conf : opkg_conf)
  (env : os_env) (pkg : pkg_t) :
  let ret := fst (pkg_verify HAVE_SHA256 conf env pkg) in
  let trace := snd (pkg_verify HAVE_SHA256 conf env pkg) in
  hd_error trace = Some (EvStat (local_filename pkg))
  /\ stages_ascend 1 trace = true
  /\ existsb is_sha256 trace
     = size_ok env pkg && (HAVE_SHA256 && is_set (sha256sum pkg))
  /\ existsb is_md5 trace
     = size_ok env pkg && negb (HAVE_SHA256 && is_set (sha256sum pkg))
       && is_set (md5sum pkg)
  /\ existsb is_signature trace
     = size_ok env pkg && checksum_passed HAVE_SHA256 conf env pkg
       && check_pkg_signature conf
  /\ (ret =? 0)
     = match stat env (local_filename pkg) with
       | StatENOENT => false
       | _ =>
           force_checksum conf
           || (size_ok env pkg && checksum_passed HAVE_SHA256 conf env pkg
               && (negb (check_pkg_signature conf)
                   || (signature_result env pkg =? 0)))
       end.
Proof.
  unfold pkg_verify, size_ok, checksum_passed, checksum_result,
    signature_result, pkg_verify_signature_stage, pkg_verify_fail.
  destruct (stat env (local_filename pkg)) as [st_size | |];
    destruct (force_checksum conf) eqn:Hforce;
    destruct HAVE_SHA256; destruct (sha256sum pkg); destruct (md5sum pkg);
    destruct (check_pkg_signature conf);
    cbn [negb andb orb is_set fst snd];
    repeat split_match;
    cbn [negb andb orb is_set fst snd app hd_error stages_ascend stage existsb
         is_sha256 is_md5 is_signature Nat.leb Z.eqb] in *;
    repeat split; try reflexivity; try congruence.
Qed.

(** What the code at the label [fail] does to a trace without removals. *)
Lemma pkg_verify_fail_cleanup (conf : opkg_conf) (env : os_env) (pkg : pkg_t)
  (err : Z) (local_sig_filename : option string) (trace : list event) :
  existsb is_unlink trace = false ->
  let res := pkg_verify_fail conf env pkg err local_sig_filename trace in
  if force_checksum conf
  then fst res = 0 /\ existsb is_unlink (snd res) = false
  else
    fst res = err
    /\ In (EvUnlink (local_filename pkg)) (snd res)
    /\ (forall sig : string,
           local_sig_filename = Some sig -> file_exists env sig = true ->
           In (EvUnlink (Some sig)) (snd res)).
Proof.
  intros Htrace. unfold pkg_verify_fail.
  destruct (force_checksum conf); cbn [negb].
  - cbn [fst snd]. rewrite existsb_app, Htrace. split; reflexivity.
  - destruct local_sig_filename as [sig |].
    + destruct (file_exists env sig) eqn:Hex; cbn [fst snd];
        (split; [reflexivity |]); (split; [rewrite !in_app_iff; cbn; tauto |]);
        intros sig' Hs Hex'; injection Hs as <-;
        [rewrite !in_app_iff; cbn; tauto | congruence].
    + cbn [fst snd]. split; [reflexivity |].
      split; [rewrite !in_app_iff; cbn; tauto |].
      intros sig Hs. discriminate Hs.
Qed.

(** Every failure of the verification ends at the label [fail], with an
    error code and a trace in which nothing has been removed yet. *)
Lemma pkg_verify_failure_at_fail (HAVE_SHA256 : bool) (conf : opkg_conf)
  (env : os_env) (pkg : pkg_t) :
  verify_failure HAVE_SHA256 conf env pkg ->
  exists (err : Z) (local_sig_filename : option string) (trace : list event),
    pkg_verify HAVE_SHA256 conf env pkg
    = pkg_verify_fail conf env pkg err local_sig_filename trace
    /\ err <> 0
    /\ existsb is_unlink trace = false
    /\ (size_ok env pkg = true ->
        checksum_passed HAVE_SHA256 conf env pkg = true ->
        check_pkg_signature conf = true ->
        local_sig_filename = pkg_download_signature env pkg).
Proof.
  intros Hfail.
  destruct Hfail as [Hstat | st_size Hstat Hsize | err Hsize Hsum Herr
                    | Hsize Hsum Hcheck Hsig];
    unfold pkg_verify, size_ok, checksum_passed, checksum_result,
      signature_result, pkg_verify_signature_stage in *.
  - rewrite Hstat. eexists _, _, _. split; [reflexivity |].
    repeat split; [lia |]. intros Hs. discriminate Hs.
  - rewrite Hstat in *. apply negb_false_iff in Hsize. rewrite Hsize.
    eexists _, _, _. split; [reflexivity |].
    repeat split; [lia |]. intros Hs. discriminate Hs.
  - destruct (stat env (local_filename pkg)) as [st_size | |];
      try discriminate Hsize.
    apply negb_true_iff in Hsize. rewrite Hsize.
    assert (Hne : (err =? 0) = false) by (apply Z.eqb_neq; exact Herr).
    destruct (if HAVE_SHA256 then sha256sum pkg else None) as [sum |];
      [| destruct (md5sum pkg) as [sum |]; [| discriminate Hsum]];
      injection Hsum as Hsum; rewrite Hsum, Hne; cbn [negb];
      eexists _, _, _; (split; [reflexivity |]);
      (repeat split; [exact Herr |]); intros _ Hs; discriminate Hs.
  - destruct (stat env (local_filename pkg)) as [st_size | |];
      try discriminate Hsize.
    apply negb_true_iff in Hsize. rewrite Hsize, Hcheck.
    assert (Hstage :
      forall trace0 : list event,
        existsb is_unlink trace0 = false ->
        exists (err : Z) (trace : list event),
          (let trace := (trace0 ++ [EvDownloadSignature])%list in
           match pkg_download_signature env pkg with
           | Some sig =>
               let err := opkg_verify_signature env (local_filename pkg) sig in
               let trace :=
                 (trace ++ [EvVerifySignature (local_filename pkg) sig])%list in
               if negb (err =? 0)
               then pkg_verify_fail conf env pkg err (Some sig) trace
               else
                 (0,
                  (trace ++ [EvMsg DEBUG "Signature verification passed"])%list)
           | None => pkg_verify_fail conf env pkg (-1) None trace
           end)
          = pkg_verify_fail conf env pkg err
              (pkg_download_signature env pkg) trace
          /\ err <> 0 /\ existsb is_unlink trace = false).
    { intros trace0 Htrace0. cbn zeta.
      destruct (pkg_download_signature env pkg) as [sig |].
      - assert (Hne : (opkg_verify_signature env (local_filename pkg) sig =? 0)
                      = false) by (apply Z.eqb_neq; exact Hsig).
        rewrite Hne. cbn [negb]. eexists _, _. split; [reflexivity |].
        split; [exact Hsig |]. rewrite !existsb_app, Htrace0. reflexivity.
      - eexists _, _. split; [reflexivity |]. split; [lia |].
        rewrite !existsb_app, Htrace0. reflexivity. }
    destruct (if HAVE_SHA256 then sha256sum pkg else None) as [sum |];
      [| destruct (md5sum pkg) as [sum |]]; rewrite Hsum; cbn [negb];
      match goal with
      | |- context [(?t ++ [EvDownloadSignature])%list] =>
          destruct (Hstage t eq_refl) as (err & trace & Heq & Herr & Htr)
      end; cbn zeta in Heq; rewrite Heq;
      exists err, (pkg_download_signature env pkg), trace; auto.
Qed.

(** C7 (amended). When the verification of a package fails on the look at
    the file, on the size, on the checksum or on the signature, [pkg_verify]
    removes the local file, and the signature file when it was fetched and
    exists, and returns an error; under force-checksum it removes nothing
    and returns 0. *)
Theorem pkg_verify_failure_cleanup (HAVE_SHA256 : bool) (conf : opkg_conf)
  (env : os_env) (pkg : pkg_t) :
  verify_failure HAVE_SHA256 conf env pkg ->
  let ret := fst (pkg_verify HAVE_SHA256 conf env pkg) in
  let trace := snd (pkg_verify HAVE_SHA256 conf env pkg) in
  if force_checksum conf
  then ret = 0 /\ existsb is_unlink trace = false
  else
    ret <> 0
    /\ In (EvUnlink (local_filename pkg)) trace
    /\ (forall sig : string,
           size_ok env pkg = true ->
           checksum_passed HAVE_SHA256 conf env pkg = true ->
           check_pkg_signature conf = true ->
           pkg_download_signature env pkg = Some sig ->
           file_exists env sig = true ->
           In (EvUnlink (Some sig)) trace).
Proof.
  intros Hfail.
  destruct (pkg_verify_failure_at_fail _ _ _ _ Hfail)
    as (err & lsf & trace0 & Heq & Herr & Htrace0 & Hsig).
  cbn zeta. rewrite Heq.
  pose proof (pkg_verify_fail_cleanup conf env pkg err lsf trace0 Htrace0)
    as Hclean.
  cbn zeta in Hclean. destruct (force_checksum conf); [exact Hclean |].
  destruct Hclean as (Hret & Hlocal & Hsigfile).
  split; [rewrite Hret; exact Herr |]. split; [exact Hlocal |].
  intros sig Hsz Hsum Hcheck Hdl Hex. apply Hsigfile; [| exact Hex].
  rewrite (Hsig Hsz Hsum Hcheck). exact Hdl.
Qed.

(** ** Strings as C reads them *)

Lemma char_code_inj (a b : ascii) : char_code a = char_code b -> a = b.
Proof.
  unfold char_code. intros Hc. apply N2Z.inj in Hc.
  rewrite <- (ascii_N_embedding a), <- (ascii_N_embedding b), Hc.
  reflexivity.
Qed.

Lemma ascii_eqb_code (x y : ascii) :
  Ascii.eqb x y = (char_code x =? char_code y).
Proof.
  destruct (Ascii.eqb_spec x y) as [-> | Hxy].
  - symmetry. apply Z.eqb_refl.
  - symmetry. apply Z.eqb_neq. intros Hc. apply Hxy, char_code_inj, Hc.
Qed.

Lemma c_string_nul (c : ascii) (s : string) :
  nonzero c = false -> c_string (String c s) = "".
Proof. unfold c_string. cbn [strlen]. intros Hn. rewrite Hn. reflexivity. Qed.

Lemma c_string_cons (c : ascii) (s : string) :
  nonzero c = true -> c_string (String c s) = String c (c_string s).
Proof. unfold c_string. cbn [strlen]. intros Hn. rewrite Hn. reflexivity. Qed.

(** [strcmp] answers 0 exactly on two pointers to the same C string. *)
Lemma strcmp_eq (s1 : string) :
  forall s2 : string, strcmp s1 s2 = 0 <-> c_string s1 = c_string s2.
Proof.
  induction s1 as [| a s1 IH]; intros s2.
  - destruct s2 as [| b s2]; [easy |].
    cbn [strcmp deref]. change (char_code Ascii.zero) with 0.
    destruct (nonzero b) eqn:Hb.
    + rewrite (c_string_cons b s2 Hb). unfold nonzero in Hb.
      apply negb_true_iff in Hb. rewrite Z.eqb_sym, Hb. cbn [negb].
      apply Z.eqb_neq in Hb. split; [lia | discriminate].
    + rewrite (c_string_nul b s2 Hb). unfold nonzero in Hb.
      apply negb_false_iff in Hb. rewrite Z.eqb_sym, Hb. easy.
  - cbn [strcmp deref].
    destruct (nonzero a) eqn:Ha.
    + rewrite (c_string_cons a s1 Ha).
      destruct s2 as [| b s2].
      * cbn [deref]. change (char_code Ascii.zero) with 0.
        unfold nonzero in Ha. apply negb_true_iff in Ha. rewrite Ha.
        cbn [negb]. apply Z.eqb_neq in Ha. split; [lia | discriminate].
      * cbn [deref next].
        destruct (char_code a =? char_code b) eqn:Hab; cbn [negb].
        -- apply Z.eqb_eq, char_code_inj in Hab. subst b.
           rewrite (c_string_cons a s2 Ha).
           unfold nonzero in Ha. apply negb_true_iff in Ha. rewrite Ha.
           rewrite IH. split; [congruence | intros Hs; injection Hs; auto].
        -- apply Z.eqb_neq in Hab. split; [lia |].
           destruct (nonzero b) eqn:Hb.
           ++ rewrite (c_string_cons b s2 Hb). intros Hs.
              injection Hs as Hc _. congruence.
           ++ rewrite (c_string_nul b s2 Hb). discriminate.
    + rewrite (c_string_nul a s1 Ha).
      unfold nonzero in Ha. apply negb_false_iff in Ha.
      destruct s2 as [| b s2].
      * cbn [deref]. change (char_code Ascii.zero) with 0.
        rewrite Ha. cbn [negb]. easy.
      * cbn [deref].
        destruct (char_code a =? char_code b) eqn:Hab; cbn [negb].
        -- rewrite Ha. apply Z.eqb_eq in Hab, Ha.
           rewrite c_string_nul; [easy |].
           unfold nonzero. apply negb_false_iff, Z.eqb_eq. lia.
        -- apply Z.eqb_neq in Hab. apply Z.eqb_eq in Ha.
           rewrite c_string_cons.
           ++ split; [lia | discriminate].
           ++ unfold nonzero. apply negb_true_iff, Z.eqb_neq. lia.
Qed.

Lemma strcmp_eqb (s1 s2 : string) :
  (strcmp s1 s2 =? 0) = String.eqb (c_string s1) (c_string s2).
Proof.
  destruct (String.eqb_spec (c_string s1) (c_string s2)) as [He | He].
  - apply Z.eqb_eq, strcmp_eq, He.
  - apply Z.eqb_neq. intros Hs. apply He, strcmp_eq, Hs.
Qed.

(** The sign of [strcmp] is the order of the bytes of the two strings, the
    shorter one first when it begins the longer one. *)
Lemma strcmp_key (s1 : string) :
  forall s2 : string,
    sign (strcmp s1 s2) = key_compare (name_key s1) (name_key s2).
Proof.
  induction s1 as [| a s1 IH]; intros s2.
  - destruct s2 as [| b s2]; [reflexivity |].
    cbn [strcmp deref name_key key_compare].
    change (char_code Ascii.zero) with 0.
    unfold nonzero. rewrite (Z.eqb_sym 0).
    destruct (char_code b =? 0) eqn:Hb; cbn [negb]; [reflexivity |].
    cbn [zeros_compare]. rewrite sign_sub.
    apply Z.eqb_neq in Hb. pose proof (char_code_range b).
    destruct (Z.compare_spec 0 (char_code b)); try reflexivity; lia.
  - cbn [strcmp deref name_key]. unfold nonzero at 1.
    destruct s2 as [| b s2].
    + cbn [deref]. change (char_code Ascii.zero) with 0.
      destruct (char_code a =? 0) eqn:Ha; cbn [negb]; [reflexivity |].
      rewrite key_compare_nil_r. cbn [zeros_compare]. rewrite sign_sub.
      apply Z.eqb_neq in Ha. pose proof (char_code_range a).
      rewrite (Z.compare_antisym (char_code a) 0).
      destruct (Z.compare_spec (char_code a) 0); try reflexivity; lia.
    + cbn [deref next name_key]. unfold nonzero.
      pose proof (char_code_range a). pose proof (char_code_range b).
      destruct (char_code a =? char_code b) eqn:Hab; cbn [negb].
      * apply Z.eqb_eq in Hab. rewrite <- Hab.
        destruct (char_code a =? 0) eqn:Ha; cbn [negb]; [reflexivity |].
        rewrite key_compare_cons_same. apply IH.
      * rewrite sign_sub. apply Z.eqb_neq in Hab.
        destruct (char_code a =? 0) eqn:Ha; destruct (char_code b =? 0) eqn:Hb;
          cbn [negb]; apply Z.eqb_eq in Ha || apply Z.eqb_neq in Ha;
          apply Z.eqb_eq in Hb || apply Z.eqb_neq in Hb; try lia.
        -- cbn [key_compare zeros_compare]. rewrite Ha.
           destruct (Z.compare_spec 0 (char_code b)); try reflexivity; lia.
        -- rewrite key_compare_nil_r. cbn [zeros_compare]. rewrite Hb.
           rewrite (Z.compare_antisym (char_code a) 0).
           destruct (Z.compare_spec (char_code a) 0); try reflexivity; lia.
        -- cbn [key_compare].
           destruct (Z.compare_spec (char_code a) (char_code b));
             try reflexivity; lia.
Qed.

Lemma strcmp_sign_antisym : cmp_antisym strcmp_sign.
Proof.
  intros a b. unfold strcmp_sign. rewrite !strcmp_key.
  apply key_compare_antisym.
Qed.

Lemma strcmp_sign_trans : cmp_trans strcmp_sign.
Proof.
  intros a b c. unfold strcmp_sign. rewrite !strcmp_key.
  apply key_compare_trans.
Qed.

(** *** Names in front of a pointer *)

Lemma strncmp_prefix (text rest : string) :
  strncmp (text ++ rest) text (strlen text) = 0.
Proof.
  induction text as [| c text IH]; [reflexivity |].
  cbn [strlen]. destruct (nonzero c) eqn:Hc; [| reflexivity].
  cbn [strncmp append deref next]. rewrite Z.eqb_refl. cbn [negb].
  unfold nonzero in Hc. apply negb_true_iff in Hc. rewrite Hc. exact IH.
Qed.

Lemma advance_prefix (text rest : string) :
  advance (String.length text) (text ++ rest) = rest.
Proof. induction text as [| c text IH]; [reflexivity | exact IH]. Qed.

Lemma strncmp_differ (a : string) :
  forall b rest : string,
    differ a b = true -> strncmp (a ++ rest) b (strlen b) <> 0.
Proof.
  induction a as [| x a IH]; intros b rest; [discriminate |].
  destruct b as [| y b]; [discriminate |].
  cbn [differ strlen append]. rewrite ascii_eqb_code.
  destruct (char_code x =? char_code y) eqn:Hxy.
  - intros Hd. apply andb_prop in Hd. destruct Hd as [Hx Hd].
    apply Z.eqb_eq, char_code_inj in Hxy. subst y. rewrite Hx.
    cbn [strncmp deref next]. rewrite Z.eqb_refl. cbn [negb].
    unfold nonzero in Hx. apply negb_true_iff in Hx. rewrite Hx.
    apply IH, Hd.
  - intros Hy. rewrite Hy. cbn [strncmp deref]. rewrite Hxy. cbn [negb].
    apply Z.eqb_neq in Hxy. lia.
Qed.

Lemma strcmp_differ (a : string) :
  forall b rest : string, differ a b = true -> strcmp (a ++ rest) b <> 0.
Proof.
  induction a as [| x a IH]; intros b rest; [discriminate |].
  destruct b as [| y b]; [discriminate |].
  cbn [differ append strcmp deref next]. rewrite ascii_eqb_code.
  destruct (char_code x =? char_code y) eqn:Hxy; cbn [negb].
  - intros Hd. apply andb_prop in Hd. destruct Hd as [Hx Hd].
    unfold nonzero in Hx. apply negb_true_iff in Hx. rewrite Hx.
    apply IH, Hd.
  - intros _. apply Z.eqb_neq in Hxy. lia.
Qed.

(** ** Reading the state triple *)

(** What a table gives for a string: the first entry of that name, none
    when no entry has it. *)
Lemma enum_from_str_find {A : Type} (map : list (A * string)) (unknown : A)
  (error str : string) :
  enum_from_str map unknown error str
  = match find (fun entry => String.eqb (c_string str) (c_string (snd entry)))
            map with
    | Some entry => (fst entry, [])
    | None => (unknown, [EvMsg ERROR (error ++ str)])
    end.
Proof.
  induction map as [| [value text] map IH]; [reflexivity |].
  cbn [enum_from_str find snd fst]. rewrite strcmp_eqb.
  destruct (String.eqb (c_string str) (c_string text)); [reflexivity | exact IH].
Qed.

(** One entry of a table after the other: the string is the name of the
    entry, or the search goes on. *)
Ltac enum_from_str_cases str :=
  repeat match goal with
    | |- context [String.eqb (c_string str) ?text] =>
        let He := fresh "He" in
        destruct (String.eqb_spec (c_string str) text) as [He | He];
        [left; eexists; (split; [| reflexivity]); rewrite He; reflexivity |]
    end;
  right; split; [| reflexivity];
  let v := fresh "v" in
  let Heq := fresh "Heq" in
  intros v Heq; destruct v;
  match goal with
  | Hn : c_string str <> _ |- _ => apply Hn; rewrite <- Heq; reflexivity
  end.

(** X1. The wanted state is read back from its text: [pkg_state_want_from_str]
    gives, without an error, the value that [pkg_state_want_to_str] was given;
    and of any string it gives either the one value whose text the string
    is, or, when the string is the text of no value, [SW_UNKNOWN] together
    with the message of an internal error. *)
Theorem pkg_state_want_round_trip :
  (forall sw : pkg_state_want_t,
     pkg_state_want_from_str (pkg_state_want_to_str sw) = (sw, []))
  /\ (forall str : string,
        (exists sw : pkg_state_want_t,
           pkg_state_want_to_str sw = c_string str
           /\ pkg_state_want_from_str str = (sw, []))
        \/ ((forall sw : pkg_state_want_t,
               pkg_state_want_to_str sw <> c_string str)
            /\ pkg_state_want_from_str str
               = (SW_UNKNOWN,
                  [EvMsg ERROR ("Internal error: state_want=" ++ str)]))).
Proof.
  split.
  - intros sw. destruct sw; reflexivity.
  - intros str. unfold pkg_state_want_from_str.
    rewrite enum_from_str_find. unfold pkg_state_want_map.
    cbn [find snd fst]. enum_from_str_cases str.
Qed.

(** X2. The status is read back from its text: [pkg_state_status_from_str]
    gives, without an error, the value that [pkg_state_status_to_str] was
    given; and of any string it gives either the one value whose text the
    string is, or, when the string is the text of no value,
    [SS_NOT_INSTALLED] together with the message of an internal error. *)
Theorem pkg_state_status_round_trip :
  (forall ss : pkg_state_status_t,
     pkg_state_status_from_str (pkg_state_status_to_str ss) = (ss, []))
  /\ (forall str : string,
        (exists ss : pkg_state_status_t,
           pkg_state_status_to_str ss = c_string str
           /\ pkg_state_status_from_str str = (ss, []))
        \/ ((forall ss : pkg_state_status_t,
               pkg_state_status_to_str ss <> c_string str)
            /\ pkg_state_status_from_str str
               = (SS_NOT_INSTALLED,
                  [EvMsg ERROR ("Internal error: state_status=" ++ str)]))).
Proof.
  split.
  - intros ss. destruct ss; reflexivity.
  - intros str. unfold pkg_state_status_from_str.
    rewrite enum_from_str_find. unfold pkg_state_status_map.
    cbn [find snd fst]. enum_from_str_cases str.
Qed.

(** *** The flags *)

Lemma single_bit_land (x v : Z) :
  single_bit v = true -> Z.land x v = 0 \/ Z.land x v = v.
Proof.
  unfold single_bit. intros Hv. apply andb_prop in Hv.
  destruct Hv as [Hpos Hpow]. apply Z.ltb_lt in Hpos. apply Z.eqb_eq in Hpow.
  pose proof (Z.log2_nonneg v) as Hlog. set (k := Z.log2 v) in *.
  rewrite Hpow. destruct (Z.testbit x k) eqn:Hbit; [right | left];
    apply Z.bits_inj'; intros n Hn;
    rewrite Z.land_spec, Z.pow2_bits_eqb by exact Hlog;
    destruct (Z.eqb_spec k n) as [<- | Hkn];
    rewrite ?Hbit, ?andb_false_r, ?Z.bits_0; reflexivity.
Qed.

(** The flags found in a word are found again when the bits of their
    entries are put together. *)
Lemma selected_bits (sf : Z) (table : list (Z * string)) :
  forallb (fun entry => (fst entry =? 0) || single_bit (fst entry)) table
  = true ->
  forall acc : Z,
    fold_left (fun acc entry => Z.lor acc (fst entry))
      (filter (flag_set sf) table) acc
    = Z.lor acc
        (Z.land sf
           (fold_right (fun entry acc => Z.lor (fst entry) acc) 0 table)).
Proof.
  induction table as [| [value text] table IH]; intros Hbits acc.
  - cbn [filter fold_left fold_right]. rewrite Z.land_0_r, Z.lor_0_r.
    reflexivity.
  - cbn [forallb fst] in Hbits. apply andb_prop in Hbits.
    destruct Hbits as [Hvalue Hbits].
    cbn [filter fold_right fst]. rewrite Z.land_lor_distr_r.
    unfold flag_set at 1. cbn [fst].
    destruct (Z.eqb_spec (Z.land sf value) 0) as [Hz | Hnz]; cbn [negb].
    + rewrite (IH Hbits), Hz, Z.lor_0_l. reflexivity.
    + cbn [fold_left fst]. rewrite (IH Hbits).
      apply orb_prop in Hvalue. destruct Hvalue as [Hzero | Hbit].
      * apply Z.eqb_eq in Hzero. subst value. rewrite Z.land_0_r in Hnz.
        congruence.
      * destruct (single_bit_land sf value Hbit) as [Hl | Hl];
          [congruence |].
        rewrite Hl, Z.lor_assoc. reflexivity.
Qed.

(** The loop of [pkg_state_flag_from_str] on the names of any choice of
    entries, joined by commas in the order of the table. *)
Lemma pkg_state_flag_from_str_loop_joined (test : Z * string -> bool)
  (table : list (Z * string)) :
  names_apart table = true ->
  forall sf : Z,
    filter test table <> [] ->
    pkg_state_flag_from_str_loop table sf
      (String.concat "," (map snd (filter test table)))
    = fold_left (fun acc entry => Z.lor acc (fst entry)) (filter test table)
        sf.
Proof.
  induction table as [| [value text] table IH]; intros Hnames sf Hsel;
    [cbn [filter] in Hsel; congruence |].
  cbn [names_apart] in Hnames. apply andb_prop in Hnames.
  destruct Hnames as [Hnames Hrest]. apply andb_prop in Hnames.
  destruct Hnames as [Hlen Hdiffer]. apply Nat.eqb_eq in Hlen.
  specialize (IH Hrest).
  cbn [filter] in *. cbn [pkg_state_flag_from_str_loop].
  destruct (test (value, text)).
  - cbn [map snd fold_left fst].
    destruct (filter test table) as [| entry sel].
    + cbn [map String.concat fold_left].
      pose proof (strncmp_prefix text "") as Hcmp.
      pose proof (advance_prefix text "") as Hadv.
      rewrite string_app_nil_r in Hcmp, Hadv.
      rewrite Hcmp, Hlen, Hadv. reflexivity.
    + cbn [map String.concat] in *.
      rewrite strncmp_prefix, Hlen, advance_prefix.
      cbn [append deref next Z.eqb]. apply IH. discriminate.
  - destruct (filter test table) as [| entry sel] eqn:Hfilter;
      [congruence |].
    assert (Hin : In entry table).
    { assert (Hf : In entry (filter test table))
        by (rewrite Hfilter; apply in_eq).
      apply filter_In in Hf. tauto. }
    rewrite forallb_forall in Hdiffer. specialize (Hdiffer entry Hin).
    cbn [map]. destruct (concat_head "," (snd entry) (map snd sel))
      as [rest Hhead].
    pose proof (strncmp_differ (snd entry) text rest Hdiffer) as Hcmp.
    rewrite <- Hhead in Hcmp. apply Z.eqb_neq in Hcmp. rewrite Hcmp.
    apply IH. discriminate.
Qed.

Section FlagsRead.
Context `{StateFlags}.

Lemma pkg_state_flag_map_apart : names_apart pkg_state_flag_map = true.
Proof. reflexivity. Qed.

(** X3. The flags are read back from their text.  Provided [SF_OK] is the
    empty set of flags, every flag of the mask [SF_NONVOLATILE_FLAGS] has an
    entry in the table and every entry of the table is one bit,
    [pkg_state_flag_to_str] returns a string for every word of flags, and
    [pkg_state_flag_from_str] reads from that string the non-volatile flags
    of the word, these and no other. *)
Theorem pkg_state_flag_round_trip (sf : Z) :
  SF_OK = 0 -> mask_in_table -> flags_are_bits ->
  exists text : string,
    pkg_state_flag_to_str sf = Some text
    /\ pkg_state_flag_from_str text = Z.land sf SF_NONVOLATILE_FLAGS.
Proof.
  intros Hok Hmask Hbits.
  destruct (pkg_state_flag_to_str_names sf Hok Hmask) as [Hstr _].
  cbv zeta in Hstr. set (nv := Z.land sf SF_NONVOLATILE_FLAGS) in *.
  eexists. split; [exact Hstr |].
  destruct (Z.eqb_spec nv 0) as [Hz | Hnz].
  - rewrite Hz. unfold pkg_state_flag_from_str. cbn. exact Hok.
  - assert (Hsel : filter (flag_set nv) pkg_state_flag_map <> []).
    { intros Hnil. apply Hnz. unfold nv.
      apply (masked_flag_in_table sf Hmask). fold nv. intros entry Hin.
      destruct (flag_set nv entry) eqn:Hset; [| reflexivity].
      assert (Hf : In entry (filter (flag_set nv) pkg_state_flag_map))
        by (apply filter_In; auto).
      rewrite Hnil in Hf. destruct Hf. }
    unfold set_flag_names, pkg_state_flag_from_str.
    assert (Hnot_ok :
              strcmp (String.concat ","
                        (map snd (filter (flag_set nv) pkg_state_flag_map)))
                "ok" <> 0).
    { destruct (filter (flag_set nv) pkg_state_flag_map)
        as [| entry sel] eqn:Hfilter; [congruence |].
      assert (Hf : In entry (filter (flag_set nv) pkg_state_flag_map))
        by (rewrite Hfilter; apply in_eq).
      apply filter_In in Hf. destruct Hf as [Hin Hset].
      cbn [map]. destruct (concat_head "," (snd entry) (map snd sel))
        as [rest ->].
      apply strcmp_differ.
      unfold pkg_state_flag_map in Hin. cbn [In] in Hin.
      destruct Hin as [<- | Hin].
      - unfold flag_set in Hset. cbn [fst] in Hset.
        rewrite Hok, Z.land_0_r in Hset. discriminate Hset.
      - repeat (destruct Hin as [<- | Hin]; [reflexivity |]). destruct Hin. }
    apply Z.eqb_neq in Hnot_ok. rewrite Hnot_ok.
    rewrite pkg_state_flag_from_str_loop_joined
      by (exact pkg_state_flag_map_apart || exact Hsel).
    rewrite (selected_bits nv pkg_state_flag_map Hbits), Hok, Z.lor_0_l.
    unfold nv. rewrite <- Z.land_assoc. unfold mask_in_table in Hmask.
    rewrite Hmask. reflexivity.
Qed.

End FlagsRead.

(** ** Version strings cut in two *)

Lemma key_compare_app_same (k a b : list Z) :
  key_compare (k ++ a) (k ++ b) = key_compare a b.
Proof.
  induction k as [| x k IH]; [reflexivity |].
  cbn [app]. rewrite key_compare_cons_same. exact IH.
Qed.

Lemma digit_count_nondigit (s u : string) :
  isdigit (deref u) = false -> digit_count (s ++ u) = digit_count s.
Proof.
  intros Hu. induction s as [| c s IH].
  - destruct u as [| d u]; [reflexivity |]. cbn [append digit_count].
    cbn [deref] in Hu. rewrite Hu. reflexivity.
  - cbn [append digit_count]. rewrite IH. reflexivity.
Qed.

Lemma cut_before_nondigit (s u : string) :
  isdigit (deref u) = false -> cut_between_runs s u.
Proof.
  intros Hu. induction s as [| c s IH]; [exact I |].
  split; [apply digit_count_nondigit, Hu | exact IH].
Qed.

Lemma digit_count_ends_run (s u : string) :
  s <> "" -> ends_run s = true -> digit_count (s ++ u) = digit_count s.
Proof.
  induction s as [| c s IH]; [congruence |]. intros _ He.
  cbn [append digit_count]. destruct (isdigit c) eqn:Hc; [| reflexivity].
  destruct s as [| d s];
    [cbn [ends_run] in He; rewrite Hc in He; discriminate |].
  rewrite IH; [reflexivity | discriminate | exact He].
Qed.

Lemma cut_after_run (s u : string) :
  ends_run s = true -> cut_between_runs s u.
Proof.
  induction s as [| c s IH]; [intros _; exact I |]. intros He.
  split; [apply digit_count_ends_run; [discriminate | exact He] |].
  apply IH. destruct s; [reflexivity | exact He].
Qed.

Lemma mode_after_run (s : string) :
  forall m : key_mode,
    s <> "" -> ends_run s = true -> mode_after m s = InRun.
Proof.
  induction s as [| c s IH]; [congruence |]. intros m _ He.
  cbn [mode_after]. destruct s as [| d s].
  - cbn [ends_run] in He. apply negb_true_iff in He. rewrite He. reflexivity.
  - apply IH; [discriminate | exact He].
Qed.

Section VersionParts.
Context `{CharAbi}.

(** The key of two strings put end to end, when no run of digits goes
    across. *)
Lemma version_key_app (s u : string) :
  forall m : key_mode,
    nul_free s = true -> cut_between_runs s u ->
    version_key m (s ++ u)
    = (version_key m s ++ version_key (mode_after m s) u)%list.
Proof.
  induction s as [| c s IH]; intros m Hnul Hcut; [reflexivity |].
  cbn [nul_free] in Hnul. apply andb_prop in Hnul.
  destruct Hnul as [Hc Hnul]. destruct Hcut as [Hcount Hcut].
  cbn [append] in Hcount.
  cbn [append version_key mode_after]. rewrite Hc. cbn [negb].
  rewrite Hcount.
  destruct (isdigit c).
  - destruct m; destruct (Ascii.eqb c "0");
      rewrite IH by assumption; reflexivity.
  - destruct m; rewrite IH by assumption; reflexivity.
Qed.

Lemma version_key_after_prefix (p u : string) :
  nul_free p = true -> ends_run p = true ->
  version_key InRun (p ++ u)
  = (version_key InRun p ++ version_key InRun u)%list.
Proof.
  intros Hnul Hend.
  rewrite (version_key_app p u InRun Hnul (cut_after_run p u Hend)).
  destruct p as [| c p]; [reflexivity |].
  rewrite mode_after_run; [reflexivity | discriminate | exact Hend].
Qed.

Lemma order_positive (c : ascii) :
  nonzero c = true -> isdigit c = false -> Ascii.eqb c "~" = false ->
  0 < order c.
Proof.
  intros Hn Hd Ht. unfold order. rewrite Ht, Hd, Hn. cbn [negb].
  pose proof (char_to_int_range c) as Hr.
  destruct (isalpha c) eqn:Ha; [| lia].
  apply isalpha_code in Ha. rewrite char_to_int_small by lia. lia.
Qed.

(** A zero in front of a run of digits leaves the key as it is. *)
Lemma version_key_leading_zero (s : string) :
  isdigit (deref s) = true ->
  version_key InRun (String "0" s) = version_key InRun s.
Proof.
  destruct s as [| c s]; [discriminate |]. cbn [deref]. intros Hc.
  pose proof (isdigit_nonzero c Hc) as Hn.
  cbn [version_key]. rewrite Hc, Hn. reflexivity.
Qed.

(** X4. Zeros in front of a number do not count.  When a version string is
    cut in front of a run of digits (the part before the cut being empty or
    ending in a character that is no digit), a zero put in at the cut gives
    a string that [verrevcmp] finds equal to the first, and that compares
    with any other string, on either side, as the first does. *)
Theorem verrevcmp_leading_zero (p s : string) (other : option string) :
  nul_free p = true -> ends_run p = true -> isdigit (deref s) = true ->
  verrevcmp (Some (p ++ String "0" s)) (Some (p ++ s)) = 0
  /\ sign (verrevcmp (Some (p ++ String "0" s)) other)
     = sign (verrevcmp (Some (p ++ s)) other)
  /\ sign (verrevcmp other (Some (p ++ String "0" s)))
     = sign (verrevcmp other (Some (p ++ s))).
Proof.
  intros Hnul Hend Hs.
  assert (Hkey : version_key InRun (p ++ String "0" s)
                 = version_key InRun (p ++ s)).
  { rewrite !version_key_after_prefix by assumption.
    rewrite (version_key_leading_zero s Hs). reflexivity. }
  split; [| split].
  - apply sign_eq. rewrite verrevcmp_key. cbn [or_empty]. rewrite Hkey.
    rewrite <- (verrevcmp_key (Some (p ++ s)) (Some (p ++ s))).
    rewrite verrevcmp_refl. reflexivity.
  - rewrite !verrevcmp_key. cbn [or_empty]. rewrite Hkey. reflexivity.
  - rewrite !verrevcmp_key. cbn [or_empty]. rewrite Hkey. reflexivity.
Qed.

(** X5. What is put after a version.  A version string followed by text
    that begins with a tilde sorts before the string itself, whatever the
    text goes on with; followed by text that begins with any other character
    that is no digit, it sorts after it. *)
Theorem verrevcmp_suffix (s t : string) (c : ascii) :
  nul_free s = true -> nonzero c = true -> isdigit c = false ->
  if Ascii.eqb c "~"
  then verrevcmp (Some (s ++ String c t)) (Some s) < 0
  else verrevcmp (Some (s ++ String c t)) (Some s) > 0.
Proof.
  intros Hnul Hc Hd.
  assert (Hu : isdigit (deref (String c t)) = false) by exact Hd.
  pose proof (verrevcmp_key (Some (s ++ String c t)) (Some s)) as Hsign.
  cbn [or_empty] in Hsign.
  rewrite (version_key_app s (String c t) InRun Hnul
             (cut_before_nondigit s (String c t) Hu)) in Hsign.
  rewrite <- (app_nil_r (version_key InRun s)) in Hsign at 2.
  rewrite key_compare_app_same, key_compare_nil_r in Hsign.
  assert (Hkey : zeros_compare (version_key (mode_after InRun s) (String c t))
                 = (0 ?= order c)).
  { cbn [version_key]. rewrite Hc, Hd. cbn [negb].
    assert (Hnz : order c <> 0).
    { apply order_in_run. unfold stops_run. rewrite Hc, Hd. reflexivity. }
    destruct (mode_after InRun s); cbn [zeros_compare];
      rewrite ?Z.compare_refl; cbn [zeros_compare];
      destruct (Z.compare_spec 0 (order c)); try reflexivity; lia. }
  rewrite Hkey in Hsign. unfold sign in Hsign.
  destruct (Ascii.eqb c "~") eqn:Ht.
  - apply Ascii.eqb_eq in Ht. subst c.
    change (order "~"%char) with (-1) in Hsign. cbn in Hsign.
    apply Z.compare_lt_iff in Hsign. exact Hsign.
  - pose proof (order_positive c Hc Hd Ht) as Hpos.
    apply Z.compare_lt_iff in Hpos. rewrite Hpos in Hsign. cbn in Hsign.
    apply Z.compare_gt_iff in Hsign. lia.
Qed.

End VersionParts.

(** ** Version constraints against each other *)

Section ConstraintAlgebra.
Context `{CharAbi}.

(** X6. Of the three relations [<<], [=] and [>>] exactly one holds between
    two packages; [<=] holds exactly when [<<] or [=] does, and exactly when
    [>>] does not; [>=] holds exactly when [>>] or [=] does, and exactly
    when [<<] does not. *)
Theorem pkg_version_satisfied_trichotomy (it ref : pkg_t) :
  let holds op := fst (pkg_version_satisfied it ref op) in
  holds "<<" + holds "=" + holds ">>" = 1
  /\ holds "<=" = holds "<<" + holds "="
  /\ holds ">=" = holds ">>" + holds "="
  /\ holds "<=" = 1 - holds ">>"
  /\ holds ">=" = 1 - holds "<<".
Proof.
  intros holds. unfold holds, pkg_version_satisfied.
  cbn [str_to_constraint fst]. set (r := pkg_compare_versions it ref).
  unfold c_bool, Z.geb, Z.gtb, Z.leb, Z.ltb, Z.eqb.
  destruct r; cbn; repeat split; reflexivity.
Qed.

(** X7. Swapping the two packages turns a relation round: on packages whose
    epoch is a non-negative [int] and whose force_reinstall flag is 0 or 1,
    [it << ref] holds exactly when [ref >> it] does, [it <= ref] exactly
    when [ref >= it] does, [=] holds one way exactly when it holds the
    other, and every package is [=] to itself. *)
Theorem pkg_version_satisfied_mirror (it ref : pkg_t) :
  version_fields_ok it -> version_fields_ok ref ->
  let holds a b op := fst (pkg_version_satisfied a b op) in
  holds it ref "<<" = holds ref it ">>"
  /\ holds it ref "<=" = holds ref it ">="
  /\ holds it ref "=" = holds ref it "="
  /\ holds it it "=" = 1.
Proof.
  intros Hit Href holds. unfold holds, pkg_version_satisfied.
  cbn [str_to_constraint fst].
  pose proof (pkg_compare_versions_sign it ref Hit Href) as Hfwd.
  pose proof (pkg_compare_versions_sign ref it Href Hit) as Hbwd.
  pose proof (pkg_compare_versions_sign it it Hit Hit) as Hself.
  fold (compare_with_reinstall it ref) in Hfwd.
  fold (compare_with_reinstall ref it) in Hbwd.
  fold (compare_with_reinstall it it) in Hself.
  pose proof (compare_with_reinstall_antisym it it) as Hrefl.
  rewrite (compare_with_reinstall_antisym it ref) in Hbwd.
  rewrite <- Hfwd in Hbwd.
  unfold sign in *. unfold c_bool, Z.geb, Z.gtb, Z.leb, Z.ltb.
  rewrite !Z.eqb_compare.
  replace (pkg_compare_versions it it ?= 0) with Eq
    by (rewrite Hself; destruct (compare_with_reinstall it it); easy).
  rewrite Hbwd.
  destruct (pkg_compare_versions it ref ?= 0); repeat split; reflexivity.
Qed.

End ConstraintAlgebra.

(** ** Sorting packages *)

Lemma N_compare_antisym : cmp_antisym N.compare.
Proof. intros a b. apply N.compare_antisym. Qed.

Lemma N_compare_trans : cmp_trans N.compare.
Proof.
  intros a b c.
  destruct (N.compare_spec a b); destruct (N.compare_spec b c);
    destruct (N.compare_spec a c); try easy; lia.
Qed.

Section PackageOrder.
Context `{CharAbi}.

Lemma package_order_antisym : cmp_antisym package_order.
Proof.
  unfold package_order.
  apply (then_by_antisym
           (fun a b => strcmp_sign (or_empty (name a)) (or_empty (name b)))).
  - apply (on_field_antisym (fun p => or_empty (name p))), strcmp_sign_antisym.
  - apply (then_by_antisym compare_with_reinstall
             (fun a b => (arch_priority a ?= arch_priority b)%N)).
    + apply compare_with_reinstall_antisym.
    + apply (on_field_antisym arch_priority), N_compare_antisym.
Qed.

Lemma package_order_trans : cmp_trans package_order.
Proof.
  unfold package_order.
  apply (then_by_trans
           (fun a b => strcmp_sign (or_empty (name a)) (or_empty (name b)))).
  - apply (on_field_antisym (fun p => or_empty (name p))), strcmp_sign_antisym.
  - apply (on_field_trans (fun p => or_empty (name p))), strcmp_sign_trans.
  - apply (then_by_trans compare_with_reinstall
             (fun a b => (arch_priority a ?= arch_priority b)%N)).
    + apply compare_with_reinstall_antisym.
    + apply compare_with_reinstall_trans.
    + apply (on_field_trans arch_priority), N_compare_trans.
Qed.

Lemma pkg_name_version_and_architecture_compare_sign (a b : pkg_t) :
  sortable a -> sortable b ->
  sign (fst (pkg_name_version_and_architecture_compare a b))
  = package_order a b
  /\ snd (pkg_name_version_and_architecture_compare a b) = [].
Proof.
  intros (Hna & Hpa & Hfa) (Hnb & Hpb & Hfb).
  unfold pkg_name_version_and_architecture_compare, package_order.
  destruct (name a) as [a_name |]; [| congruence].
  destruct (name b) as [b_name |]; [| congruence].
  cbn [or_empty]. unfold strcmp_sign.
  destruct (strcmp a_name b_name =? 0) eqn:Hname; cbn [negb].
  - apply Z.eqb_eq in Hname. rewrite Hname. cbn [sign then_by].
    change (sign 0) with Eq. cbn [then_by].
    pose proof (pkg_compare_versions_sign a b Hfa Hfb) as Hver.
    fold (compare_with_reinstall a b) in Hver. rewrite <- Hver.
    destruct (pkg_compare_versions a b =? 0) eqn:Hv; cbn [negb].
    + apply Z.eqb_eq in Hv. rewrite Hv. change (sign 0) with Eq.
      cbn [then_by].
      apply N.eqb_neq in Hpa, Hpb. rewrite Hpa, Hpb. cbn [orb].
      destruct (N.compare_spec (arch_priority a) (arch_priority b))
        as [He | Hl | Hg].
      * rewrite He, N.ltb_irrefl. split; reflexivity.
      * apply N.ltb_lt in Hl as Hl'. rewrite Hl'.
        assert (Hn : (arch_priority b <? arch_priority a)%N = false)
          by (apply N.ltb_ge; lia).
        rewrite Hn. split; reflexivity.
      * apply N.ltb_lt in Hg. rewrite Hg. split; reflexivity.
    + pose proof (nonzero_sign _ Hv).
      split; [| reflexivity]. cbn [fst].
      destruct (sign (pkg_compare_versions a b)); easy.
  - pose proof (nonzero_sign _ Hname). split; [| reflexivity]. cbn [fst].
    destruct (sign (strcmp a_name b_name)); easy.
Qed.

(** X8. The comparison that sorts a vector of packages is an order.  On
    packages that have a name, an architecture of non-zero priority, an
    epoch that is a non-negative [int] and a force_reinstall flag of 0 or 1,
    the sign of [pkg_name_version_and_architecture_compare] is that of the
    names compared byte by byte, then of the versions, then of the
    priorities of the architectures; no error is logged; the sign turns
    round when the arguments are swapped, and the comparison is
    transitive. *)
Theorem pkg_name_version_and_architecture_compare_order (a b c : pkg_t) :
  sortable a -> sortable b -> sortable c ->
  let cmp x y := sign (fst (pkg_name_version_and_architecture_compare x y)) in
  cmp a b = package_order a b
  /\ snd (pkg_name_version_and_architecture_compare a b) = []
  /\ cmp b a = CompOpp (cmp a b)
  /\ (cmp a b <> Gt -> cmp b c <> Gt -> cmp a c <> Gt).
Proof.
  intros Ha Hb Hc cmp. unfold cmp.
  destruct (pkg_name_version_and_architecture_compare_sign a b Ha Hb)
    as [Hab Hquiet].
  destruct (pkg_name_version_and_architecture_compare_sign b a Hb Ha)
    as [Hba _].
  destruct (pkg_name_version_and_architecture_compare_sign b c Hb Hc)
    as [Hbc _].
  destruct (pkg_name_version_and_architecture_compare_sign a c Ha Hc)
    as [Hac _].
  rewrite Hab, Hba, Hbc, Hac.
  split; [reflexivity |]. split; [exact Hquiet |].
  split; [apply package_order_antisym | apply package_order_trans].
Qed.

End PackageOrder.

(** X9. Abstract packages are sorted by name.  On abstract packages that
    have a name, [abstract_pkg_name_compare] logs no error, is 0 exactly
    when the two names are the same C string, has the sign of the names
    compared byte by byte, turns its sign round when the arguments are
    swapped, and is transitive. *)
Theorem abstract_pkg_name_compare_order (a b c : abstract_pkg_t)
  (a_name b_name c_name : string) :
  ab_name a = Some a_name -> ab_name b = Some b_name ->
  ab_name c = Some c_name ->
  let cmp x y := sign (fst (abstract_pkg_name_compare x y)) in
  snd (abstract_pkg_name_compare a b) = []
  /\ (fst (abstract_pkg_name_compare a b) = 0
      <-> c_string a_name = c_string b_name)
  /\ cmp a b = key_compare (name_key a_name) (name_key b_name)
  /\ cmp b a = CompOpp (cmp a b)
  /\ (cmp a b <> Gt -> cmp b c <> Gt -> cmp a c <> Gt).
Proof.
  intros Ha Hb Hc cmp. unfold cmp, abstract_pkg_name_compare.
  rewrite Ha, Hb, Hc. cbn [fst snd].
  split; [reflexivity |]. split; [apply strcmp_eq |].
  split; [apply strcmp_key |].
  split; [apply strcmp_sign_antisym | apply strcmp_sign_trans].
Qed.

(** ** Looking a name up *)

Lemma conffile_list_find_first (iter : nv_pair_list) (file_name : string) :
  match conffile_list_find iter file_name with
  | Some conffile =>
      exists before after : nv_pair_list,
        iter = (before ++ conffile :: after)%list
        /\ c_string (fst conffile) = c_string file_name
        /\ forall entry, In entry before ->
                         c_string (fst entry) <> c_string file_name
  | None =>
      forall entry, In entry iter ->
                    c_string (fst entry) <> c_string file_name
  end.
Proof.
  induction iter as [| conffile iter IH]; cbn [conffile_list_find];
    [intros entry [] |].
  destruct (Z.eqb_spec (strcmp (fst conffile) file_name) 0) as [Hz | Hnz].
  - exists [], iter. split; [reflexivity |].
    split; [apply strcmp_eq, Hz | intros entry []].
  - assert (Hname : c_string (fst conffile) <> c_string file_name)
      by (intros He; apply Hnz, strcmp_eq, He).
    destruct (conffile_list_find iter file_name) as [found |].
    + destruct IH as (before & after & Hiter & Hfound & Hbefore).
      exists (conffile :: before), after. split; [rewrite Hiter; reflexivity |].
      split; [exact Hfound |].
      intros entry [<- | Hin]; [exact Hname | apply Hbefore, Hin].
    + intros entry [<- | Hin]; [exact Hname | apply IH, Hin].
Qed.

(** X10. [pkg_get_conffile] returns the first conffile of the package whose
    name is the file name asked for, and nothing when the package has no
    conffile of that name, or when there is no package. *)
Theorem pkg_get_conffile_first (pkg : pkg_t) (file_name : string) :
  pkg_get_conffile None file_name = None
  /\ match pkg_get_conffile (Some pkg) file_name with
     | Some conffile =>
         exists before after : nv_pair_list,
           conffiles pkg = (before ++ conffile :: after)%list
           /\ c_string (fst conffile) = c_string file_name
           /\ forall entry, In entry before ->
                            c_string (fst entry) <> c_string file_name
     | None =>
         forall entry, In entry (conffiles pkg) ->
                       c_string (fst entry) <> c_string file_name
     end.
Proof.
  split; [reflexivity |]. apply conffile_list_find_first.
Qed.

Lemma arch_list_find_listed (arch_list : nv_pair_list) (pkg : pkg_t)
  (arch : string) :
  (fst (arch_list_find arch_list pkg arch) = 1
   /\ exists nv, In nv arch_list /\ c_string (fst nv) = c_string arch)
  \/ (fst (arch_list_find arch_list pkg arch) = 0
      /\ forall nv, In nv arch_list -> c_string (fst nv) <> c_string arch).
Proof.
  induction arch_list as [| nv arch_list IH]; cbn [arch_list_find].
  - right. split; [reflexivity | intros nv []].
  - destruct (Z.eqb_spec (strcmp (fst nv) arch) 0) as [Hz | Hnz].
    + left. split; [reflexivity |]. exists nv.
      split; [apply in_eq | apply strcmp_eq, Hz].
    + destruct IH as [(Hret & nv' & Hin & Hname) | (Hret & Hnone)].
      * left. split; [exact Hret |]. exists nv'.
        split; [apply in_cons, Hin | exact Hname].
      * right. split; [exact Hret |].
        intros nv' [<- | Hin]; [| apply Hnone, Hin].
        intros He. apply Hnz, strcmp_eq, He.
Qed.

Lemma arch_list_find_quiet (arch_list : nv_pair_list) (pkg : pkg_t)
  (arch : string) :
  existsb is_error (snd (arch_list_find arch_list pkg arch)) = false.
Proof.
  induction arch_list as [| nv arch_list IH]; [reflexivity |].
  cbn [arch_list_find].
  destruct (strcmp (fst nv) arch =? 0); [reflexivity | exact IH].
Qed.

(** X11. [pkg_arch_supported] answers 1 exactly when the package names no
    architecture or names one that is in the list of the configuration; it
    answers 0 otherwise, and never logs an error. *)
Theorem pkg_arch_supported_listed (arch_list : nv_pair_list) (pkg : pkg_t) :
  (fst (pkg_arch_supported arch_list pkg) = 1
   <-> (architecture pkg = None
        \/ exists nv arch,
             architecture pkg = Some arch /\ In nv arch_list
             /\ c_string (fst nv) = c_string arch))
  /\ (fst (pkg_arch_supported arch_list pkg) = 0
      \/ fst (pkg_arch_supported arch_list pkg) = 1)
  /\ existsb is_error (snd (pkg_arch_supported arch_list pkg)) = false.
Proof.
  unfold pkg_arch_supported. destruct (architecture pkg) as [arch |].
  - split; [| split; [| apply arch_list_find_quiet]];
      destruct (arch_list_find_listed arch_list pkg arch)
        as [(Hret & nv & Hin & Hname) | (Hret & Hnone)]; rewrite Hret;
      try tauto.
    + split; [intros _ | reflexivity]. right. exists nv, arch. tauto.
    + split; [discriminate |].
      intros [Hnone' | (nv & arch' & Harch & Hin & Hname)];
        [discriminate |].
      injection Harch as <-. exfalso. exact (Hnone nv Hin Hname).
  - cbn [fst snd]. split; [| split; [tauto | reflexivity]].
    split; [tauto | reflexivity].
Qed.

(** ** When the shell runs *)

(** X12. [pkg_run_script] runs a command exactly when the configuration
    does not keep it from acting (noaction; an offline root without
    force_postinstall), the path of the script is resolved and a file exists
    there.  It then runs one command, /bin/sh -c with the path and the
    arguments, and returns the status of that command, logging an error
    exactly when the status is not 0 and there is no offline root.
    Otherwise it runs nothing and returns 0 without an error, unless the
    path cannot be resolved, which is an internal error answered by -1. *)
Theorem pkg_run_script_shell (conf : opkg_conf) (env : os_env) (pkg : pkg_t)
  (script args : string) :
  let ret := fst (pkg_run_script conf env pkg script args) in
  let trace := snd (pkg_run_script conf env pkg script args) in
  let skipped :=
    noaction conf
    || (is_set (offline_root conf) && negb (force_postinstall conf)) in
  match script_path pkg script with
  | inl path =>
      let argv := ["/bin/sh"; "-c"; path ++ " " ++ args] in
      if negb skipped && file_exists env path then
        filter is_system trace = [EvSystem argv]
        /\ ret = xsystem env argv
        /\ existsb is_error trace
           = negb (ret =? 0) && negb (is_set (offline_root conf))
      else
        filter is_system trace = [] /\ ret = 0
        /\ existsb is_error trace = false
  | inr internal_error =>
      filter is_system trace = []
      /\ if skipped then ret = 0 /\ existsb is_error trace = false
         else ret = -1 /\ trace = [EvMsg ERROR internal_error]
  end.
Proof.
  unfold pkg_run_script.
  destruct (noaction conf); cbn [orb negb andb];
    [destruct (script_path pkg script); repeat split |].
  destruct (is_set (offline_root conf)) eqn:Hoff;
    destruct (force_postinstall conf); cbn [orb negb andb fst snd];
    destruct (script_path pkg script) as [path | internal_error];
    cbn [orb negb andb fst snd filter is_system existsb is_error];
    try (repeat split; reflexivity);
    destruct (file_exists env path); cbn [negb fst snd];
    try (repeat split; reflexivity);
    destruct (xsystem env ["/bin/sh"; "-c"; path ++ " " ++ args] =? 0) eqn:Hx;
    cbn [negb fst snd app filter is_system existsb is_error orb andb];
    rewrite ?Hx; cbn [negb andb];
    repeat split; try reflexivity;
    apply Z.eqb_eq in Hx; congruence.
Qed.

(** ** What the download gate removes *)

Lemma unlinked_app (t1 t2 : list event) :
  unlinked (t1 ++ t2) = (unlinked t1 ++ unlinked t2)%list.
Proof. apply flat_map_app. Qed.

(** What the code at the label [fail] removes. *)
Lemma pkg_verify_fail_removals (conf : opkg_conf) (env : os_env)
  (pkg : pkg_t) (err : Z) (local_sig_filename : option string)
  (trace : list event) :
  unlinked trace = [] -> err <> 0 ->
  let res := pkg_verify_fail conf env pkg err local_sig_filename trace in
  if force_checksum conf then fst res = 0 /\ unlinked (snd res) = []
  else
    fst res <> 0
    /\ unlinked (snd res)
       = local_filename pkg
         :: match local_sig_filename with
            | Some sig => if file_exists env sig then [Some sig] else []
            | None => []
            end.
Proof.
  intros Htrace Herr. unfold pkg_verify_fail.
  destruct (force_checksum conf); cbn [negb].
  - cbn [fst snd]. rewrite unlinked_app, Htrace. split; reflexivity.
  - destruct local_sig_filename as [sig |];
      [destruct (file_exists env sig) |];
      cbn [fst snd]; rewrite !unlinked_app, Htrace;
      (split; [exact Herr | reflexivity]).
Qed.

(** X13. [pkg_verify] removes nothing from a package that it accepts, and
    nothing when force-checksum is set.  What it removes is the local file
    of the package and, after that, the signature that was downloaded for
    it if that file exists; nothing else, and nothing twice.  A local file
    that does not exist is answered by 1, nothing being done. *)
Theorem pkg_verify_removals (HAVE_SHA256 : bool) (conf : opkg_conf)
  (env : os_env) (pkg : pkg_t) :
  let ret := fst (pkg_verify HAVE_SHA256 conf env pkg) in
  let trace := snd (pkg_verify HAVE_SHA256 conf env pkg) in
  (unlinked trace = []
   \/ (ret <> 0 /\ force_checksum conf = false
       /\ (unlinked trace = [local_filename pkg]
           \/ exists sig : string,
                pkg_download_signature env pkg = Some sig
                /\ file_exists env sig = true
                /\ unlinked trace = [local_filename pkg; Some sig])))
  /\ (stat env (local_filename pkg) = StatENOENT ->
      ret = 1 /\ trace = [EvStat (local_filename pkg)]).
Proof.
  cbv zeta. split.
  2: { unfold pkg_verify. intros ->. split; reflexivity. }
  assert (Hfail : forall err sig trace,
             unlinked trace = [] -> err <> 0 ->
             (sig = None \/ sig = pkg_download_signature env pkg) ->
             let res := pkg_verify_fail conf env pkg err sig trace in
             unlinked (snd res) = []
             \/ (fst res <> 0 /\ force_checksum conf = false
                 /\ (unlinked (snd res) = [local_filename pkg]
                     \/ exists s : string,
                          pkg_download_signature env pkg = Some s
                          /\ file_exists env s = true
                          /\ unlinked (snd res)
                             = [local_filename pkg; Some s]))).
  { intros err sig trace Htrace Herr Hsig.
    pose proof (pkg_verify_fail_removals conf env pkg err sig trace Htrace
                  Herr) as Hres.
    cbv zeta in *. destruct (force_checksum conf); [left; tauto |].
    right. destruct Hres as [Hret Hun]. split; [exact Hret |].
    split; [reflexivity |].
    destruct sig as [s |]; [| left; exact Hun].
    destruct (file_exists env s) eqn:Hs; [| left; exact Hun].
    right. exists s. destruct Hsig as [Hsig | Hsig]; [discriminate |].
    split; [symmetry; exact Hsig |]. split; [exact Hs | exact Hun]. }
  assert (Hsig : forall trace,
             unlinked trace = [] ->
             let res := pkg_verify_signature_stage conf env pkg trace in
             unlinked (snd res) = []
             \/ (fst res <> 0 /\ force_checksum conf = false
                 /\ (unlinked (snd res) = [local_filename pkg]
                     \/ exists s : string,
                          pkg_download_signature env pkg = Some s
                          /\ file_exists env s = true
                          /\ unlinked (snd res)
                             = [local_filename pkg; Some s]))).
  { intros trace Htrace. unfold pkg_verify_signature_stage.
    destruct (check_pkg_signature conf); [| left; exact Htrace].
    destruct (pkg_download_signature env pkg) as [s |] eqn:Hdl.
    - destruct (opkg_verify_signature env (local_filename pkg) s =? 0) eqn:Hv;
        cbn [negb].
      + left. cbn [snd]. rewrite !unlinked_app, Htrace. reflexivity.
      + apply Hfail.
        * rewrite !unlinked_app, Htrace. reflexivity.
        * apply Z.eqb_neq, Hv.
        * right. reflexivity.
    - apply Hfail; [rewrite unlinked_app, Htrace; reflexivity | lia | tauto]. }
  unfold pkg_verify.
  destruct (stat env (local_filename pkg)) as [st_size | |].
  - destruct ((st_size <? 1) || negb (st_size =? size pkg)).
    + apply Hfail; [reflexivity | lia | tauto].
    + destruct (if HAVE_SHA256 then sha256sum pkg else None) as [sum |].
      * destruct (opkg_verify_sha256sum env (local_filename pkg) sum =? 0)
          eqn:Hv; cbn [negb].
        -- apply Hsig. reflexivity.
        -- apply Hfail; [reflexivity | apply Z.eqb_neq, Hv | tauto].
      * destruct (md5sum pkg) as [sum |].
        -- destruct (opkg_verify_md5sum env (local_filename pkg) sum =? 0)
             eqn:Hv; cbn [negb].
           ++ apply Hsig. reflexivity.
           ++ apply Hfail; [reflexivity | apply Z.eqb_neq, Hv | tauto].
        -- destruct (force_checksum conf) eqn:Hforce; cbn [negb].
           ++ apply Hsig. reflexivity.
           ++ left. reflexivity.
  - left. reflexivity.
  - apply Hfail; [reflexivity | lia | tauto].
Qed.

(** ** What a merge leaves alone, and what it moves *)

Lemma pkg_merge_distinct (conf : opkg_conf) (h : pkg_heap)
  (oldpkg newpkg : pkg_ptr) :
  oldpkg <> newpkg ->
  let h' := fst (pkg_merge conf h oldpkg newpkg) in
  h' oldpkg = fst (pkg_merge_records conf (h oldpkg) (h newpkg))
  /\ h' newpkg = snd (pkg_merge_records conf (h oldpkg) (h newpkg)).
Proof.
  intros Hne. unfold pkg_merge.
  destruct (Nat.eqb_spec oldpkg newpkg) as [He | _]; [congruence |].
  destruct (pkg_merge_records conf (h oldpkg) (h newpkg)) as [o n].
  cbn [fst snd]. split.
  - rewrite store_other by exact Hne. apply store_same.
  - apply store_same.
Qed.

Section MergeFrame.
Context `{CharAbi}.

(** X14. [pkg_merge] returns 0 and changes no record other than the two it
    is given; of these two it leaves the name, the epoch, the version, the
    revision, the force_reinstall flag and the three parts of the state as
    they are, so that the two records compare after the merge as they did
    before; and it leaves the tags and the time of installation of [oldpkg]
    as they are, whatever [newpkg] has. *)
Theorem pkg_merge_frame (conf : opkg_conf) (h : pkg_heap)
  (oldpkg newpkg : pkg_ptr) :
  let h' := fst (pkg_merge conf h oldpkg newpkg) in
  snd (pkg_merge conf h oldpkg newpkg) = 0
  /\ (forall q : pkg_ptr, q <> oldpkg -> q <> newpkg -> h' q = h q)
  /\ pkg_identity (h' oldpkg) = pkg_identity (h oldpkg)
  /\ pkg_identity (h' newpkg) = pkg_identity (h newpkg)
  /\ pkg_compare_versions (h' oldpkg) (h' newpkg)
     = pkg_compare_versions (h oldpkg) (h newpkg)
  /\ tags (h' oldpkg) = tags (h oldpkg)
  /\ installed_time (h' oldpkg) = installed_time (h oldpkg).
Proof.
  cbv zeta. destruct (Nat.eqb_spec oldpkg newpkg) as [He | Hne].
  - unfold pkg_merge. rewrite (proj2 (Nat.eqb_eq _ _) He). cbn [fst snd].
    repeat split; reflexivity.
  - destruct (pkg_merge_distinct conf h oldpkg newpkg Hne) as [Ho Hn].
    cbv zeta in Ho, Hn. rewrite Ho, Hn.
    split; [| split; [| repeat split; reflexivity]].
    + unfold pkg_merge. destruct (Nat.eqb oldpkg newpkg); [reflexivity |].
      destruct (pkg_merge_records conf (h oldpkg) (h newpkg)); reflexivity.
    + intros q Hqo Hqn. unfold pkg_merge.
      destruct (Nat.eqb oldpkg newpkg); [reflexivity |].
      destruct (pkg_merge_records conf (h oldpkg) (h newpkg)) as [o n].
      cbn [fst]. rewrite !store_other by congruence. reflexivity.
Qed.

End MergeFrame.

Lemma splice_if_empty_moves (old new : nv_pair_list) :
  (fst (splice_if_empty old new) ++ snd (splice_if_empty old new))%list
  = (old ++ new)%list.
Proof.
  destruct old; cbn [splice_if_empty fst snd]; [| reflexivity].
  rewrite !app_nil_r. reflexivity.
Qed.

(** X15. [pkg_merge] moves what it takes, it does not copy it.  For two
    distinct records, the conffiles of the two after the merge are the
    conffiles of the two before it, none lost and none twice, and so are the
    userfields; each of the arrays depends, conflicts, replaces and provides
    is either left in both records as it was or handed from [newpkg] to
    [oldpkg], [newpkg] keeping no pointer to it; the installed files of
    [newpkg] are handed over when [oldpkg] has none; and the number of
    dependencies of the two records together stays what it was. *)
Theorem pkg_merge_moves (conf : opkg_conf) (h : pkg_heap)
  (oldpkg newpkg : pkg_ptr) :
  oldpkg <> newpkg ->
  let h' := fst (pkg_merge conf h oldpkg newpkg) in
  let o := h oldpkg in let n := h newpkg in
  let o' := h' oldpkg in let n' := h' newpkg in
  (conffiles o' ++ conffiles n')%list = (conffiles o ++ conffiles n)%list
  /\ (userfields o' ++ userfields n')%list
     = (userfields o ++ userfields n)%list
  /\ kept_or_moved (depends o) (depends n) (depends o') (depends n')
  /\ kept_or_moved (conflicts o) (conflicts n) (conflicts o') (conflicts n')
  /\ kept_or_moved (replaces o) (replaces n) (replaces o') (replaces n')
  /\ kept_or_moved (provides o) (provides n) (provides o') (provides n')
  /\ (installed_files o = None ->
      installed_files o' = installed_files n /\ installed_files n' = None)
  /\ (depends_total o' + depends_total n' = depends_total o + depends_total n)%N.
Proof.
  intros Hne. cbv zeta.
  destruct (pkg_merge_distinct conf h oldpkg newpkg Hne) as [Ho Hn].
  cbv zeta in Ho, Hn. rewrite Ho, Hn.
  unfold pkg_merge_records, kept_or_moved, depends_total.
  cbn [fst snd conffiles userfields depends conflicts replaces provides
       installed_files depends_count pre_depends_count recommends_count
       suggests_count].
  split; [apply splice_if_empty_moves |].
  split; [destruct (verbose_status_file conf);
          [apply splice_if_empty_moves | reflexivity] |].
  split; [destruct (no_depends (h oldpkg)); tauto |].
  split; [destruct (conflicts_count (h oldpkg) =? 0)%N; tauto |].
  split; [destruct (replaces_count (h oldpkg) =? 0)%N; tauto |].
  split; [destruct (provides_count (h oldpkg) <=? 1)%N; tauto |].
  split; [intros ->; split; reflexivity |].
  destruct (no_depends (h oldpkg)) eqn:Hnone; [| reflexivity].
  unfold no_depends in Hnone. repeat (apply andb_prop in Hnone as [Hnone ?]).
  repeat match goal with
    | Hz : (_ =? 0)%N = true |- _ => apply N.eqb_eq in Hz
    end.
  lia.
Qed.

(** ** The lists of installed files *)

(** *** Octal numbers *)








Lemma strtoul_digits_zeros (n : nat) (s : string) :
  strtoul_digits 8 0 (zeros n ++ s) = strtoul_digits 8 0 s.
Proof. induction n as [| n IH]; [reflexivity | exact IH]. Qed.




(** *** Fields of a line *)




Section FileLists.
Context `{LongAbi}.
Variable conf : opkg_conf.
Variable env : fs_env.







End FileLists.

Section FileListTheorems.
Context `{LongAbi}.
Variable SF_FILELIST_CHANGED : Z.
Variable conf : opkg_conf.
Variable env : fs_env.


End FileListTheorems.

(** *** The flag of a changed list *)

Lemma clear_flag_cleared (sf flag : Z) : Z.land (clear_flag sf flag) flag = 0.
Proof.
  unfold clear_flag. rewrite <- Z.land_assoc, (Z.land_comm (Z.lnot flag)).
  rewrite Z.land_lnot_diag. apply Z.land_0_r.
Qed.

Lemma clear_flag_twice (sf flag : Z) :
  clear_flag (clear_flag sf flag) flag = clear_flag sf flag.
Proof.
  unfold clear_flag. rewrite <- Z.land_assoc, Z.land_diag. reflexivity.
Qed.

Lemma flag_cleared_or_same_trans (flag : Z) (p1 p2 p3 : pkg_t) :
  flag_cleared_or_same flag p1 p2 -> flag_cleared_or_same flag p2 p3 ->
  flag_cleared_or_same flag p1 p3.
Proof.
  unfold flag_cleared_or_same. intros [-> | ->] [-> | ->]; try tauto.
  right. cbn [with_state_flag state_flag]. rewrite clear_flag_twice.
  reflexivity.
Qed.

Section ChangedLists.
Variable SF_FILELIST_CHANGED : Z.
Variable conf : opkg_conf.
Variable env : fs_env.

Lemma flag_cleared_or_same_fails (p p' : pkg_t) :
  flag_cleared_or_same SF_FILELIST_CHANGED p p' ->
  list_fails env p' = list_fails env p /\ dest p' = dest p.
Proof. intros [-> | ->]; split; reflexivity. Qed.

Lemma existsb_same {A : Type} (f g : A -> bool) (l : list A) :
  (forall x, f x = g x) -> existsb f l = existsb g l.
Proof.
  intros Hfg. induction l as [| x l IH]; [reflexivity |].
  cbn [existsb]. rewrite Hfg, IH. reflexivity.
Qed.

Lemma pkg_write_changed_filelists_loop_flags (installed : list pkg_ptr) :
  forall (h : pkg_heap) (ret : Z),
    (forall p, In p installed -> dest (h p) <> None) ->
    exists (h' : pkg_heap) (ret' : Z) (trace : list file_event),
      pkg_write_changed_filelists_loop SF_FILELIST_CHANGED conf env installed
        h ret = Some (h', ret', trace)
      /\ (forall q, flag_cleared_or_same SF_FILELIST_CHANGED (h q) (h' q))
      /\ (forall q, ~ In q installed -> h' q = h q)
      /\ (forall p, In p installed ->
            filelist_changed SF_FILELIST_CHANGED (h' p)
            = still_changed SF_FILELIST_CHANGED env (h p))
      /\ ret' = (if existsb
                      (fun p => still_changed SF_FILELIST_CHANGED env (h p))
                      installed
                 then -1 else ret).
Proof.
  induction installed as [| p installed IH]; intros h ret Hdest.
  - exists h, ret, []. split; [reflexivity |].
    split; [intros q; left; reflexivity |].
    split; [reflexivity |]. split; [intros p [] | reflexivity].
  - cbn [pkg_write_changed_filelists_loop existsb].
    assert (Hrest : forall q, In q installed -> dest (h q) <> None)
      by (intros q Hin; apply Hdest; right; exact Hin).
    fold (filelist_changed SF_FILELIST_CHANGED (h p)).
    destruct (filelist_changed SF_FILELIST_CHANGED (h p)) eqn:Hflag.
    + unfold pkg_write_filelist.
      destruct (dest (h p)) as [d |] eqn:Hd;
        [| exfalso; apply (Hdest p (or_introl eq_refl)); exact Hd].
      destruct (fopen_w env (list_file_name_of d (h p))) eqn:Hopen;
        cbn [negb].
      * set (h1 := store h p
                     (with_state_flag (h p)
                        (clear_flag (state_flag (h p))
                           SF_FILELIST_CHANGED))).
        assert (Hrel1 : forall q,
                   flag_cleared_or_same SF_FILELIST_CHANGED (h q) (h1 q)).
        { intros q. unfold h1, store.
          destruct (Nat.eqb_spec q p) as [-> | _];
            [right | left]; reflexivity. }
        assert (Hp1 : filelist_changed SF_FILELIST_CHANGED (h1 p) = false).
        { unfold filelist_changed, h1.
          rewrite store_same. cbn [with_state_flag state_flag].
          rewrite clear_flag_cleared. reflexivity. }
        assert (Hp : still_changed SF_FILELIST_CHANGED env (h p) = false).
        { unfold still_changed, list_fails. rewrite Hd, Hopen.
          apply andb_false_r. }
        assert (Hstill : forall q,
                   still_changed SF_FILELIST_CHANGED env (h1 q)
                   = still_changed SF_FILELIST_CHANGED env (h q)).
        { intros q. destruct (Nat.eq_dec q p) as [-> | Hne].
          - rewrite Hp. unfold still_changed. rewrite Hp1. reflexivity.
          - unfold h1. rewrite store_other by exact Hne. reflexivity. }
        assert (Hdest1 : forall q, In q installed -> dest (h1 q) <> None).
        { intros q Hin.
          rewrite (proj2 (flag_cleared_or_same_fails _ _ (Hrel1 q))).
          apply Hrest, Hin. }
        destruct (IH h1 ret Hdest1)
          as (h' & ret' & trace & Hloop & Hrel & Hframe & Hflags & Hret).
        cbn [Z.eqb negb]. rewrite Hloop.
        eexists. eexists. eexists. split; [reflexivity |].
        split; [intros q;
                exact (flag_cleared_or_same_trans _ _ _ _ (Hrel1 q) (Hrel q))
               |].
        split; [| split].
        -- intros q Hq.
           rewrite Hframe by (intros Hin; apply Hq; right; exact Hin).
           unfold h1. apply store_other. intros ->. apply Hq. left.
           reflexivity.
        -- intros q [<- | Hin].
           ++ rewrite Hp.
              destruct (in_dec Nat.eq_dec p installed) as [Hin | Hout].
              ** rewrite (Hflags p Hin), Hstill. exact Hp.
              ** rewrite (Hframe p Hout). exact Hp1.
           ++ rewrite (Hflags q Hin). apply Hstill.
        -- rewrite Hp. cbn [orb]. rewrite Hret.
           rewrite (existsb_same
                      (fun q => still_changed SF_FILELIST_CHANGED env (h1 q))
                      (fun q => still_changed SF_FILELIST_CHANGED env (h q))
                      installed Hstill).
           reflexivity.
      * assert (Hp : still_changed SF_FILELIST_CHANGED env (h p) = true).
        { unfold still_changed, list_fails. rewrite Hflag, Hd, Hopen.
          reflexivity. }
        destruct (IH h (-1) Hrest)
          as (h' & ret' & trace & Hloop & Hrel & Hframe & Hflags & Hret).
        cbn [Z.eqb negb]. rewrite Hloop.
        eexists. eexists. eexists. split; [reflexivity |].
        split; [exact Hrel |]. split; [| split].
        -- intros q Hq. apply Hframe. intros Hin. apply Hq. right. exact Hin.
        -- intros q [<- | Hin]; [| apply Hflags, Hin].
           rewrite Hp.
           destruct (in_dec Nat.eq_dec p installed) as [Hin | Hout].
           ++ rewrite (Hflags p Hin). exact Hp.
           ++ rewrite (Hframe p Hout). exact Hflag.
        -- rewrite Hp. cbn [orb]. rewrite Hret.
           destruct (existsb
                       (fun q => still_changed SF_FILELIST_CHANGED env (h q))
                       installed); reflexivity.
    + cbn [negb].
      assert (Hp : still_changed SF_FILELIST_CHANGED env (h p) = false)
        by (unfold still_changed; rewrite Hflag; reflexivity).
      destruct (IH h ret Hrest)
        as (h' & ret' & trace & Hloop & Hrel & Hframe & Hflags & Hret).
      rewrite Hloop. eexists. eexists. eexists. split; [reflexivity |].
      split; [exact Hrel |]. split; [| split].
      * intros q Hq. apply Hframe. intros Hin. apply Hq. right. exact Hin.
      * intros q [<- | Hin]; [| apply Hflags, Hin].
        rewrite Hp.
        destruct (in_dec Nat.eq_dec p installed) as [Hin | Hout].
        -- rewrite (Hflags p Hin). exact Hp.
        -- rewrite (Hframe p Hout). exact Hflag.
      * rewrite Hp. cbn [orb]. exact Hret.
Qed.

(** X17. After [pkg_write_changed_filelists] the lists that had changed are
    written.  When every installed package has a destination, the function
    returns; under noaction it does nothing and returns 0; otherwise it
    changes no record but in clearing the flag of a changed list, it
    changes no record of a package that is not installed, the flag is left
    set exactly in the installed packages that had it set and whose list
    could not be opened for writing, and the result is -1 when there is
    such a package and 0 when there is none. *)
Theorem pkg_write_changed_filelists_flags (h : pkg_heap) :
  (forall p, In p (pkg_hash_fetch_all_installed env) -> dest (h p) <> None) ->
  exists (h' : pkg_heap) (ret : Z) (trace : list file_event),
    pkg_write_changed_filelists SF_FILELIST_CHANGED conf env h
    = Some (h', ret, trace)
    /\ (forall q, flag_cleared_or_same SF_FILELIST_CHANGED (h q) (h' q))
    /\ (forall q, ~ In q (pkg_hash_fetch_all_installed env) -> h' q = h q)
    /\ if noaction conf then h' = h /\ ret = 0 /\ trace = []
       else
         (forall p, In p (pkg_hash_fetch_all_installed env) ->
            filelist_changed SF_FILELIST_CHANGED (h' p)
            = still_changed SF_FILELIST_CHANGED env (h p))
         /\ ret = (if existsb
                        (fun p => still_changed SF_FILELIST_CHANGED env (h p))
                        (pkg_hash_fetch_all_installed env)
                   then -1 else 0).
Proof.
  intros Hdest. unfold pkg_write_changed_filelists.
  destruct (noaction conf).
  - exists h, 0, []. split; [reflexivity |].
    split; [intros q; left; reflexivity |].
    split; [reflexivity |]. repeat split.
  - destruct (pkg_write_changed_filelists_loop_flags
                (pkg_hash_fetch_all_installed env) h 0 Hdest)
      as (h' & ret & trace & Hloop & Hrel & Hframe & Hflags & Hret).
    rewrite Hloop. eexists. eexists. eexists. split; [reflexivity |].
    split; [exact Hrel |]. split; [exact Hframe |].
    split; [exact Hflags | exact Hret].
Qed.

End ChangedLists.

(** *** Holding and freeing a list *)

Section HeldLists.
Context `{LongAbi}.

(** X18. A list that is held is shared, not read again.  When a package
    holds its list of installed files, [pkg_get_installed_files] returns
    that list without touching a file and counts one more holder;
    [pkg_free_installed_files] after it leaves the package as it was, while
    there was a holder before; and the list is freed by the call that brings
    the count down to 0 (or below), and by no call before. *)
Theorem pkg_installed_files_held (conf : opkg_conf) (tmp_dir : string)
  (env : fs_env) (pkg : pkg_t) (st : installed_files_t)
  (held : file_list_t) :
  files st = Some held -> 0 <= ref_cnt st < INT_MAX ->
  pkg_get_installed_files conf tmp_dir env pkg st
  = Some ({| files := Some held; ref_cnt := ref_cnt st + 1 |}, Some held, [])
  /\ (1 <= ref_cnt st ->
      pkg_free_installed_files
        {| files := Some held; ref_cnt := ref_cnt st + 1 |} = st)
  /\ files (pkg_free_installed_files st)
     = (if 1 <? ref_cnt st then Some held else None)
  /\ ref_cnt (pkg_free_installed_files st) = ref_cnt st - 1.
Proof.
  intros Hheld Hcnt. unfold INT_MAX in Hcnt.
  assert (Hup : to_int (ref_cnt st + 1) = ref_cnt st + 1)
    by (apply to_int_id; unfold int_range, INT_MIN, INT_MAX; lia).
  assert (Hdown : to_int (ref_cnt st - 1) = ref_cnt st - 1)
    by (apply to_int_id; unfold int_range, INT_MIN, INT_MAX; lia).
  split; [| split; [| split]].
  - unfold pkg_get_installed_files. rewrite Hheld, Hup. reflexivity.
  - intros Hone. unfold pkg_free_installed_files. cbn [files ref_cnt].
    replace (ref_cnt st + 1 - 1) with (ref_cnt st) by lia.
    rewrite (to_int_id (ref_cnt st))
      by (unfold int_range, INT_MIN, INT_MAX; lia).
    assert (Hpos : (ref_cnt st >? 0) = true) by (apply Z.gtb_lt; lia).
    rewrite Hpos. destruct st as [l c]. cbn in *. congruence.
  - unfold pkg_free_installed_files. rewrite Hdown.
    destruct (Z.ltb_spec 1 (ref_cnt st)) as [Hlt | Hge].
    + assert (Hpos : (ref_cnt st - 1 >? 0) = true) by (apply Z.gtb_lt; lia).
      rewrite Hpos. exact Hheld.
    + assert (Hpos : (ref_cnt st - 1 >? 0) = false).
      { destruct (Z.gtb_spec (ref_cnt st - 1) 0); [lia | reflexivity]. }
      rewrite Hpos. reflexivity.
  - unfold pkg_free_installed_files. rewrite Hdown.
    destruct (ref_cnt st - 1 >? 0); reflexivity.
Qed.

(** *** Files that are opened and made *)

Lemma temp_files_app (t1 t2 : list file_event) :
  temp_files (t1 ++ t2) = (temp_files t1 ++ temp_files t2)%list.
Proof. apply flat_map_app. Qed.

(** X19. No function leaves a stream open or a temporary file behind.  In
    every run of [pkg_get_installed_files] that returns, of
    [pkg_write_filelist] and of [pkg_init_from_file], the files removed are
    the temporary files made, each once; the streams closed are the streams
    opened; and a descriptor that could not be opened as a stream is
    closed. *)
Theorem pkg_files_tidy `{StateFlags} (SF_FILELIST_CHANGED : Z)
  (conf : opkg_conf) (tmp_dir : string) (env : fs_env) (pkg : pkg_t)
  (st : installed_files_t) (h : pkg_heap) (p : pkg_ptr)
  (filename : string) :
  match pkg_get_installed_files conf tmp_dir env pkg st with
  | Some (_, _, trace) => tidy trace
  | None => True
  end
  /\ match pkg_write_filelist SF_FILELIST_CHANGED conf env h p with
     | Some (_, _, trace) => tidy trace /\ removed_files trace = []
     | None => True
     end
  /\ tidy (snd (pkg_init_from_file conf tmp_dir env pkg filename)).
Proof.
  split; [| split].
  - unfold pkg_get_installed_files, tidy.
    destruct (files st); [repeat split |].
    destruct (state_status pkg); destruct (dest pkg) as [d |];
      destruct (local_filename pkg) as [local |];
      try (repeat split; fail);
      repeat match goal with
        | |- context [match mkstemp env ?t with _ => _ end] =>
            destruct (mkstemp env t)
        | |- context [fdopen env ?f] => destruct (fdopen env f)
        | |- context [pkg_extract_data_file_names_to_stream env ?q] =>
            destruct (pkg_extract_data_file_names_to_stream env q)
              as [err lines]
        | |- context [negb (?x =? 0)] => destruct (x =? 0)
        | |- context [installed_files_of_lines ?a ?b ?c ?d ?e] =>
            destruct (installed_files_of_lines a b c d e)
        | |- context [fopen_r env ?f] => destruct (fopen_r env f)
        end;
      cbn [negb]; try exact I; repeat split.
  - unfold pkg_write_filelist, tidy.
    destruct (dest (h p)) as [d |]; [| exact I].
    destruct (fopen_w env (list_file_name_of d (h p))); cbn [negb];
      [| repeat split].
    set (lines := pkg_write_filelist_lines conf env (file_hash env) p).
    unfold temp_files, removed_files, opened_streams, closed_streams,
      failed_streams, closed_descriptors.
    cbn [flat_map app]. rewrite !flat_map_app. cbn [flat_map app].
    assert (Hnone : forall (A : Type) (f : file_event -> list A),
               (forall file text, f (FeWrite file text) = []) ->
               flat_map f
                 (map (fun line =>
                         FeWrite (list_file_name_of d (h p))
                           (line ++ newline)) lines) = []).
    { intros A f Hf. induction lines as [| line l IH]; [reflexivity |].
      cbn [map flat_map]. rewrite Hf, IH. reflexivity. }
    rewrite !Hnone by reflexivity. repeat split.
  - unfold pkg_init_from_file, tidy.
    destruct (mkstemp env _); [| repeat split].
    destruct (fdopen env _); cbn [negb]; [| repeat split].
    destruct (pkg_extract_control_file_to_stream env _) as [err lines].
    destruct (err =? 0); cbn [negb]; [| repeat split].
    destruct (pkg_parse_from_stream env _ lines) as [err' pkg'].
    destruct (err' =? 0); cbn [negb]; [repeat split |].
    destruct (err' =? 1); repeat split.
Qed.

End HeldLists.

(** ** A record from a package file *)

Section FromFile.
Context `{StateFlags}.
Variable conf : opkg_conf.
Variable tmp_dir : string.
Variable env : fs_env.

(** X20. [pkg_init_from_file] forgets what the record held and answers 0
    exactly when every step succeeds.  The result is 0 exactly when the
    temporary file is made and opened, the extraction of the control file
    answers 0 and so does the parser, which is given a record whose
    local_filename is the file and the lines that were extracted; the
    record is then what the parser made.  A failure of the extraction is
    answered by its own code, every other failure by -1.  And two records
    that agree on installed_time, auto_installed, arch_priority and, when
    verbose_status_file is off, the userfields, give the same result in all
    its parts. *)
Theorem pkg_init_from_file_result (pkg other : pkg_t) (filename : string) :
  let fresh := with_local_filename (pkg_init conf pkg) (Some filename) in
  let template :=
    tmp_dir ++ "/" ++ basename env filename ++ ".control.XXXXXX" in
  let opened :=
    match mkstemp env template with
    | Some control_path => fdopen env control_path
    | None => false
    end in
  let extracted := pkg_extract_control_file_to_stream env fresh in
  let parsed := pkg_parse_from_stream env fresh (snd extracted) in
  let '(pkg', err, trace) :=
    pkg_init_from_file conf tmp_dir env pkg filename in
  ((err =? 0) = opened && (fst extracted =? 0) && (fst parsed =? 0))
  /\ (if opened && (fst extracted =? 0) then pkg' = snd parsed
      else pkg' = fresh)
  /\ (if opened && negb (fst extracted =? 0) then err = fst extracted
      else err = 0 \/ err = -1)
  /\ local_filename fresh = Some filename
  /\ (installed_time other = installed_time pkg ->
      auto_installed other = auto_installed pkg ->
      arch_priority other = arch_priority pkg ->
      (verbose_status_file conf = false ->
       userfields other = userfields pkg) ->
      pkg_init_from_file conf tmp_dir env other filename
      = (pkg', err, trace)).
Proof.
  cbv zeta.
  assert (Hsame : installed_time other = installed_time pkg ->
                  auto_installed other = auto_installed pkg ->
                  arch_priority other = arch_priority pkg ->
                  (verbose_status_file conf = false ->
                   userfields other = userfields pkg) ->
                  pkg_init_from_file conf tmp_dir env other filename
                  = pkg_init_from_file conf tmp_dir env pkg filename).
  { intros Ht Ha Hp Hu. unfold pkg_init_from_file.
    assert (Hinit : pkg_init conf other = pkg_init conf pkg).
    { unfold pkg_init. rewrite Ht, Ha, Hp.
      destruct (verbose_status_file conf); [reflexivity |].
      rewrite (Hu eq_refl). reflexivity. }
    rewrite Hinit. reflexivity. }
  destruct (pkg_init_from_file conf tmp_dir env pkg filename)
    as [[pkg' err] trace] eqn:Hrun.
  assert (Hlast : installed_time other = installed_time pkg ->
                  auto_installed other = auto_installed pkg ->
                  arch_priority other = arch_priority pkg ->
                  (verbose_status_file conf = false ->
                   userfields other = userfields pkg) ->
                  pkg_init_from_file conf tmp_dir env other filename
                  = (pkg', err, trace))
    by (intros; rewrite Hsame by assumption; reflexivity).
  clear Hsame. unfold pkg_init_from_file in Hrun.
  destruct (mkstemp env _) as [control_path |];
    [| injection Hrun as <- <- <-; repeat split; cbn [andb negb]; auto].
  destruct (fdopen env control_path); cbn [negb andb] in *;
    [| injection Hrun as <- <- <-; repeat split; cbn [andb negb]; auto].
  destruct (pkg_extract_control_file_to_stream env _) as [e1 lines].
  cbn [fst snd].
  destruct (e1 =? 0) eqn:He1; cbn [negb andb] in *.
  - destruct (pkg_parse_from_stream env _ lines) as [e2 parsed].
    cbn [fst snd].
    destruct (e2 =? 0) eqn:He2; cbn [negb] in *;
      injection Hrun as <- <- <-; repeat split; cbn [andb negb]; auto.
  - injection Hrun as <- <- <-. rewrite He1.
    repeat split; cbn [andb negb]; auto.
Qed.

End FromFile.

(** ** Merging into a record that is new *)

(** X21. A record that is new takes everything that a merge hands over.
    After [pkg_merge] of a record into a record fresh from [pkg_new], the
    new record has the source, the destination, the architecture and its
    priority, the section, the maintainer, the description, the names of the
    files, the sums, the sizes, the priority, the source package, the
    essential and auto_installed marks, the dependencies, the conflicts, the
    replaces, the provides, the conffiles and the installed files of the
    other, and its userfields when verbose_status_file is on; it has not
    its name, its version, its state nor its tags. *)
Theorem pkg_merge_into_new `{StateFlags} (conf : opkg_conf)
  (newpkg : pkg_t) :
  let merged := fst (pkg_merge_records conf (pkg_new conf) newpkg) in
  (src merged, dest merged, architecture merged, arch_priority merged,
   section merged, maintainer merged, description merged)
  = (src newpkg, dest newpkg, architecture newpkg, arch_priority newpkg,
     section newpkg, maintainer newpkg, description newpkg)
  /\ (filename merged, local_filename merged, tmp_unpack_dir merged,
      md5sum merged, sha256sum merged, size merged, installed_size merged)
     = (filename newpkg, local_filename newpkg, tmp_unpack_dir newpkg,
        md5sum newpkg, sha256sum newpkg, size newpkg, installed_size newpkg)
  /\ (priority merged, source merged, essential merged,
      auto_installed merged)
     = (priority newpkg, source newpkg, essential newpkg,
        auto_installed newpkg)
  /\ depends_arrays merged = depends_arrays newpkg
  /\ provides_array merged = provides_array newpkg
  /\ (conflicts merged, conflicts_count merged, replaces merged,
      replaces_count merged)
     = (conflicts newpkg, conflicts_count newpkg, replaces newpkg,
        replaces_count newpkg)
  /\ conffiles merged = conffiles newpkg
  /\ installed_files merged = installed_files newpkg
  /\ userfields merged
     = (if verbose_status_file conf then userfields newpkg else [])
  /\ pkg_identity merged
     = (None, 0, None, None, 0, (SW_UNKNOWN, SF_OK, SS_NOT_INSTALLED))
  /\ tags merged = None.
Proof.
  cbv zeta. unfold pkg_merge_records, pkg_new, pkg_init, zeroed_pkg,
    depends_arrays, provides_array, pkg_identity, no_depends.
  cbn -[app]. unfold keep_int, keep_uint. cbn -[app].
  rewrite !app_nil_r.
  destruct (verbose_status_file conf); cbn -[app]; rewrite ?app_nil_r;
    repeat split; reflexivity.
Qed.

(** ** Printing a record *)

Lemma tolower_nonzero (c : ascii) : nonzero (tolower c) = nonzero c.
Proof.
  unfold tolower.
  destruct ((65 <=? char_code c) && (char_code c <=? 90)) eqn:Hupper;
    [| reflexivity].
  apply andb_prop in Hupper as [Hlo Hhi].
  apply Z.leb_le in Hlo, Hhi. unfold nonzero, char_code in *.
  rewrite N_ascii_embedding by lia.
  destruct (Z.eqb_spec (Z.of_N (N_of_ascii c + 32)) 0);
    destruct (Z.eqb_spec (Z.of_N (N_of_ascii c)) 0); try reflexivity; lia.
Qed.

Lemma strcasecmp_lower (s1 s2 : string) :
  strcasecmp s1 s2 = 0 <-> lower s1 = lower s2.
Proof.
  revert s2. induction s1 as [| c1 s1 IH]; intros s2.
  - destruct s2 as [| c2 s2]; cbn [strcasecmp lower deref].
    + cbn. tauto.
    + rewrite <- (tolower_nonzero c2). unfold nonzero.
      change (char_code (tolower Ascii.zero)) with 0.
      destruct (Z.eqb_spec 0 (char_code (tolower c2))) as [Hz | Hnz].
      * rewrite <- Hz. cbn. tauto.
      * destruct (Z.eqb_spec (char_code (tolower c2)) 0); [lia |].
        cbn [negb]. split; [lia | discriminate].
  - destruct s2 as [| c2 s2]; cbn [strcasecmp lower deref next].
    + rewrite <- (tolower_nonzero c1). unfold nonzero.
      change (char_code (tolower Ascii.zero)) with 0.
      destruct (Z.eqb_spec (char_code (tolower c1)) 0) as [Hz | Hnz].
      * cbn. tauto.
      * cbn [negb]. split; [lia | discriminate].
    + rewrite <- (tolower_nonzero c1), <- (tolower_nonzero c2).
      unfold nonzero.
      destruct (Z.eqb_spec (char_code (tolower c1)) (char_code (tolower c2)))
        as [Hsame | Hdiff]; cbn [negb].
      * rewrite <- Hsame.
        destruct (Z.eqb_spec (char_code (tolower c1)) 0) as [Hz | Hnz];
          cbn [negb]; [tauto |].
        apply char_code_inj in Hsame. rewrite <- Hsame, IH.
        split; [intros ->; reflexivity | intros [=]; assumption].
      * split; [lia |]. intros Hlower. exfalso. apply Hdiff.
        destruct (Z.eqb_spec (char_code (tolower c1)) 0) as [Hz1 | Hnz1];
          destruct (Z.eqb_spec (char_code (tolower c2)) 0) as [Hz2 | Hnz2];
          cbn [negb] in Hlower; try discriminate; [lia |].
        injection Hlower as -> _. reflexivity.
Qed.

Lemma strlen_lower (s : string) : strlen s = String.length (lower s).
Proof.
  induction s as [| c s IH]; [reflexivity |]. cbn [strlen lower].
  destruct (nonzero c); [| reflexivity]. cbn [String.length]. now rewrite IH.
Qed.

Lemma deref_lower (s : string) : deref (lower s) = tolower (deref s).
Proof.
  destruct s as [| c s]; [reflexivity |]. cbn [lower deref].
  destruct (nonzero c) eqn:Hc; [reflexivity |]. cbn [deref].
  unfold nonzero in Hc. apply negb_false_iff, Z.eqb_eq in Hc.
  assert (Hzero : c = Ascii.zero) by (apply char_code_inj; exact Hc).
  rewrite Hzero. reflexivity.
Qed.

(** The letter before [tolower] is the letter itself or its capital. *)
Lemma tolower_letter (c l : ascii) :
  tolower c = l -> c = l \/ c = ascii_of_N (N_of_ascii l - 32).
Proof.
  unfold tolower.
  destruct ((65 <=? char_code c) && (char_code c <=? 90)) eqn:Hupper;
    [| auto].
  apply andb_prop in Hupper as [Hlo Hhi].
  apply Z.leb_le in Hlo, Hhi. unfold char_code in *.
  intros <-. right. rewrite N_ascii_embedding by lia.
  replace (N_of_ascii c + 32 - 32)%N with (N_of_ascii c) by lia.
  symmetry. apply ascii_N_embedding.
Qed.

Lemma lower_field_name_inj (a b : field_id) :
  lower (field_name a) = lower (field_name b) -> a = b.
Proof. destruct a, b; intros Hsame; solve [reflexivity | discriminate]. Qed.

(** A name names one field at most. *)
Lemma names_one_field (field : string) (id : field_id) :
  strcasecmp field (field_name id) = 0 ->
  forall other : field_id,
    (strcasecmp field (field_name other) =? 0)
    = if field_id_eq_dec other id then true else false.
Proof.
  intros Hid other. apply strcasecmp_lower in Hid.
  destruct (field_id_eq_dec other id) as [-> | Hother].
  - apply Z.eqb_eq, strcasecmp_lower. exact Hid.
  - apply Z.eqb_neq. intros Hcmp. apply strcasecmp_lower in Hcmp.
    apply Hother, lower_field_name_inj. congruence.
Qed.

(** The switch over the first letter loses no name: a name is found, as
    the field that it names, whatever the case of its letters, and nothing
    else is found. *)
Lemma lookup_field_names (field : string) (id : field_id) :
  lookup_field field = Some id <-> strcasecmp field (field_name id) = 0.
Proof.
  split.
  - unfold lookup_field. cbv zeta.
    repeat match goal with
           | |- context [if ?b then _ else _] =>
               let Hb := fresh "Hb" in destruct b eqn:Hb
           end;
      intros [= <-]; apply Z.eqb_eq; assumption.
  - intros Hid.
    assert (Hletter : tolower (deref field)
                      = deref (lower (field_name id))).
    { rewrite <- deref_lower. f_equal. apply strcasecmp_lower. exact Hid. }
    apply tolower_letter in Hletter.
    unfold lookup_field. cbv zeta. rewrite !(names_one_field field id Hid).
    destruct id; destruct Hletter as [-> | ->]; reflexivity.
Qed.

Lemma field_name_strlen (field : string) (id : field_id) :
  strcasecmp field (field_name id) = 0 -> (4 <= strlen field)%nat.
Proof.
  intros Hid. apply strcasecmp_lower in Hid. rewrite strlen_lower, Hid.
  destruct id; cbn; lia.
Qed.

Section Dispatch.
Context `{StateFlags}.
Variable fenv : fmt_env.
Hypothesis minimum : (PKG_MINIMUM_FIELD_NAME_LEN fenv <= 4)%nat.

Lemma pkg_formatted_field_found (pkg : pkg_t) (field : string)
  (fields_filter : option string) (id : field_id) :
  should_include_field (Some field) fields_filter = true ->
  lookup_field field = Some id ->
  pkg_formatted_field fenv pkg (Some field) fields_filter
  = format_field fenv pkg id.
Proof.
  intros Hfilter Hid. unfold pkg_formatted_field. cbv zeta. cbn [or_empty].
  rewrite Hfilter, Hid. cbn [negb].
  apply lookup_field_names, field_name_strlen in Hid.
  destruct (Nat.ltb_spec (strlen field) (PKG_MINIMUM_FIELD_NAME_LEN fenv));
    [lia | reflexivity].
Qed.

(** X22. [pkg_formatted_field] knows a field by its name, whatever the
    case of the letters.  Provided no name of less than four characters is
    turned away, a name that the filter lets through and that
    [strcasecmp] takes for the name of a field prints that field; any other
    name that the filter lets through writes nothing and logs one internal
    error with the name; and a name that the filter holds back writes
    nothing and logs nothing. *)
Theorem pkg_formatted_field_dispatch (pkg : pkg_t) (field : string)
  (fields_filter : option string) :
  (should_include_field (Some field) fields_filter = false ->
   pkg_formatted_field fenv pkg (Some field) fields_filter = nothing)
  /\ (should_include_field (Some field) fields_filter = true ->
      (forall id : field_id,
          strcasecmp field (field_name id) = 0 ->
          pkg_formatted_field fenv pkg (Some field) fields_filter
          = format_field fenv pkg id)
      /\ ((forall id : field_id, strcasecmp field (field_name id) <> 0) ->
          pkg_formatted_field fenv pkg (Some field) fields_filter
          = unknown_field field)).
Proof.
  split; [| intros Hfilter; split].
  - unfold pkg_formatted_field. intros ->. reflexivity.
  - intros id Hid. apply pkg_formatted_field_found; [exact Hfilter |].
    apply lookup_field_names. exact Hid.
  - intros Hnone. unfold pkg_formatted_field. cbv zeta. cbn [or_empty].
    rewrite Hfilter. cbn [negb].
    destruct (strlen field <? PKG_MINIMUM_FIELD_NAME_LEN fenv)%nat;
      [reflexivity |].
    destruct (lookup_field field) as [id |] eqn:Hlookup; [| reflexivity].
    apply lookup_field_names in Hlookup. now apply Hnone in Hlookup.
Qed.

End Dispatch.

(** *** The filter *)

Lemma starts_with_app (needle post : string) :
  starts_with (c_string needle ++ post) needle = true.
Proof.
  induction needle as [| n needle IH]; [reflexivity |].
  cbn [starts_with]. destruct (nonzero n) eqn:Hn; [| reflexivity].
  rewrite c_string_cons by exact Hn. cbn [append].
  rewrite Ascii.eqb_refl, IH. reflexivity.
Qed.

Lemma starts_with_split (s needle : string) :
  starts_with s needle = true -> exists post, s = c_string needle ++ post.
Proof.
  revert s. induction needle as [| n needle IH]; intros s.
  - intros _. exists s. reflexivity.
  - cbn [starts_with]. destruct (nonzero n) eqn:Hn.
    + destruct s as [| c s]; [discriminate |].
      intros Hrest. apply andb_prop in Hrest as [Hc Hrest].
      apply Ascii.eqb_eq in Hc. subst c.
      destruct (IH s Hrest) as [post ->]. exists post.
      rewrite c_string_cons by exact Hn. reflexivity.
    + intros _. exists s. rewrite c_string_nul by exact Hn. reflexivity.
Qed.

Lemma strstr_substring (haystack needle : string) :
  strstr haystack needle = true
  <-> exists pre post,
        nul_free pre = true /\ haystack = pre ++ c_string needle ++ post.
Proof.
  split.
  - induction haystack as [| c haystack IH]; cbn [strstr].
    + rewrite orb_false_r. intros Hstarts.
      apply starts_with_split in Hstarts as [post Hpost].
      exists "", post. split; [reflexivity | exact Hpost].
    + intros Hfound. apply orb_prop in Hfound as [Hstarts | Hlater].
      * apply starts_with_split in Hstarts as [post Hpost].
        exists "", post. split; [reflexivity | exact Hpost].
      * apply andb_prop in Hlater as [Hc Hlater].
        destruct (IH Hlater) as (pre & post & Hpre & ->).
        exists (String c pre), post. cbn [nul_free append].
        rewrite Hc, Hpre. split; reflexivity.
  - intros (pre & post & Hpre & ->).
    induction pre as [| c pre IH]; cbn [append].
    + destruct (c_string needle ++ post) eqn:Htext; cbn [strstr];
        rewrite <- Htext, starts_with_app; reflexivity.
    + cbn [nul_free] in Hpre. apply andb_prop in Hpre as [Hc Hpre].
      cbn [strstr]. rewrite Hc, (IH Hpre). apply orb_true_r.
Qed.

(** X23. The filter is a search for the name in the text of the filter.
    [should_include_field] accepts a field exactly when there is a name and
    either no filter, or the name, up to its terminator, stands somewhere in
    the filter before the terminator of the filter; the case of the letters
    counts, and the filter is not read as a list of names. *)
Theorem should_include_field_substring (field fields_filter : option string) :
  should_include_field field fields_filter = true
  <-> exists name : string,
        field = Some name
        /\ (fields_filter = None
            \/ exists pre post : string,
                 nul_free pre = true
                 /\ fields_filter = Some (pre ++ c_string name ++ post)).
Proof.
  unfold should_include_field. split.
  - destruct field as [name |]; [| discriminate]. intros Hfound.
    exists name. split; [reflexivity |].
    destruct fields_filter as [filter |]; [right | left; reflexivity].
    apply strstr_substring in Hfound as (pre & post & Hpre & ->).
    exists pre, post. split; [exact Hpre | reflexivity].
  - intros (name & -> & [-> | (pre & post & Hpre & ->)]); [reflexivity |].
    apply strstr_substring. exists pre, post. split; [exact Hpre | reflexivity].
Qed.

(** *** The lists of dependencies *)

Lemma comma_list_cons (item : string) (items : list string) :
  comma_list (item :: items)
  = " " ++ item
    ++ match items with
       | [] => ""
       | _ :: _ => "," ++ comma_list items
       end.
Proof.
  unfold comma_list. cbn [map String.concat].
  destruct items as [| item' items]; cbn [map].
  - cbn [append]. now rewrite string_app_nil_r.
  - apply string_app_assoc.
Qed.

Section Lists.
Variable fenv : fmt_env.

(** The loop from the at_index [i] on, [j] items having been printed. *)
Lemma depends_loop_items (pkg : pkg_t) (wanted : depend_type) (n i j : nat) :
  holds (depends pkg) (i + n) = true ->
  let items :=
    map (pkg_depend_str fenv pkg)
      (filter
         (fun i =>
            match at_index (depends pkg) i with
            | Some entry => depend_type_eqb (type entry) wanted
            | None => false
            end)
         (seq i n)) in
  depends_loop fenv pkg wanted i j n
  = Some match items with
         | [] => ""
         | _ :: _ => (if Nat.eqb j 0 then "" else ",") ++ comma_list items
         end.
Proof.
  revert i j. induction n as [| n IH]; intros i j Hholds; [reflexivity |].
  cbn zeta. cbn [depends_loop seq filter].
  assert (Hentry : exists entry, at_index (depends pkg) i = Some entry).
  { unfold holds in Hholds. apply orb_prop in Hholds as [Hzero | Hlen].
    - apply Nat.eqb_eq in Hzero. lia.
    - unfold at_index. destruct (depends pkg) as [entries |]; [| discriminate].
      apply Nat.leb_le in Hlen.
      destruct (nth_error entries i) as [entry |] eqn:Hnth;
        [exists entry; reflexivity |].
      apply nth_error_None in Hnth. lia. }
  destruct Hentry as [entry Hentry]. rewrite Hentry.
  assert (Hrest : holds (depends pkg) (S i + n) = true)
    by (rewrite <- Hholds; f_equal; lia).
  destruct (depend_type_eqb (type entry) wanted); cbn [negb].
  - rewrite (IH (S i) (S j) Hrest). cbn [map]. f_equal.
    rewrite comma_list_cons. cbn [Nat.eqb].
    rewrite <- !string_app_assoc. reflexivity.
  - apply (IH (S i) j Hrest).
Qed.

(** X24. What the fields Depends, Recommends and Suggests list.  When
    the array of dependencies holds as many entries as the four counts say
    and the count of the type is not 0, the field is the label, a colon,
    the texts that [pkg_depend_str] gives for the entries of that type, in
    the order of the array, a space before each and a comma between two,
    and the end of the line; the entries of the other types give
    nothing. *)
Theorem format_depends_items (pkg : pkg_t) (label : string)
  (wanted : depend_type) (count : N) :
  holds (depends pkg) (all_depends_count pkg) = true ->
  count <> 0%N ->
  format_depends fenv pkg label wanted count
  = print (label ++ ":"
           ++ comma_list
                (map (pkg_depend_str fenv pkg)
                   (indices_of wanted (depends pkg) (all_depends_count pkg)))
           ++ newline).
Proof.
  intros Hholds Hcount. unfold format_depends.
  destruct (N.eqb_spec count 0) as [Hz | _]; [contradiction |]. cbn [negb].
  rewrite (depends_loop_items pkg wanted (all_depends_count pkg) 0 0 Hholds).
  fold (indices_of wanted (depends pkg) (all_depends_count pkg)).
  destruct (map _ (indices_of _ _ _)); reflexivity.
Qed.

End Lists.
(** *** The record of a package *)

Lemma ends_line_newline (s : string) : ends_line (s ++ newline) = true.
Proof.
  induction s as [| c s IH]; [reflexivity |]. cbn [append ends_line].
  destruct (s ++ newline) eqn:Htext; [| exact IH].
  destruct s; discriminate.
Qed.

Lemma ends_line_app (s t : string) :
  ends_line s = true -> ends_line t = true -> ends_line (s ++ t) = true.
Proof.
  intros Hs Ht. induction s as [| c s IH]; [exact Ht |].
  cbn [append ends_line] in *. destruct s as [| c' s].
  - cbn [append]. destruct t; [exact Hs | exact Ht].
  - cbn [append] in *. apply IH. exact Hs.
Qed.

Lemma lines_only_nothing : lines_only nothing.
Proof. exists "". split; reflexivity. Qed.

Lemma lines_only_print (text : string) : lines_only (print (text ++ newline)).
Proof. eexists. split; [reflexivity | apply ends_line_newline]. Qed.

Lemma lines_only_if (b : bool) (call : output) :
  lines_only call -> lines_only (if b then call else nothing).
Proof. destruct b; [auto | intros _; apply lines_only_nothing]. Qed.

Lemma print_all_one (text : string) (trace : list event) :
  print_all [Some (text, trace)] = Some (text, trace).
Proof. cbn. now rewrite string_app_nil_r, app_nil_r. Qed.

Lemma print_all_app (calls calls' : list output) (text text' : string) :
  print_all calls = Some (text, []) ->
  print_all calls' = Some (text', []) ->
  print_all (calls ++ calls')%list = Some (text ++ text', []).
Proof.
  revert text. induction calls as [| call calls IH]; intros text.
  - intros [= <-]. cbn. auto.
  - cbn [print_all app]. destruct call as [[t tr] |]; [| discriminate].
    destruct (print_all calls) as [[t' tr'] |]; [| discriminate].
    intros [= <- Htrace] Hcalls'. apply app_eq_nil in Htrace as [-> ->].
    rewrite (IH t' eq_refl Hcalls'). now rewrite string_app_assoc.
Qed.

Lemma print_all_lines (calls : list output) :
  Forall lines_only calls -> lines_only (print_all calls).
Proof.
  induction 1 as [| call calls (text & -> & Hline) _ (text' & IH & Hline')].
  - apply lines_only_nothing.
  - cbn [print_all]. rewrite IH. exists (text ++ text').
    split; [reflexivity | now apply ends_line_app].
Qed.

Lemma at_index_holds {A : Type} (array : option (list A)) (count i : nat) :
  holds array count = true -> (i < count)%nat ->
  exists entries entry,
    array = Some entries /\ nth_error entries i = Some entry
    /\ (count <= List.length entries)%nat.
Proof.
  unfold holds. intros Hholds Hi. apply orb_prop in Hholds as [Hz | Hlen].
  - apply Nat.eqb_eq in Hz. lia.
  - destruct array as [entries |]; [| discriminate].
    apply Nat.leb_le in Hlen.
    destruct (nth_error entries i) as [entry |] eqn:Hnth.
    + exists entries, entry. auto.
    + apply nth_error_None in Hnth. lia.
Qed.

Lemma possibilities_loop_returns (fenv : fmt_env)
  (array : option (list compound_depend_t)) (count n i : nat) :
  holds array count = true -> first_possibilities array count = true ->
  (i + n <= count)%nat ->
  exists items, possibilities_loop fenv array i n = Some items.
Proof.
  intros Hholds Hfirst. revert i.
  induction n as [| n IH]; intros i Hbound; [eexists; reflexivity |].
  cbn [possibilities_loop].
  destruct (at_index_holds array count i Hholds)
    as (entries & entry & -> & Hnth & Hlen); [lia |].
  cbn [at_index]. rewrite Hnth. cbn [first_possibilities] in Hfirst.
  rewrite forallb_forall in Hfirst.
  assert (Hin : In entry (firstn count entries)).
  { apply (nth_error_In _ i). rewrite nth_error_firstn.
    destruct (Nat.ltb_spec i count); [exact Hnth | lia]. }
  apply Hfirst in Hin. destruct entry as [t [| cdep rest]]; [discriminate |].
  destruct (IH (S i)) as [items Hitems]; [lia |].
  cbn [at_index] in Hitems. rewrite Hitems. eexists. reflexivity.
Qed.

Lemma provides_loop_returns (array : option (list string)) (count n i : nat) :
  holds array count = true -> (i + n <= count)%nat ->
  exists items, provides_loop array i n = Some items.
Proof.
  intros Hholds. revert i.
  induction n as [| n IH]; intros i Hbound; [eexists; reflexivity |].
  cbn [provides_loop].
  destruct (at_index_holds array count i Hholds)
    as (entries & entry & -> & Hnth & Hlen); [lia |].
  cbn [at_index]. rewrite Hnth.
  destruct (IH (S i)) as [items Hitems]; [lia |].
  cbn [at_index] in Hitems. rewrite Hitems. eexists. reflexivity.
Qed.

Lemma conffiles_lines_end (pairs : nv_pair_list) :
  ends_line (conffiles_lines pairs) = true.
Proof.
  induction pairs as [| [cf_name cf_value] pairs IH]; [reflexivity |].
  cbn [conffiles_lines].
  rewrite <- !string_app_assoc.
  apply ends_line_app; [apply ends_line_newline | exact IH].
Qed.

Lemma userfields_lines_end (pairs : nv_pair_list) (filter : option string) :
  ends_line (userfields_lines pairs filter) = true.
Proof.
  induction pairs as [| [uf_name uf_value] pairs IH]; [reflexivity |].
  cbn [userfields_lines]. apply ends_line_app; [| exact IH].
  destruct (should_include_field _ _); [| reflexivity].
  rewrite <- !string_app_assoc. apply ends_line_newline.
Qed.

Section Records.
Context `{StateFlags}.
Variable fenv : fmt_env.
Hypothesis minimum : (PKG_MINIMUM_FIELD_NAME_LEN fenv <= 4)%nat.

Lemma lines_only_format_string (label : string) (value : option string) :
  lines_only (format_string label value).
Proof.
  destruct value as [text |]; cbn [format_string];
    [| apply lines_only_nothing].
  rewrite <- !string_app_assoc. apply lines_only_print.
Qed.

Lemma lines_only_text (text : string) :
  ends_line text = true -> lines_only (print text).
Proof. intros Hline. exists text. split; [reflexivity | exact Hline]. Qed.

Lemma format_depends_lines (pkg : pkg_t) (label : string)
  (wanted : depend_type) (count : N) :
  holds (depends pkg) (all_depends_count pkg) = true ->
  lines_only (format_depends fenv pkg label wanted count).
Proof.
  intros Hholds. unfold format_depends.
  destruct (negb _); [| apply lines_only_nothing].
  rewrite (depends_loop_items fenv pkg wanted (all_depends_count pkg) 0 0
             Hholds).
  cbv zeta. rewrite <- !string_app_assoc. apply lines_only_print.
Qed.

Lemma format_possibilities_lines (label : string)
  (array : option (list compound_depend_t)) (count : N) :
  holds array (N.to_nat count) = true ->
  first_possibilities array (N.to_nat count) = true ->
  lines_only (format_possibilities fenv label array count).
Proof.
  intros Hholds Hfirst. unfold format_possibilities.
  destruct (negb _); [| apply lines_only_nothing].
  destruct (possibilities_loop_returns fenv array (N.to_nat count)
              (N.to_nat count) 0 Hholds Hfirst) as [items ->]; [lia |].
  rewrite <- !string_app_assoc. apply lines_only_print.
Qed.

Lemma lines_only_number (label : string) (v : Z) :
  lines_only (if negb (v =? 0) then print (label ++ printf_d v ++ newline)
              else nothing).
Proof.
  destruct (negb _); [| apply lines_only_nothing].
  rewrite <- !string_app_assoc. apply lines_only_print.
Qed.

Lemma pkg_formatted_field_Status_line (pkg : pkg_t) :
  SF_OK = 0 -> mask_in_table ->
  exists text, pkg_formatted_field_Status pkg = Some text
               /\ ends_line text = true.
Proof.
  intros Hok Hmask. unfold pkg_formatted_field_Status.
  destruct (pkg_state_flag_to_str_names (state_flag pkg) Hok Hmask)
    as [-> _].
  eexists. split; [reflexivity |].
  rewrite <- !string_app_assoc. apply ends_line_newline.
Qed.

Lemma format_field_lines (pkg : pkg_t) (id : field_id) :
  SF_OK = 0 -> mask_in_table -> arrays_hold pkg = true ->
  lines_only (format_field fenv pkg id).
Proof.
  intros Hok Hmask Harrays. unfold arrays_hold in Harrays.
  apply andb_prop in Harrays as [Harrays Hprovides].
  apply andb_prop in Harrays as [Harrays Hreplaces1].
  apply andb_prop in Harrays as [Harrays Hreplaces].
  apply andb_prop in Harrays as [Harrays Hconflicts1].
  apply andb_prop in Harrays as [Hdepends Hconflicts].
  destruct id; cbn [format_field];
    try apply lines_only_format_string;
    try apply lines_only_number;
    try (apply format_depends_lines; exact Hdepends);
    try (apply format_possibilities_lines; assumption).
  - destruct (negb _); [apply (lines_only_print "Auto-Installed: yes")
                       | apply lines_only_nothing].
  - destruct (conffiles pkg) as [| pair pairs] eqn:Hconf;
      [apply lines_only_nothing |].
    apply lines_only_text. rewrite <- Hconf, <- string_app_assoc.
    apply ends_line_app;
      [apply ends_line_newline | apply conffiles_lines_end].
  - destruct (description pkg) as [text |]; [| apply lines_only_nothing].
    destruct (short_description fenv);
      [destruct (strchr_split text "010") as [[first_line rest] |] |];
      rewrite <- !string_app_assoc; apply lines_only_print.
  - destruct (negb _); [apply (lines_only_print "Essential: yes")
                       | apply lines_only_nothing].
  - rewrite <- !string_app_assoc. apply lines_only_print.
  - rewrite <- !string_app_assoc. apply lines_only_print.
  - destruct (N.ltb_spec 1 (provides_count pkg)) as [Hmore | _];
      [| apply lines_only_nothing].
    destruct (provides_loop_returns (provides pkg)
                (N.to_nat (provides_count pkg))
                (N.to_nat (provides_count pkg) - 1) 1 Hprovides)
      as [items ->]; [lia |].
    rewrite <- !string_app_assoc. apply lines_only_print.
  - destruct (pkg_formatted_field_Status_line pkg Hok Hmask)
      as (text & -> & Hline).
    apply lines_only_text. exact Hline.
Qed.

Lemma pkg_formatted_field_lines (pkg : pkg_t) (field : string)
  (id : field_id) :
  SF_OK = 0 -> mask_in_table -> arrays_hold pkg = true ->
  lookup_field field = Some id ->
  lines_only (pkg_formatted_field fenv pkg (Some field) None).
Proof.
  intros Hok Hmask Harrays Hid.
  rewrite (pkg_formatted_field_found fenv minimum pkg field None id eq_refl
             Hid).
  now apply format_field_lines.
Qed.

Lemma pkg_formatted_userfields_lines (pkg : pkg_t) (filter : option string) :
  lines_only (pkg_formatted_userfields pkg filter).
Proof. apply lines_only_text, userfields_lines_end. Qed.

(** X25. The record that [pkg_print_status] writes.  Provided no name of
    less than four characters is turned away, [SF_OK] is the empty set of
    flags, every flag of the mask has a name in the table and the arrays
    hold as many entries as their counts say, the function returns and logs
    nothing; the record begins with the line of the name of the package,
    holds the Status line of [pkg_formatted_field_Status] between lines that
    are complete, and ends with an empty line. *)
Theorem pkg_print_status_record (conf : opkg_conf) (pkg : pkg_t) :
  SF_OK = 0 -> mask_in_table -> arrays_hold pkg = true ->
  exists status before after : string,
    pkg_formatted_field_Status pkg = Some status
    /\ pkg_print_status conf fenv (Some pkg)
       = Some ("Package: " ++ printf_s (name pkg) ++ newline ++ before
               ++ status ++ after ++ newline, [])
    /\ ends_line before = true /\ ends_line after = true.
Proof.
  intros Hok Hmask Harrays.
  destruct (pkg_formatted_field_Status_line pkg Hok Hmask)
    as (status & Hstatus & _).
  remember (pkg_print_status conf fenv (Some pkg)) as record eqn:Hrecord.
  unfold pkg_print_status in Hrecord. cbv zeta in Hrecord.
  lazymatch type of Hrecord with
  | _ = print_all ?calls =>
      change calls
        with (firstn 1 calls ++ firstn 7 (skipn 1 calls)
              ++ firstn 1 (skipn 8 calls) ++ firstn 14 (skipn 9 calls)
              ++ skipn 23 calls)%list in Hrecord
  end.
  cbn [firstn skipn] in Hrecord.
  lazymatch type of Hrecord with
  | _ = print_all (?head ++ ?fields ++ ?state ++ ?fields' ++ ?last)%list =>
      assert (Hhead : print_all head
                      = Some ("Package: " ++ printf_s (name pkg) ++ newline,
                              []));
      [| assert (Hfields : lines_only (print_all fields));
         [| assert (Hstate : print_all state = Some (status, []));
            [| assert (Hfields' : lines_only (print_all fields'));
               [| assert (Hlast : print_all last = Some (newline, []))
                    by reflexivity ]]]]
  end.
  - rewrite (pkg_formatted_field_found fenv minimum pkg "Package" None
               FPackage eq_refl eq_refl).
    apply print_all_one.
  - apply print_all_lines.
    repeat apply Forall_cons; try apply Forall_nil;
      (eapply pkg_formatted_field_lines; [assumption .. | reflexivity]).
  - rewrite (pkg_formatted_field_found fenv minimum pkg "Status" None
               FStatus eq_refl eq_refl).
    cbn [format_field]. rewrite Hstatus. apply print_all_one.
  - apply print_all_lines.
    repeat apply Forall_cons; try apply Forall_nil;
      try apply lines_only_if;
      try apply pkg_formatted_userfields_lines;
      (eapply pkg_formatted_field_lines; [assumption .. | reflexivity]).
  - destruct Hfields as (before & Hfields & Hbefore).
    destruct Hfields' as (after & Hfields' & Hafter).
    exists status, before, after.
    split; [exact Hstatus |]. split; [| split; assumption].
    rewrite Hrecord.
    rewrite (print_all_app _ _ _ _ Hhead
               (print_all_app _ _ _ _ Hfields
                  (print_all_app _ _ _ _ Hstate
                     (print_all_app _ _ _ _ Hfields' Hlast)))).
    rewrite !string_app_assoc. reflexivity.
Qed.

(** X26. With a verbose status file, [pkg_formatted_info] without a
    filter and [pkg_print_status] write the same record for a package that
    is installed, unpacked or half installed, has no tags and was not
    installed automatically. *)
Theorem pkg_formatted_info_status (conf : opkg_conf) (pkg : pkg_t) :
  verbose_status_file conf = true -> is_installed pkg = true ->
  tags pkg = None -> auto_installed pkg = 0 ->
  pkg_formatted_info conf fenv pkg None
  = pkg_print_status conf fenv (Some pkg).
Proof.
  intros Hverbose Hinstalled Htags Hauto.
  unfold pkg_formatted_info, pkg_print_status. cbv zeta.
  rewrite Hverbose, Hinstalled.
  rewrite (pkg_formatted_field_found fenv minimum pkg "Tags" None FTags
             eq_refl eq_refl).
  rewrite (pkg_formatted_field_found fenv minimum pkg "Auto-Installed" None
             FAutoInstalled eq_refl eq_refl).
  cbn [format_field format_string]. rewrite Htags, Hauto. reflexivity.
Qed.

End Records.

Section Quiet.
Context `{StateFlags}.
Variable fenv : fmt_env.
Variables p q : pkg_t.
Hypothesis same : same_but_verbose_fields p q.
Hypothesis same_text :
  forall i : nat, pkg_depend_str fenv p i = pkg_depend_str fenv q i.

Lemma depends_loop_same (wanted : depend_type) (n i j : nat) :
  depends_loop fenv p wanted i j n = depends_loop fenv q wanted i j n.
Proof.
  assert (Hdepends : depends p = depends q) by apply same.
  revert i j. induction n as [| n IH]; intros i j; [reflexivity |].
  cbn [depends_loop]. rewrite Hdepends, same_text, !IH. reflexivity.
Qed.

(** The fields of a status file that is not verbose. *)
Lemma format_field_same (id : field_id) :
  In id [FPackage; FVersion; FDepends; FRecommends; FSuggests; FProvides;
         FReplaces; FConflicts; FStatus; FEssential; FArchitecture;
         FConffiles; FInstalledSize; FInstalledTime; FAutoInstalled] ->
  format_field fenv p id = format_field fenv q id.
Proof.
  destruct same
    as (Hname & Hepoch & Hversion & Hrevision & Harch & Hwant & Hflag
        & Hstatus & Hdc & Hdepends & Hsc & Hrc & Hpc & Hconflicts & Hcc
        & Hreplaces & Hrpc & Hprc & Hprovides & Hconf & Hisize & Hitime
        & Hessential & Hauto).
  intros Hin. cbn [In] in Hin.
  repeat (destruct Hin as [<- | Hin]); [.. | contradiction];
    cbn [format_field];
    unfold format_depends, all_depends_count, pkg_version_str_alloc,
      pkg_formatted_field_Status;
    rewrite ?depends_loop_same;
    rewrite ?Hname, ?Hepoch, ?Hversion, ?Hrevision, ?Harch, ?Hwant, ?Hflag,
      ?Hstatus, ?Hdc, ?Hsc, ?Hrc, ?Hpc, ?Hconflicts, ?Hcc, ?Hreplaces,
      ?Hrpc, ?Hprc, ?Hprovides, ?Hconf, ?Hisize, ?Hitime, ?Hessential,
      ?Hauto;
    reflexivity.
Qed.

Lemma pkg_formatted_field_same (field : string) :
  (forall id : field_id,
      lookup_field field = Some id ->
      format_field fenv p id = format_field fenv q id) ->
  pkg_formatted_field fenv p (Some field) None
  = pkg_formatted_field fenv q (Some field) None.
Proof.
  intros Hsame. unfold pkg_formatted_field. cbv zeta. cbn [or_empty].
  destruct (lookup_field field) as [id |]; [| reflexivity].
  rewrite (Hsame id eq_refl). reflexivity.
Qed.

(** X27. What a status file that is not verbose leaves out.  Two
    packages that differ at most in the section, the maintainer, the sums,
    the size, the names of the files, the source, the description, the
    tags, the priority, the userfields and in what [pkg_print_status] never
    reads, and whose dependencies have the same texts, give the same record
    and the same messages. *)
Theorem pkg_print_status_quiet (conf : opkg_conf) :
  verbose_status_file conf = false ->
  pkg_print_status conf fenv (Some p) = pkg_print_status conf fenv (Some q).
Proof.
  intros Hquiet. unfold pkg_print_status, is_installed. cbv zeta.
  rewrite Hquiet.
  assert (Hstatus : state_status p = state_status q) by apply same.
  rewrite Hstatus.
  repeat match goal with
         | |- context [pkg_formatted_field fenv p (Some ?field) None] =>
             rewrite (pkg_formatted_field_same field)
               by (intros id [= <-]; apply format_field_same; cbn [In];
                   tauto)
         end.
  reflexivity.
Qed.

End Quiet.

(** ** The theorems at concrete packages, and where the claims say more
    than the code does *)


(** With the flag values of upstream: hold and user are written, the
    volatile mark (64) is not. *)
Lemma status_line_flags_witness :
  let pkg :=
    sample_pkg 0 (Some "1.0") None 0 None None None None 0 (2 + 64 + 256)
      SS_INSTALLED None in
  SF_OK = 0 /\ mask_in_table
  /\ pkg_formatted_field_Status pkg
     = Some ("Status: unknown hold,user installed" ++ newline).
Proof.
  intros pkg.
  assert (Hok : SF_OK = 0) by reflexivity.
  assert (Hmask : mask_in_table) by reflexivity.
  split; [exact Hok |]. split; [exact Hmask |].
  destruct (status_line_flags pkg Hok Hmask) as (flags & Hline & Hflags & _).
  rewrite Hline, Hflags. reflexivity.
Defined.


(** One version, once to be reinstalled by force and once not. *)
Lemma force_reinstall_breaks_ties_witness :
  let a := versioned 1 (Some "2.4") (Some "r3") 1 in
  let b := versioned 1 (Some "2.4") (Some "r3") 0 in
  epoch a = epoch b /\ version a = version b /\ revision a = revision b
  /\ int_range (force_reinstall a) /\ int_range (force_reinstall b)
  /\ force_reinstall a <> force_reinstall b
  /\ pkg_compare_versions a b <> 0
  /\ pkg_compare_versions_no_reinstall a b = 0.
Proof.
  intros a b.
  assert (Ha : int_range (force_reinstall a))
    by (vm_compute; split; discriminate).
  assert (Hb : int_range (force_reinstall b))
    by (vm_compute; split; discriminate).
  assert (Hne : force_reinstall a <> force_reinstall b) by discriminate.
  split; [reflexivity |]. split; [reflexivity |]. split; [reflexivity |].
  split; [exact Ha |]. split; [exact Hb |]. split; [exact Hne |].
  destruct (force_reinstall_breaks_ties a b) as (_ & _ & _ & Hties).
  exact (Hties eq_refl eq_refl eq_refl Ha Hb Hne).
Defined.

(** The record of the status file takes the checksum and the size of the
    feed, keeps its own state, and empties the record of the feed. *)
Lemma pkg_merge_rule_witness :
  let conf := sample_conf false false false in
  let h' := fst (pkg_merge conf sample_heap 0%nat 1%nat) in
  0%nat <> 1%nat
  /\ md5sum (h' 0%nat) = Some "0f343b09"
  /\ size (h' 0%nat) = 1024
  /\ state_flag (h' 0%nat) = 2
  /\ installed_files (h' 1%nat) = None
  /\ depends_arrays (h' 1%nat) = (None, (0, 0, 0, 0))%N.
Proof.
  intros conf h'.
  assert (Hne : 0%nat <> 1%nat) by discriminate.
  destruct (pkg_merge_rule conf sample_heap 0%nat 1%nat)
    as (_ & Hscalar & _ & _ & _ & _ & _ & Hnew).
  destruct (Hnew Hne) as (Hdep & _ & _ & _ & Hfiles).
  destruct Hscalar as (_ & _ & _ & _ & _ & _ & _ & _ & _ & _ & Hmd5 & _
                       & Hsize & _).
  split; [exact Hne |].
  split; [apply (proj2 Hmd5); reflexivity |].
  split; [apply (proj2 Hsize); reflexivity |].
  split; [reflexivity |].
  split; [exact Hfiles | exact Hdep].
Defined.



(** C5, as stated, fails on the field tags: the old record has none, the
    new one has, and the merged record still has none. *)
Lemma pkg_merge_leaves_tags :
  let h' := fst (pkg_merge (sample_conf false false false) sample_heap
                   0%nat 1%nat) in
  name (sample_heap 0%nat) = name (sample_heap 1%nat)
  /\ version (sample_heap 0%nat) = version (sample_heap 1%nat)
  /\ revision (sample_heap 0%nat) = revision (sample_heap 1%nat)
  /\ tags (sample_heap 0%nat) = None
  /\ tags (sample_heap 1%nat) = Some "net"
  /\ tags (h' 0%nat) = None.
Proof. repeat split. Qed.


(** C6, as stated, fails in a build without SHA-256 support (what configure
    gives unless asked otherwise): the SHA-256 sum of the package is known
    and does not match, it is not verified, and the package is accepted on
    its MD5 sum. *)
Lemma pkg_verify_ignores_sha256 :
  let pkg := downloaded (Some "0f343b09") (Some "9f86d081") 1024 in
  let env := sample_env cached_file 1024 in
  let conf := sample_conf false false false in
  sha256sum pkg = Some "9f86d081"
  /\ opkg_verify_sha256sum env (local_filename pkg) "9f86d081" <> 0
  /\ pkg_verify false conf env pkg
     = (0, [EvStat (Some cached_file);
            EvVerifyMd5 (Some cached_file) "0f343b09"]).
Proof. repeat split. discriminate. Qed.

(** C7, as stated, fails on a package without any checksum: the
    verification fails and the file stays. *)
Lemma pkg_verify_missing_checksum_keeps_file :
  let pkg := downloaded None None 1024 in
  let env := sample_env cached_file 1024 in
  let conf := sample_conf false false false in
  force_checksum conf = false
  /\ pkg_verify true conf env pkg
     = (-1, [EvStat (Some cached_file);
             EvMsg ERROR "Checksum is either missing or unsupported"])
  /\ existsb is_unlink (snd (pkg_verify true conf env pkg)) = false.
Proof. repeat split. Qed.

(** A file of 1000 bytes where 1024 are advertised is removed. *)
Lemma pkg_verify_failure_cleanup_witness :
  let pkg := downloaded (Some "0f343b09") None 1024 in
  let env := sample_env cached_file 1000 in
  let conf := sample_conf false false false in
  verify_failure true conf env pkg
  /\ fst (pkg_verify true conf env pkg) <> 0
  /\ In (EvUnlink (Some cached_file)) (snd (pkg_verify true conf env pkg)).
Proof.
  intros pkg env conf.
  assert (Hfail : verify_failure true conf env pkg)
    by (apply (SizeMismatch true conf env pkg 1000); reflexivity).
  split; [exact Hfail |].
  destruct (pkg_verify_failure_cleanup true conf env pkg Hfail)
    as (Hret & Hunlink & _).
  split; [exact Hret | exact Hunlink].
Defined.

(** A package that is being unpacked and ships no preinst. *)
Lemma pkg_run_script_missing_script_witness :
  let pkg :=
    sample_pkg 0 (Some "1.0") (Some "1") 0 None None None None 0 0
      SS_NOT_INSTALLED (Some "/tmp/opkg-a") in
  let env := sample_env cached_file 1024 in
  let conf := sample_conf false false false in
  script_path pkg "preinst" = inl "/tmp/opkg-a/preinst"
  /\ file_exists env "/tmp/opkg-a/preinst" = false
  /\ fst (pkg_run_script conf env pkg "preinst" "install") = 0
  /\ existsb is_system (snd (pkg_run_script conf env pkg "preinst" "install"))
     = false
  /\ existsb is_error (snd (pkg_run_script conf env pkg "preinst" "install"))
     = false.
Proof.
  intros pkg env conf.
  assert (Hpath : script_path pkg "preinst" = inl "/tmp/opkg-a/preinst")
    by reflexivity.
  assert (Hfile : file_exists env "/tmp/opkg-a/preinst" = false) by reflexivity.
  split; [exact Hpath |]. split; [exact Hfile |].
  exact (pkg_run_script_missing_script conf env pkg "preinst" "install"
           "/tmp/opkg-a/preinst" Hpath Hfile).
Defined.

(** ** The further theorems at concrete packages *)

(** hold and user are written and read back; the volatile mark (64) is
    not. *)
Lemma pkg_state_flag_round_trip_witness :
  SF_OK = 0 /\ mask_in_table /\ flags_are_bits
  /\ pkg_state_flag_to_str (2 + 64 + 256) = Some "hold,user"
  /\ pkg_state_flag_from_str "hold,user" = 2 + 256.
Proof.
  assert (Hok : SF_OK = 0) by reflexivity.
  assert (Hmask : mask_in_table) by reflexivity.
  assert (Hbits : flags_are_bits) by reflexivity.
  split; [exact Hok |]. split; [exact Hmask |]. split; [exact Hbits |].
  destruct (pkg_state_flag_round_trip (2 + 64 + 256) Hok Hmask Hbits)
    as (text & Hto & Hfrom).
  assert (Htext : Some text = Some "hold,user")
    by (rewrite <- Hto; reflexivity).
  injection Htext as Htext. rewrite <- Htext.
  split; [exact Hto | exact Hfrom].
Defined.

(** 1.05 is 1.5, and stands before 1.10 as 1.5 does. *)
Lemma verrevcmp_leading_zero_witness :
  nul_free "1." = true /\ ends_run "1." = true
  /\ isdigit (deref "5") = true
  /\ verrevcmp (Some "1.05") (Some "1.5") = 0
  /\ sign (verrevcmp (Some "1.05") (Some "1.10")) = Lt.
Proof.
  destruct (verrevcmp_leading_zero "1." "5" (Some "1.10") eq_refl eq_refl
              eq_refl) as (Hsame & Hleft & _).
  split; [reflexivity |]. split; [reflexivity |]. split; [reflexivity |].
  split; [exact Hsame |]. cbn [append] in Hleft. rewrite Hleft. reflexivity.
Defined.

(** 2.4~beta comes before 2.4. *)
Lemma verrevcmp_suffix_witness :
  nul_free "2.4" = true /\ nonzero "~"%char = true
  /\ isdigit "~"%char = false
  /\ verrevcmp (Some "2.4~beta") (Some "2.4") < 0.
Proof.
  split; [reflexivity |]. split; [reflexivity |]. split; [reflexivity |].
  exact (verrevcmp_suffix "2.4" "beta" "~"%char eq_refl eq_refl eq_refl).
Defined.

(** 1.0~rc1-1 is earlier than 1.0-1, and 1.0-1 later than 1.0~rc1-1. *)
Lemma pkg_version_satisfied_mirror_witness :
  let it := versioned 0 (Some "1.0~rc1") (Some "1") 0 in
  let ref := versioned 0 (Some "1.0") (Some "1") 0 in
  version_fields_ok it /\ version_fields_ok ref
  /\ fst (pkg_version_satisfied it ref "<<") = 1
  /\ fst (pkg_version_satisfied ref it ">>") = 1.
Proof.
  intros it ref.
  assert (Hit : version_fields_ok it)
    by (unfold version_fields_ok, epoch_ok, INT_MAX; cbn; lia).
  assert (Href : version_fields_ok ref)
    by (unfold version_fields_ok, epoch_ok, INT_MAX; cbn; lia).
  destruct (pkg_version_satisfied_mirror it ref Hit Href) as (Hlt & _).
  split; [exact Hit |]. split; [exact Href |].
  assert (Hholds : fst (pkg_version_satisfied it ref "<<") = 1)
    by reflexivity.
  split; [exact Hholds |]. rewrite <- Hlt. exact Hholds.
Defined.

Lemma built_sortable (text : string) (v : option string) (arch : string)
  (prio : N) : prio <> 0%N -> sortable (built text v arch prio).
Proof.
  intros Hprio. split; [discriminate |]. split; [exact Hprio |].
  unfold version_fields_ok, epoch_ok, INT_MAX. cbn. lia.
Qed.

(** busybox before dropbear by name; of two builds of dropbear 2.0 the one
    for the architecture of lower priority first. *)
Lemma pkg_name_version_and_architecture_compare_order_witness :
  let a := built "busybox" (Some "1.36") "all" 1 in
  let b := built "dropbear" (Some "2.0") "all" 1 in
  let c := built "dropbear" (Some "2.0") "mips" 10 in
  sortable a /\ sortable b /\ sortable c
  /\ sign (fst (pkg_name_version_and_architecture_compare a b)) = Lt
  /\ sign (fst (pkg_name_version_and_architecture_compare b c)) = Lt
  /\ sign (fst (pkg_name_version_and_architecture_compare a c)) <> Gt.
Proof.
  intros a b c.
  assert (Ha : sortable a) by (apply built_sortable; discriminate).
  assert (Hb : sortable b) by (apply built_sortable; discriminate).
  assert (Hc : sortable c) by (apply built_sortable; discriminate).
  destruct (pkg_name_version_and_architecture_compare_order a b c Ha Hb Hc)
    as (Hab & _ & _ & Htrans).
  destruct (pkg_name_version_and_architecture_compare_order b c a Hb Hc Ha)
    as (Hbc & _).
  split; [exact Ha |]. split; [exact Hb |]. split; [exact Hc |].
  assert (Hlt1 : sign (fst (pkg_name_version_and_architecture_compare a b))
                 = Lt) by (rewrite Hab; reflexivity).
  assert (Hlt2 : sign (fst (pkg_name_version_and_architecture_compare b c))
                 = Lt) by (rewrite Hbc; reflexivity).
  split; [exact Hlt1 |]. split; [exact Hlt2 |].
  apply Htrans; [rewrite Hlt1 | rewrite Hlt2]; discriminate.
Defined.

(** busybox, dropbear and opkg in a row. *)
Lemma abstract_pkg_name_compare_order_witness :
  let a := named "busybox" in
  let b := named "dropbear" in
  let c := named "opkg" in
  ab_name a = Some "busybox" /\ ab_name b = Some "dropbear"
  /\ ab_name c = Some "opkg"
  /\ sign (fst (abstract_pkg_name_compare a b)) = Lt
  /\ sign (fst (abstract_pkg_name_compare b a)) = Gt
  /\ sign (fst (abstract_pkg_name_compare a c)) <> Gt.
Proof.
  intros a b c.
  destruct (abstract_pkg_name_compare_order a b c "busybox" "dropbear" "opkg"
              eq_refl eq_refl eq_refl) as (_ & _ & Hab & Hba & Htrans).
  assert (Hlt : sign (fst (abstract_pkg_name_compare a b)) = Lt)
    by (rewrite Hab; reflexivity).
  split; [reflexivity |]. split; [reflexivity |]. split; [reflexivity |].
  split; [exact Hlt |]. split; [rewrite Hba, Hlt; reflexivity |].
  apply Htrans; [rewrite Hlt; discriminate |].
  destruct (abstract_pkg_name_compare_order b c a "dropbear" "opkg" "busybox"
              eq_refl eq_refl eq_refl) as (_ & _ & Hbc & _).
  rewrite Hbc. discriminate.
Defined.

(** The conffile that the feed knows of goes to the record of the status
    file, and leaves the record of the feed. *)
Lemma pkg_merge_moves_witness :
  let h' :=
    fst (pkg_merge (sample_conf false false false) feed_heap 0%nat 1%nat) in
  0%nat <> 1%nat
  /\ conffiles (h' 0%nat) = [("/etc/a.conf", "0f343b09")]
  /\ conffiles (h' 1%nat) = []
  /\ (conffiles (h' 0%nat) ++ conffiles (h' 1%nat))%list
     = (conffiles (feed_heap 0%nat) ++ conffiles (feed_heap 1%nat))%list.
Proof.
  intros h'.
  assert (Hne : 0%nat <> 1%nat) by discriminate.
  destruct (pkg_merge_moves (sample_conf false false false) feed_heap 0%nat
              1%nat Hne) as (Hconf & _).
  split; [exact Hne |]. split; [reflexivity |]. split; [reflexivity |].
  exact Hconf.
Defined.


(** The list of a is written and its flag cleared; the list of b cannot be
    opened, its flag stays, and the result is -1. *)
Lemma pkg_write_changed_filelists_flags_witness :
  let conf := sample_conf false false false in
  (forall p, In p (pkg_hash_fetch_all_installed sample_fs) ->
             dest (installed_heap p) <> None)
  /\ exists (h' : pkg_heap) (trace : list file_event),
       pkg_write_changed_filelists 128 conf sample_fs installed_heap
       = Some (h', -1, trace)
       /\ filelist_changed 128 (h' 0%nat) = false
       /\ filelist_changed 128 (h' 1%nat) = true.
Proof.
  intros conf.
  assert (Hdest : forall p, In p (pkg_hash_fetch_all_installed sample_fs) ->
                            dest (installed_heap p) <> None).
  { intros p Hin. unfold installed_heap.
    destruct (Nat.eqb p 0); discriminate. }
  split; [exact Hdest |].
  destruct (pkg_write_changed_filelists_flags 128 conf sample_fs
              installed_heap Hdest)
    as (h' & ret & trace & Hrun & _ & _ & Hflags & Hret).
  cbn [noaction conf sample_conf] in Hflags, Hret.
  exists h', trace. rewrite Hret in Hrun.
  split; [exact Hrun |].
  split; [rewrite (Hflags 0%nat) | rewrite (Hflags 1%nat)];
    try reflexivity; cbn; tauto.
Defined.

(** A list with two holders gets a third, who gives it up again; the
    holder who is alone frees the list. *)
Lemma pkg_installed_files_held_witness :
  let conf := sample_conf false false false in
  let held := [mk_file_info "/etc/a.conf" 33188 None] in
  let st := {| files := Some held; ref_cnt := 2 |} in
  0 <= ref_cnt st < INT_MAX
  /\ pkg_get_installed_files conf "/tmp" sample_fs (installed_pkg "a" 0) st
     = Some ({| files := Some held; ref_cnt := 3 |}, Some held, [])
  /\ pkg_free_installed_files {| files := Some held; ref_cnt := 3 |} = st
  /\ files (pkg_free_installed_files {| files := Some held; ref_cnt := 1 |})
     = None.
Proof.
  intros conf held st.
  assert (Hcnt : 0 <= ref_cnt st < INT_MAX) by (cbn; lia).
  split; [exact Hcnt |].
  destruct (pkg_installed_files_held conf "/tmp" sample_fs
              (installed_pkg "a" 0) st held eq_refl Hcnt)
    as (Hget & Hfree & _).
  split; [exact Hget |]. split; [apply Hfree; cbn; lia | reflexivity].
Defined.

(** The name of the Status field in capitals. *)
Lemma pkg_formatted_field_dispatch_witness :
  let pkg := editor_pkg None 0 in
  (PKG_MINIMUM_FIELD_NAME_LEN sample_fmt <= 4)%nat
  /\ pkg_formatted_field sample_fmt pkg (Some "STATUS") None
     = print ("Status: install hold installed" ++ newline)
  /\ pkg_formatted_field sample_fmt pkg (Some "Stat") None
     = unknown_field "Stat".
Proof.
  intros pkg.
  assert (Hmin : (PKG_MINIMUM_FIELD_NAME_LEN sample_fmt <= 4)%nat)
    by (cbn; lia).
  split; [exact Hmin |].
  destruct (pkg_formatted_field_dispatch sample_fmt Hmin pkg "STATUS" None)
    as [_ Hknown].
  destruct (pkg_formatted_field_dispatch sample_fmt Hmin pkg "Stat" None)
    as [_ Hunknown].
  split.
  - rewrite (proj1 (Hknown eq_refl) FStatus eq_refl). reflexivity.
  - apply (proj2 (Hunknown eq_refl)). intros id. destruct id; discriminate.
Defined.

(** The two dependencies of the editor, without what it needs before it is
    unpacked and what it recommends. *)
Lemma format_depends_items_witness :
  let pkg := editor_pkg None 0 in
  holds (depends pkg) (all_depends_count pkg) = true
  /\ depends_count pkg <> 0%N
  /\ format_depends sample_fmt pkg "Depends" DEPEND (depends_count pkg)
     = print ("Depends: libc, ncurses" ++ newline).
Proof.
  intros pkg.
  assert (Hholds : holds (depends pkg) (all_depends_count pkg) = true)
    by reflexivity.
  assert (Hcount : depends_count pkg <> 0%N) by discriminate.
  split; [exact Hholds |]. split; [exact Hcount |].
  rewrite (format_depends_items sample_fmt pkg "Depends" DEPEND
             (depends_count pkg) Hholds Hcount).
  reflexivity.
Defined.

(** The record of the editor in a status file. *)
Lemma pkg_print_status_record_witness :
  let pkg := editor_pkg (Some "me") 1024 in
  let conf := sample_conf false false false in
  (PKG_MINIMUM_FIELD_NAME_LEN sample_fmt <= 4)%nat
  /\ SF_OK = 0 /\ mask_in_table /\ arrays_hold pkg = true
  /\ exists status before after : string,
       pkg_formatted_field_Status pkg = Some status
       /\ pkg_print_status conf sample_fmt (Some pkg)
          = Some ("Package: " ++ printf_s (name pkg) ++ newline ++ before
                  ++ status ++ after ++ newline, [])
       /\ ends_line before = true /\ ends_line after = true.
Proof.
  intros pkg conf.
  assert (Hmin : (PKG_MINIMUM_FIELD_NAME_LEN sample_fmt <= 4)%nat)
    by (cbn; lia).
  assert (Hok : SF_OK = 0) by reflexivity.
  assert (Hmask : mask_in_table) by reflexivity.
  assert (Harrays : arrays_hold pkg = true) by reflexivity.
  split; [exact Hmin |]. split; [exact Hok |]. split; [exact Hmask |].
  split; [exact Harrays |].
  exact (pkg_print_status_record sample_fmt Hmin conf pkg Hok Hmask Harrays).
Defined.

(** The editor in a verbose status file. *)
Lemma pkg_formatted_info_status_witness :
  let pkg := editor_pkg (Some "me") 1024 in
  let conf := sample_conf false false true in
  (PKG_MINIMUM_FIELD_NAME_LEN sample_fmt <= 4)%nat
  /\ verbose_status_file conf = true /\ is_installed pkg = true
  /\ tags pkg = None /\ auto_installed pkg = 0
  /\ pkg_formatted_info conf sample_fmt pkg None
     = pkg_print_status conf sample_fmt (Some pkg).
Proof.
  intros pkg conf.
  assert (Hmin : (PKG_MINIMUM_FIELD_NAME_LEN sample_fmt <= 4)%nat)
    by (cbn; lia).
  split; [exact Hmin |]. repeat (split; [reflexivity |]).
  exact (pkg_formatted_info_status sample_fmt Hmin conf pkg eq_refl eq_refl
           eq_refl eq_refl).
Defined.

(** The editor with and without its maintainer and its size. *)
Lemma pkg_print_status_quiet_witness :
  let p := editor_pkg (Some "me") 1024 in
  let q := editor_pkg None 0 in
  let conf := sample_conf false false false in
  same_but_verbose_fields p q
  /\ (forall i : nat,
         pkg_depend_str sample_fmt p i = pkg_depend_str sample_fmt q i)
  /\ verbose_status_file conf = false
  /\ pkg_print_status conf sample_fmt (Some p)
     = pkg_print_status conf sample_fmt (Some q).
Proof.
  intros p q conf.
  assert (Hsame : same_but_verbose_fields p q)
    by (unfold same_but_verbose_fields; repeat split).
  assert (Htext : forall i : nat,
             pkg_depend_str sample_fmt p i = pkg_depend_str sample_fmt q i)
    by reflexivity.
  split; [exact Hsame |]. split; [exact Htext |]. split; [reflexivity |].
  exact (pkg_print_status_quiet sample_fmt p q Hsame Htext conf eq_refl).
Defined.
